(** * Desktop MCP: command parser, tool registry and plugin loader

    A shallow embedding of [desktop_mcp/tools/base_tool.py],
    [desktop_mcp/core/command_parser.py] and
    [desktop_mcp/core/plugin_manager.py], with the properties of the
    specification stated over it.

    Conventions of the embedding.
    - A Python [str] is a [string] whose characters are the code points
      below 256; on these [lower], [strip] and the character classes are
      Python's (module [PyStr]).
    - Confidences and similarity scores are kept in hundredths: the float
      [0.9] is [90], [fuzz.ratio(a, b) / 100.0] is the integer the library
      returns.  All the source does with them is compare them with each
      other and with literals, and [n / 100.0] orders like [n].
    - A [dict] is an association list in insertion order with unique keys.
    - Code that can raise returns a [res]. *)

From Stdlib Require Import String Ascii List NArith ZArith QArith Lia Bool Arith PeanoNat.
Import ListNotations.
Local Open Scope string_scope.
Local Open Scope list_scope.
Local Open Scope nat_scope.

Set Implicit Arguments.

(* ================================================================== *)
(** ** Results of code that may raise *)

Inductive res (A : Type) : Type :=
| Ok (a : A)
| Raise (msg : string).
Arguments Ok {A} a.
Arguments Raise {A} msg.

Definition bind {A B} (m : res A) (f : A -> res B) : res B :=
  match m with
  | Ok a => f a
  | Raise e => Raise e
  end.

Notation "x <- m ;; k" := (bind m (fun x => k))
  (at level 61, m at next level, right associativity).

(* ================================================================== *)
(** ** Python string primitives *)

Module PyStr.

Definition code (c : ascii) : nat := nat_of_ascii c.

(** A string is a sequence of code points below 256.  On these the
    classes below are those of [str] and of [re] for [str] patterns:
    [str.isupper], [str.isalpha], [str.isspace], and [\d], [\w], [\s]. *)
Definition between (lo hi : nat) (c : ascii) : bool :=
  (lo <=? code c) && (code c <=? hi).

(** [A-Z], and the capitals from U+00C0 to U+00DE without the sign U+00D7. *)
Definition is_upper (c : ascii) : bool :=
  between 65 90 c || between 192 214 c || between 216 222 c.
(** The small letters whose capital is below 256. *)
Definition has_capital (c : ascii) : bool :=
  between 97 122 c || between 224 246 c || between 248 254 c.
Definition is_digit (c : ascii) : bool := between 48 57 c.
(** [a-zA-Z] *)
Definition is_ascii_alpha (c : ascii) : bool := between 65 90 c || between 97 122 c.
Definition is_alpha (c : ascii) : bool :=
  is_ascii_alpha c || (code c =? 170) || (code c =? 181) || (code c =? 186) ||
  between 192 214 c || between 216 246 c || between 248 255 c.
(** [\w]: letters, digits and the other numeric characters, and the
    underscore. *)
Definition is_word (c : ascii) : bool :=
  is_alpha c || is_digit c || (code c =? 95) ||
  between 178 179 c || (code c =? 185) || between 188 190 c.
(** [str.isspace]: TAB..CR, FS..US, the blank, U+0085 and U+00A0. *)
Definition is_space (c : ascii) : bool :=
  between 9 13 c || between 28 32 c || (code c =? 133) || (code c =? 160).

Definition lower_char (c : ascii) : ascii :=
  if is_upper c then ascii_of_nat (code c + 32) else c.
Definition upper_char (c : ascii) : ascii :=
  if has_capital c then ascii_of_nat (code c - 32) else c.

(** [s.lower()]: below 256 every upper-case letter has its small letter
    32 places further on, and no other character changes. *)
Fixpoint lower (s : string) : string :=
  match s with
  | EmptyString => EmptyString
  | String c s' => String (lower_char c) (lower s')
  end.

Fixpoint lstrip (s : string) : string :=
  match s with
  | EmptyString => EmptyString
  | String c s' => if is_space c then lstrip s' else s
  end.

Fixpoint rstrip (s : string) : string :=
  match s with
  | EmptyString => EmptyString
  | String c s' =>
      match rstrip s' with
      | EmptyString => if is_space c then EmptyString else String c EmptyString
      | r => String c r
      end
  end.

(** [s.strip()]: the characters removed at both ends are those of
    [str.isspace]. *)
Definition strip (s : string) : string := rstrip (lstrip s).

(** [s.startswith(p)] *)
Fixpoint startswith (p s : string) : bool :=
  match p, s with
  | EmptyString, _ => true
  | String a p', String b s' => Ascii.eqb a b && startswith p' s'
  | String _ _, EmptyString => false
  end.

(** [needle in hay] *)
Fixpoint contains (needle hay : string) : bool :=
  startswith needle hay ||
  match hay with
  | EmptyString => false
  | String _ hay' => contains needle hay'
  end.

Fixpoint replace_from (old new s : string) (skip : nat) : string :=
  match s with
  | EmptyString => EmptyString
  | String c s' =>
      match skip with
      | S k => replace_from old new s' k
      | O =>
          if startswith old s
          then new ++ replace_from old new s' (String.length old - 1)
          else String c (replace_from old new s' 0)
      end
  end.

(** [s.replace(old, new)] for a non-empty [old]: every occurrence, left to
    right, without overlap. *)
Definition replace (old new s : string) : string := replace_from old new s 0.

(** No upper-case letter occurs in [s]: [s.lower() == s]. *)
Fixpoint no_upper (s : string) : bool :=
  match s with
  | EmptyString => true
  | String c s' => negb (is_upper c) && no_upper s'
  end.

(** [s[i:j]] for [0 <= i], [0 <= j]. *)
Definition slice (s : string) (i j : nat) : string := substring i (j - i) s.

(** [int(s)] for a run of ASCII digits. *)
Fixpoint int_of_digits (acc : Z) (s : string) : Z :=
  match s with
  | EmptyString => acc
  | String c s' => int_of_digits (10 * acc + Z.of_nat (code c - 48))%Z s'
  end.

End PyStr.

(* ================================================================== *)
(** ** Regular expressions ([re])

    The fragment of Python's [re] syntax that the sources use: literals,
    [.], sets with ranges and class escapes, [^], [$], [\b], groups
    (capturing and [(?:...)]), alternation and the greedy quantifiers
    [*], [+], [?], [{m,n}].  Matching is by backtracking with the priorities
    of [re]: leftmost start, first alternative, longest repetition first.
    An iteration of a repetition has to consume input, which is what [re]
    does for every pattern whose repeated part cannot match the empty
    string (all of those in the sources). *)

Module Re.
Import PyStr.

Inductive citem : Type :=
| CChar (c : ascii)
| CRange (lo hi : ascii)
| CSpace (neg : bool)
| CDigit (neg : bool)
| CWord (neg : bool).

Inductive regex : Type :=
| Eps
| Lit (c : ascii)
| Any
| CSet (neg : bool) (items : list citem)
| Bol
| Eol
| WordB (neg : bool)
| Seq (r1 r2 : regex)
| Alt (r1 r2 : regex)
| Rep (r : regex) (lo : nat) (hi : option nat)
| Group (n : nat) (r : regex).

Record compiled : Type := { rx : regex; ngroups : nat }.

(** *** Parsing a pattern *)

Fixpoint take_digits (s : string) : string * string :=
  match s with
  | String c s' =>
      if is_digit c
      then let (d, r) := take_digits s' in (String c d, r)
      else (EmptyString, s)
  | EmptyString => (EmptyString, EmptyString)
  end.

Definition nat_of_digits (d : string) : nat := Z.to_nat (int_of_digits 0%Z d).

(** An escaped character that stands for a single character. *)
Definition esc_literal (in_set : bool) (c : ascii) : option ascii :=
  match c with
  | "n"%char => Some (ascii_of_nat 10)
  | "t"%char => Some (ascii_of_nat 9)
  | "r"%char => Some (ascii_of_nat 13)
  | "f"%char => Some (ascii_of_nat 12)
  | "v"%char => Some (ascii_of_nat 11)
  | "a"%char => Some (ascii_of_nat 7)
  | "b"%char => if in_set then Some (ascii_of_nat 8) else None
  | _ => if is_ascii_alpha c || is_digit c then None else Some c
  end.

Definition esc_class (c : ascii) : option citem :=
  match c with
  | "s"%char => Some (CSpace false)
  | "S"%char => Some (CSpace true)
  | "d"%char => Some (CDigit false)
  | "D"%char => Some (CDigit true)
  | "w"%char => Some (CWord false)
  | "W"%char => Some (CWord true)
  | _ => None
  end.

(** One member of a set: a class escape, or a character. *)
Definition set_member (s : string) : option ((citem + ascii) * string) :=
  match s with
  | String "\"%char (String c r) =>
      match esc_class c with
      | Some it => Some (inl it, r)
      | None =>
          match esc_literal true c with
          | Some a => Some (inr a, r)
          | None => None
          end
      end
  | String "\"%char EmptyString => None
  | String c r => Some (inr c, r)
  | EmptyString => None
  end.

Fixpoint p_set (fuel : nat) (s : string) (first : bool) (acc : list citem)
  : option (list citem * string) :=
  match fuel with
  | O => None
  | S f =>
      match s with
      | EmptyString => None
      | String c r =>
          if Ascii.eqb c "]"%char && negb first then Some (rev acc, r)
          else
            match set_member s with
            | None => None
            | Some (inl it, r1) => p_set f r1 false (it :: acc)
            | Some (inr a, r1) =>
                match r1 with
                | String "-"%char (String c2 r2) =>
                    if Ascii.eqb c2 "]"%char
                    then p_set f r1 false (CChar a :: acc)
                    else
                      match set_member (String c2 r2) with
                      | Some (inr b, r3) =>
                          if code a <=? code b
                          then p_set f r3 false (CRange a b :: acc)
                          else None
                      | _ => None
                      end
                | _ => p_set f r1 false (CChar a :: acc)
                end
            end
      end
  end.

(** A quantifier at the head of [s], if there is one. *)
Definition p_quant (s : string) : option (option (nat * option nat) * string) :=
  match s with
  | String "*"%char r => Some (Some (0, None), r)
  | String "+"%char r => Some (Some (1, None), r)
  | String "?"%char r => Some (Some (0, Some 1), r)
  | String "{"%char r =>
      match r with
      | String "}"%char _ => Some (None, s)
      | _ =>
          let (lo, r1) := take_digits r in
          let '(hi, r2) :=
            match r1 with
            | String ","%char r1' => take_digits r1'
            | _ => (lo, r1)
            end in
          match r2 with
          | String "}"%char r3 =>
              let mn := match lo with EmptyString => 0 | _ => nat_of_digits lo end in
              match hi with
              | EmptyString => Some (Some (mn, None), r3)
              | _ =>
                  if mn <=? nat_of_digits hi
                  then Some (Some (mn, Some (nat_of_digits hi)), r3)
                  else None
              end
          | _ => Some (None, s)
          end
      end
  | _ => Some (None, s)
  end.

Definition repeatable (r : regex) : bool :=
  match r with
  | Bol | Eol | WordB _ => false
  | _ => true
  end.

Fixpoint p_alt (fuel : nat) (s : string) (g : nat) {struct fuel}
  : option (regex * string * nat) :=
  match fuel with
  | O => None
  | S f =>
      match p_seq f s g with
      | None => None
      | Some (r1, s1, g1) =>
          match s1 with
          | String "|"%char s2 =>
              match p_alt f s2 g1 with
              | Some (r2, s3, g2) => Some (Alt r1 r2, s3, g2)
              | None => None
              end
          | _ => Some (r1, s1, g1)
          end
      end
  end

with p_seq (fuel : nat) (s : string) (g : nat) {struct fuel}
  : option (regex * string * nat) :=
  match fuel with
  | O => None
  | S f =>
      match s with
      | EmptyString => Some (Eps, s, g)
      | String "|"%char _ => Some (Eps, s, g)
      | String ")"%char _ => Some (Eps, s, g)
      | _ =>
          match p_atom f s g with
          | None => None
          | Some (a, s1, g1) =>
              match p_quant s1 with
              | None => None
              | Some (None, _) =>
                  match p_seq f s1 g1 with
                  | Some (r, s3, g3) => Some (Seq a r, s3, g3)
                  | None => None
                  end
              | Some (Some (lo, hi), s2) =>
                  if repeatable a then
                    match p_quant s2 with
                    | Some (None, _) =>
                        match p_seq f s2 g1 with
                        | Some (r, s3, g3) => Some (Seq (Rep a lo hi) r, s3, g3)
                        | None => None
                        end
                    | _ => None
                    end
                  else None
              end
          end
      end
  end

with p_atom (fuel : nat) (s : string) (g : nat) {struct fuel}
  : option (regex * string * nat) :=
  match fuel with
  | O => None
  | S f =>
      match s with
      | EmptyString => None
      | String "("%char r =>
          match r with
          | String "?"%char (String ":"%char r') =>
              match p_alt f r' g with
              | Some (x, String ")"%char r'', g') => Some (x, r'', g')
              | _ => None
              end
          | String "?"%char _ => None
          | _ =>
              match p_alt f r (S g) with
              | Some (x, String ")"%char r'', g') => Some (Group (S g) x, r'', g')
              | _ => None
              end
          end
      | String "["%char r =>
          let '(neg, r1) :=
            match r with
            | String "^"%char r' => (true, r')
            | _ => (false, r)
            end in
          match p_set (S (String.length r1)) r1 true [] with
          | Some (items, r2) => Some (CSet neg items, r2, g)
          | None => None
          end
      | String "."%char r => Some (Any, r, g)
      | String "^"%char r => Some (Bol, r, g)
      | String "$"%char r => Some (Eol, r, g)
      | String "*"%char _ => None
      | String "+"%char _ => None
      | String "?"%char _ => None
      | String ")"%char _ => None
      | String "{"%char r =>
          match p_quant s with
          | Some (None, _) => Some (Lit "{"%char, r, g)
          | _ => None
          end
      | String "\"%char (String c r) =>
          match esc_class c with
          | Some it => Some (CSet false [it], r, g)
          | None =>
              match c with
              | "b"%char => Some (WordB false, r, g)
              | "B"%char => Some (WordB true, r, g)
              | _ =>
                  match esc_literal false c with
                  | Some a => Some (Lit a, r, g)
                  | None => None
                  end
              end
          end
      | String "\"%char EmptyString => None
      | String c r => Some (Lit c, r, g)
      end
  end.

(** [re.compile(p)]; [None] stands for [re.error] (and for syntax outside
    the fragment). *)
Definition compile (p : string) : option compiled :=
  match p_alt (8 + 4 * String.length p) p 0 with
  | Some (r, EmptyString, g) => Some {| rx := r; ngroups := g |}
  | _ => None
  end.

End Re.

(** *** Matching *)

Module ReMatch.
Import PyStr Re.

Definition caps : Type := list (option (nat * nat)).

Fixpoint upd {A} (l : list A) (i : nat) (a : A) : list A :=
  match l, i with
  | [], _ => []
  | _ :: t, O => a :: t
  | h :: t, S j => h :: upd t j a
  end.

Definition item_has (it : citem) (c : ascii) : bool :=
  match it with
  | CChar a => Ascii.eqb a c
  | CRange lo hi => (code lo <=? code c) && (code c <=? code hi)
  | CSpace n => xorb n (is_space c)
  | CDigit n => xorb n (is_digit c)
  | CWord n => xorb n (is_word c)
  end.

Section Matcher.
(** [re.IGNORECASE] *)
Variable icase : bool.
(** the subject string *)
Variable s : list ascii.

Definition lit_eq (a c : ascii) : bool :=
  if icase then Ascii.eqb (lower_char a) (lower_char c) else Ascii.eqb a c.

Definition in_set (items : list citem) (c : ascii) : bool :=
  existsb (fun it =>
             item_has it c ||
             (icase && (item_has it (lower_char c) || item_has it (upper_char c))))
          items.

Definition word_at (i : nat) : bool :=
  match nth_error s i with
  | Some c => is_word c
  | None => false
  end.

Definition at_boundary (i : nat) : bool :=
  xorb (match i with O => false | S j => word_at j end) (word_at i).

Definition at_end (i : nat) : bool :=
  (i =? length s) ||
  ((S i =? length s) &&
   match nth_error s i with
   | Some c => code c =? 10
   | None => false
   end).

Definition one (p : ascii -> bool) (i : nat) (c : caps)
           (k : nat -> caps -> option (nat * caps)) : option (nat * caps) :=
  match nth_error s i with
  | Some a => if p a then k (S i) c else None
  | None => None
  end.

(** [m r i c k]: match [r] at position [i] with the groups [c] recorded
    so far, then continue with [k]; the first success in priority order. *)
Fixpoint m (r : regex) (i : nat) (c : caps)
         (k : nat -> caps -> option (nat * caps)) {struct r}
  : option (nat * caps) :=
  match r with
  | Eps => k i c
  | Lit a => one (lit_eq a) i c k
  | Any => one (fun b => negb (code b =? 10)) i c k
  | CSet neg items => one (fun b => xorb neg (in_set items b)) i c k
  | Bol => if i =? 0 then k i c else None
  | Eol => if at_end i then k i c else None
  | WordB neg => if xorb neg (at_boundary i) then k i c else None
  | Seq r1 r2 => m r1 i c (fun j c' => m r2 j c' k)
  | Alt r1 r2 =>
      match m r1 i c k with
      | Some x => Some x
      | None => m r2 i c k
      end
  | Group n r' => m r' i c (fun j c' => k j (upd c' (n - 1) (Some (i, j))))
  | Rep r' lo hi =>
      (fix loop (fuel count i : nat) (c : caps) {struct fuel}
         : option (nat * caps) :=
         match fuel with
         | O => None
         | S f =>
             let stop := if lo <=? count then k i c else None in
             let more := match hi with
                         | Some h => count <? h
                         | None => true
                         end in
             if more then
               match m r' i c (fun j c' =>
                                 if i <? j then loop f (S count) j c' else None) with
               | Some x => Some x
               | None => stop
               end
             else stop
         end) (S (length s - i)) 0 i c
  end.

Variable p : compiled.

(** A match: start, end and group spans. *)
Definition span : Type := (nat * nat * caps)%type.

Definition match_at (i : nat) : option span :=
  match m (rx p) i (repeat None (ngroups p)) (fun j c => Some (j, c)) with
  | Some (j, c) => Some (i, j, c)
  | None => None
  end.

Fixpoint search_from (fuel i : nat) : option span :=
  match match_at i with
  | Some x => Some x
  | None =>
      match fuel with
      | O => None
      | S f => search_from f (S i)
      end
  end.

Fixpoint findall_from (fuel i : nat) : list span :=
  match fuel with
  | O => []
  | S f =>
      if length s <? i then []
      else
        match search_from (length s - i) i with
        | None => []
        | Some (st, en, c) =>
            (st, en, c) :: findall_from f (if en =? st then S en else en)
        end
  end.
End Matcher.

Definition chars (s : string) : list ascii := list_ascii_of_string s.

(** [match.groups()]: the text of every group, [None] for a group that
    took no part in the match. *)
Definition groups (s : string) (sp : span) : list (option string) :=
  map (fun o => match o with
                | Some (a, b) => Some (slice s a b)
                | None => None
                end) (snd sp).

(** [re.search(p, s, flags)] *)
Definition search (icase : bool) (p : compiled) (s : string) : option span :=
  search_from icase (chars s) p (String.length s) 0.

(** [re.match(p, s)] *)
Definition match_ (icase : bool) (p : compiled) (s : string) : option span :=
  match_at icase (chars s) p 0.

(** [re.findall(p, s, flags)] for a pattern with at most one group: the
    text of the group when there is one, of the whole match otherwise. *)
Definition findall (icase : bool) (p : compiled) (s : string) : list string :=
  map (fun sp : span =>
         match snd sp with
         | [] => slice s (fst (fst sp)) (snd (fst sp))
         | Some (a, b) :: _ => slice s a b
         | None :: _ => EmptyString
         end)
      (findall_from icase (chars s) p (S (String.length s)) 0).

End ReMatch.

(* ================================================================== *)
(** ** Python values and dictionaries *)

Module Py.

(** The values that travel as tool arguments and as extracted entities.
    A finite [float] is the rational it denotes. *)
#[warnings="-register-all"]
Inductive pyval : Type :=
| PNone
| PStr (s : string)
| PInt (z : Z)
| PFloat (q : Q)
| PBool (b : bool)
| PList (l : list pyval)
| PDict (d : list (string * pyval)).

Section Dict.
Variables K V : Type.
Variable keq : K -> K -> bool.

(** [d.get(k)] *)
Fixpoint dict_get (d : list (K * V)) (k : K) : option V :=
  match d with
  | [] => None
  | (k', v) :: d' => if keq k' k then Some v else dict_get d' k
  end.

(** [k in d] *)
Definition dict_has (d : list (K * V)) (k : K) : bool :=
  match dict_get d k with
  | Some _ => true
  | None => false
  end.

(** [d[k] = v]: an existing key keeps its place, a new one goes last. *)
Fixpoint dict_set (d : list (K * V)) (k : K) (v : V) : list (K * V) :=
  match d with
  | [] => [(k, v)]
  | (k', v') :: d' =>
      if keq k' k then (k', v) :: d' else (k', v') :: dict_set d' k v
  end.

(** [del d[k]] for a key that is present *)
Fixpoint dict_del (d : list (K * V)) (k : K) : list (K * V) :=
  match d with
  | [] => []
  | (k', v') :: d' => if keq k' k then d' else (k', v') :: dict_del d' k
  end.

Definition dict_keys (d : list (K * V)) : list K := map fst d.
End Dict.

Definition dict : Type := list (string * pyval).
Definition sget {V} (d : list (string * V)) (k : string) : option V :=
  dict_get String.eqb d k.
Definition sset {V} (d : list (string * V)) (k : string) (v : V) :=
  dict_set String.eqb d k v.
Definition sdel {V} (d : list (string * V)) (k : string) :=
  dict_del String.eqb d k.
Definition shas {V} (d : list (string * V)) (k : string) : bool :=
  dict_has String.eqb d k.

(** [d.update(e)] *)
Definition dict_update {V} (d e : list (string * V)) : list (string * V) :=
  fold_left (fun acc kv => sset acc (fst kv) (snd kv)) e d.

Definition str_mem (x : string) (l : list string) : bool :=
  existsb (String.eqb x) l.

Definition isinstance_str (v : pyval) : bool :=
  match v with PStr _ => true | _ => false end.
(** [bool] is a subclass of [int]. *)
Definition isinstance_int (v : pyval) : bool :=
  match v with PInt _ | PBool _ => true | _ => false end.
Definition isinstance_number (v : pyval) : bool :=
  match v with PInt _ | PBool _ | PFloat _ => true | _ => false end.
Definition isinstance_bool (v : pyval) : bool :=
  match v with PBool _ => true | _ => false end.
Definition isinstance_list (v : pyval) : bool :=
  match v with PList _ => true | _ => false end.
Definition isinstance_dict (v : pyval) : bool :=
  match v with PDict _ => true | _ => false end.

Definition num_of (v : pyval) : Q :=
  match v with
  | PInt z => inject_Z z
  | PBool true => 1%Q
  | PFloat q => q
  | _ => 0%Q
  end.

Definition Qltb (a b : Q) : bool := negb (Qle_bool b a).

(** [a == b] *)
Fixpoint py_eq (a b : pyval) {struct a} : bool :=
  match a, b with
  | PNone, PNone => true
  | PStr s, PStr t => String.eqb s t
  | PList l, PList l' =>
      (fix eq_list (l : list pyval) (l' : list pyval) {struct l} : bool :=
         match l, l' with
         | [], [] => true
         | x :: t, y :: t' => py_eq x y && eq_list t t'
         | _, _ => false
         end) l l'
  | PDict d, PDict d' =>
      (length d =? length d') &&
      (fix eq_items (d : list (string * pyval)) {struct d} : bool :=
         match d with
         | [] => true
         | (k, v) :: t =>
             match sget d' k with
             | Some v' => py_eq v v' && eq_items t
             | None => false
             end
         end) d
  | (PInt _ | PBool _ | PFloat _), (PInt _ | PBool _ | PFloat _) =>
      Qeq_bool (num_of a) (num_of b)
  | _, _ => false
  end.

(** [v in l] *)
Definition py_in (v : pyval) (l : list pyval) : bool := existsb (py_eq v) l.

(** No string inside [v] has an upper-case letter. *)
Fixpoint lower_val (v : pyval) : bool :=
  match v with
  | PStr s => PyStr.no_upper s
  | PList l => forallb lower_val l
  | PDict d => forallb (fun kv => lower_val (snd kv)) d
  | _ => true
  end.

Definition lower_vals (d : dict) : bool := forallb (fun kv => lower_val (snd kv)) d.

End Py.

(* ================================================================== *)
(** ** [tools/base_tool.py] *)

Module BaseToolM.
Import Py.
Local Open Scope string_scope.

Inductive ToolCategory : Type :=
| FILE_OPERATIONS | SYSTEM_CONTROL | MEDIA_PROCESSING | WEB_AUTOMATION
| DEVELOPMENT | COMMUNICATION | PRODUCTIVITY | ENTERTAINMENT | UTILITIES
| CUSTOM.

Definition category_value (c : ToolCategory) : string :=
  match c with
  | FILE_OPERATIONS => "file_operations"
  | SYSTEM_CONTROL => "system_control"
  | MEDIA_PROCESSING => "media_processing"
  | WEB_AUTOMATION => "web_automation"
  | DEVELOPMENT => "development"
  | COMMUNICATION => "communication"
  | PRODUCTIVITY => "productivity"
  | ENTERTAINMENT => "entertainment"
  | UTILITIES => "utilities"
  | CUSTOM => "custom"
  end.

Definition category_eqb (a b : ToolCategory) : bool :=
  String.eqb (category_value a) (category_value b).

Inductive ParameterType : Type :=
| STRING | INTEGER | FLOAT | BOOLEAN | PATH | URL | EMAIL | LIST | DICT
| FILE | DIRECTORY.

(** What validation asks of the host.  [Path(v).is_file()] and
    [Path(v).is_dir()] answer, or raise [OSError] (a name that is too
    long, a directory that may not be searched).  [urlparse] gives scheme
    and network location, or raises.  [re_match pattern v] is
    [re.match(pattern, v)] as a truth value for a pattern outside the
    fragment of [Re]: it raises [re.error] when the pattern is not a
    regular expression.  [fmt] and [fmt_set] are the text Python prints
    for a value and for a set of names inside a message. *)
Record Host : Type := {
  is_file : string -> res bool;
  is_dir : string -> res bool;
  urlparse : string -> res (string * string);
  re_match : string -> string -> res bool;
  fmt : pyval -> string;
  fmt_set : list string -> string
}.

Record ToolParameter : Type := {
  name : string;
  type : ParameterType;
  description : string;
  required : bool;
  default : pyval;
  choices : option (list pyval);
  min_value : option pyval;
  max_value : option pyval;
  pattern : option string
}.

Definition email_pattern : string :=
  "^[a-zA-Z0-9._%+-]+@[a-zA-Z0-9.-]+\.[a-zA-Z]{2,}$".

(** [re.match(pat, v)] as a truth value: by the engine of [Re] for a
    pattern of its fragment, by the host's [re] for any other. *)
Definition re_matches (h : Host) (pat v : string) : res bool :=
  match Re.compile pat with
  | None => re_match h pat v
  | Some c =>
      match ReMatch.match_ false c v with
      | Some _ => Ok true
      | None => Ok false
      end
  end.

(** [type(v).__name__] *)
Definition type_name (v : pyval) : string :=
  match v with
  | PNone => "NoneType"
  | PStr _ => "str"
  | PInt _ => "int"
  | PFloat _ => "float"
  | PBool _ => "bool"
  | PList _ => "list"
  | PDict _ => "dict"
  end.

(** The text of the [TypeError] of an ordering between two values that
    are not both numbers. *)
Definition not_supported (op : string) (a b : pyval) : string :=
  "'" ++ op ++ "' not supported between instances of '" ++
  type_name a ++ "' and '" ++ type_name b ++ "'".

Section Validate.
Variable h : Host.
Variable p : ToolParameter.
Variable value : pyval.

Definition quoted : string := "Parameter '" ++ name p ++ "'".

(** Each check yields the message of the rule it finds violated. *)
Definition type_check : option string :=
  match type p with
  | STRING => if isinstance_str value then None else Some (quoted ++ " must be a string")
  | INTEGER => if isinstance_int value then None else Some (quoted ++ " must be an integer")
  | FLOAT => if isinstance_number value then None else Some (quoted ++ " must be a number")
  | BOOLEAN => if isinstance_bool value then None else Some (quoted ++ " must be a boolean")
  | LIST => if isinstance_list value then None else Some (quoted ++ " must be a list")
  | DICT => if isinstance_dict value then None else Some (quoted ++ " must be a dictionary")
  | _ => None
  end.

Definition numeric_type : bool :=
  match type p with INTEGER | FLOAT => true | _ => false end.

(** [value > self.max_value] raises [TypeError] for a bound that is not a
    number; a bound that is [None] is not looked at. *)
Definition max_check : res (option string) :=
  match max_value p with
  | None | Some PNone => Ok None
  | Some mx =>
      if isinstance_number mx then
        Ok (if Qltb (num_of mx) (num_of value)
            then Some (quoted ++ " must be <= " ++ fmt h mx)
            else None)
      else Raise (not_supported ">" value mx)
  end.

Definition range_check : res (option string) :=
  if numeric_type && isinstance_number value then
    match min_value p with
    | None | Some PNone => max_check
    | Some mn =>
        if isinstance_number mn then
          if Qltb (num_of value) (num_of mn)
          then Ok (Some (quoted ++ " must be >= " ++ fmt h mn))
          else max_check
        else Raise (not_supported "<" value mn)
    end
  else Ok None.

Definition choice_check : option string :=
  match choices p with
  | Some (c :: cs) =>
      if py_in value (c :: cs) then None
      else Some (quoted ++ " must be one of: " ++ fmt h (PList (c :: cs)))
  | _ => None
  end.

Definition pattern_check : res (option string) :=
  match type p, pattern p, value with
  | STRING, Some (String a pat), PStr v =>
      ok <- re_matches h (String a pat) v ;;
      Ok (if ok then None else Some (quoted ++ " does not match required pattern"))
  | _, _, _ => Ok None
  end.

Definition path_check : res (option string) :=
  match type p, value with
  | FILE, PStr v =>
      found <- is_file h v ;;
      Ok (if found then None else Some ("File not found: " ++ v))
  | DIRECTORY, PStr v =>
      found <- is_dir h v ;;
      Ok (if found then None else Some ("Directory not found: " ++ v))
  | _, _ => Ok None
  end.

Definition url_check : res (option string) :=
  match type p, value with
  | URL, PStr v =>
      parsed <- urlparse h v ;;
      match parsed with
      | (String _ _, String _ _) => Ok None
      | _ => Ok (Some ("Invalid URL format: " ++ v))
      end
  | _, _ => Ok None
  end.

Definition email_check : res (option string) :=
  match type p, value with
  | EMAIL, PStr v =>
      ok <- re_matches h email_pattern v ;;
      Ok (if ok then None else Some ("Invalid email format: " ++ v))
  | _, _ => Ok None
  end.

(** The first check that reports a violation (or raises) decides. *)
Fixpoint first_violation (cs : list (res (option string))) : res (bool * option string) :=
  match cs with
  | [] => Ok (true, None)
  | Ok None :: cs' => first_violation cs'
  | Ok (Some msg) :: _ => Ok (false, Some msg)
  | Raise e :: _ => Raise e
  end.

(** [ToolParameter.validate] *)
Definition validate : res (bool * option string) :=
  match value with
  | PNone =>
      if required p
      then Ok (false, Some (quoted ++ " is required"))
      else Ok (true, None)
  | _ =>
      first_violation
        [Ok type_check; range_check; Ok choice_check; pattern_check;
         path_check; url_check; email_check]
  end.
End Validate.

Record ToolMetadata : Type := {
  md_name : string;
  md_description : string;
  category : ToolCategory;
  version : string;
  author : string;
  keywords : list string;
  parameters : list ToolParameter;
  requirements : list string;
  platforms : list string;
  min_python_version : string;
  icon : option string;
  documentation_url : option string;
  examples : list string
}.

Record ToolResult : Type := {
  success : bool;
  message : string;
  data : option dict;
  error : option string;
  execution_time : Z;
  timestamp : Z
}.

(** *** Exceptions that are not [Exception]s

    The handler of [BaseTool.safe_execute] is [except Exception].  [SystemExit],
    [KeyboardInterrupt] and [GeneratorExit] derive from [BaseException]
    only, and pass it.  A call ends in one of three ways. *)
Inductive ending (A : Type) : Type :=
| Returns (a : A)
| Raises (msg : string)
| Exits (msg : string).
Arguments Returns {A} a.
Arguments Raises {A} msg.
Arguments Exits {A} msg.

Definition ending_of {A : Type} (r : res A) : ending A :=
  match r with
  | Ok a => Returns a
  | Raise e => Raises e
  end.

Section Tools.
(** The part of the world that tools act on. *)
Variable W : Type.

(** A tool instance: its metadata (set once by the constructor), the
    module its class was defined in, and [execute], which receives the
    keyword arguments, the world and the clock and leaves them changed.
    It returns a [ToolResult], as its signature says, or raises an
    [Exception]. *)
Record BaseTool : Type := {
  metadata : ToolMetadata;
  tool_module : string;
  execute : dict -> W -> Z -> res ToolResult * W * Z
}.

(** The state around a call: the world, the clock [time.time()] reads,
    and the record of every [execute] that was started. *)
Record State : Type := {
  world : W;
  now : Z;
  invoked : list (string * dict)
}.

Definition param_names (t : BaseTool) : list string :=
  map name (parameters (metadata t)).

(** [kwargs.get(k)] *)
Definition kwargs_get (kwargs : dict) (k : string) : pyval :=
  match sget kwargs k with
  | Some v => v
  | None => PNone
  end.

Fixpoint validate_each (h : Host) (ps : list ToolParameter) (kwargs : dict)
  : res (bool * option string) :=
  match ps with
  | [] => Ok (true, None)
  | p :: ps' =>
      let value := kwargs_get kwargs (name p) in
      r <- validate h p value ;;
      match r with
      | (false, err) => Ok (false, err)
      | (true, _) => validate_each h ps' kwargs
      end
  end.

(** [BaseTool.validate_parameters] *)
Definition validate_parameters (h : Host) (t : BaseTool) (kwargs : dict)
  : res (bool * option string) :=
  r <- validate_each h (parameters (metadata t)) kwargs ;;
  match r with
  | (false, err) => Ok (false, err)
  | (true, _) =>
      let unexpected :=
        filter (fun k => negb (str_mem k (param_names t))) (dict_keys kwargs) in
      match unexpected with
      | [] => Ok (true, None)
      | _ => Ok (false, Some ("Unexpected parameters: " ++ fmt_set h unexpected))
      end
  end.

(** The call of [self.execute] with the keyword arguments. *)
Definition call_execute (t : BaseTool) (kwargs : dict) (st : State)
  : res ToolResult * State :=
  let '(r, w, n) := execute t kwargs (world st) (now st) in
  (r, {| world := w; now := n;
         invoked := (invoked st ++ [(md_name (metadata t), kwargs)])%list |}).

Definition failed (msg : string) (err : option string) (start_time : Z) (st : State)
  : ToolResult :=
  {| success := false; message := msg; data := None; error := err;
     execution_time := now st - start_time; timestamp := now st |}.

(** The [try] block of [safe_execute]. *)
Definition safe_execute_try (h : Host) (t : BaseTool) (kwargs : dict)
           (start_time : Z) (st : State) : res ToolResult * State :=
  match validate_parameters h t kwargs with
  | Raise e => (Raise e, st)
  | Ok (false, err) =>
      (Ok (failed "Parameter validation failed" err start_time st), st)
  | Ok (true, _) =>
      match call_execute t kwargs st with
      | (Ok result, st') =>
          (Ok {| success := success result; message := message result;
                 data := data result; error := error result;
                 execution_time := now st' - start_time;
                 timestamp := timestamp result |}, st')
      | (Raise e, st') => (Raise e, st')
      end
  end.

(** [BaseTool.safe_execute]: the [try] block under its
    [except Exception] handler, for a call whose keyword arguments bind
    and whose [execute] returns or raises an [Exception] ([Raise] stands
    for these).  [safe_execute_call] below is the call without the two
    provisos. *)
Definition safe_execute (h : Host) (t : BaseTool) (kwargs : dict) (st : State)
  : res ToolResult * State :=
  let start_time := now st in
  match safe_execute_try h t kwargs start_time st with
  | (Ok r, st') => (Ok r, st')
  | (Raise e, st') =>
      (Ok (failed "Tool execution failed" (Some ("Tool execution failed: " ++ e))
                  start_time st'), st')
  end.

(** A tool whose [execute] may leave with such an exception: [exit_of]
    gives, for the calls that do, the exception and the world and clock
    left behind; the other calls end as [execute] of [base_tool] says. *)
Record ExitingTool : Type := {
  base_tool : BaseTool;
  exit_of : dict -> W -> Z -> option (string * W * Z)
}.

(** A tool that never leaves this way. *)
Definition staying (t : BaseTool) : ExitingTool :=
  {| base_tool := t; exit_of := fun _ _ _ => None |}.

(** The call of [self.execute] with the keyword arguments. *)
Definition execute_call (t : ExitingTool) (kwargs : dict) (st : State)
  : ending ToolResult * State :=
  match exit_of t kwargs (world st) (now st) with
  | Some (msg, w, n) =>
      (Exits msg,
       {| world := w; now := n;
          invoked := (invoked st ++ [(md_name (metadata (base_tool t)), kwargs)])%list |})
  | None =>
      let '(r, st') := call_execute (base_tool t) kwargs st in (ending_of r, st')
  end.

(** [TypeError] of a call of [safe_execute] whose keyword arguments have
    the key [self], the name of the first parameter of the method. *)
Definition self_clash : string :=
  "BaseTool.safe_execute() got multiple values for argument 'self'".

(** The call of [tool.safe_execute]: the binding of the keyword
    arguments, which happens before the [try] block is entered, then the
    body.  What [validate_parameters] or [execute] raises as an
    [Exception] is handled; an exit is not. *)
Definition safe_execute_call (h : Host) (t : ExitingTool) (kwargs : dict) (st : State)
  : ending ToolResult * State :=
  if shas kwargs "self" then (Raises self_clash, st)
  else
    let start_time := now st in
    match validate_parameters h (base_tool t) kwargs with
    | Raise e =>
        (Returns (failed "Tool execution failed"
                         (Some ("Tool execution failed: " ++ e)) start_time st), st)
    | Ok (false, err) =>
        (Returns (failed "Parameter validation failed" err start_time st), st)
    | Ok (true, _) =>
        match execute_call t kwargs st with
        | (Returns result, st') =>
            (Returns {| success := success result; message := message result;
                        data := data result; error := error result;
                        execution_time := now st' - start_time;
                        timestamp := timestamp result |}, st')
        | (Raises e, st') =>
            (Returns (failed "Tool execution failed"
                             (Some ("Tool execution failed: " ++ e)) start_time st'), st')
        | (Exits e, st') => (Exits e, st')
        end
    end.

Fixpoint unique (l : list string) : bool :=
  match l with
  | [] => true
  | x :: l' => negb (str_mem x l') && unique l'
  end.

(** [BaseTool._validate_metadata] *)
Definition _validate_metadata (md : ToolMetadata) : res unit :=
  match md_name md with
  | EmptyString => Raise "Tool name is required"
  | _ =>
      match md_description md with
      | EmptyString => Raise "Tool description is required"
      | _ =>
          if unique (map name (parameters md)) then Ok tt
          else Raise "Parameter names must be unique"
      end
  end.

(** *** [ToolRegistry] *)

Record ToolRegistry : Type := {
  tools : list (string * BaseTool);
  categories : list (ToolCategory * list string)
}.

Definition empty_registry : ToolRegistry := {| tools := []; categories := [] |}.

Definition cat_get (cs : list (ToolCategory * list string)) (c : ToolCategory)
  : option (list string) := dict_get category_eqb cs c.

(** [ToolRegistry.register] *)
Definition register (reg : ToolRegistry) (tool : BaseTool) : ToolRegistry :=
  let name := md_name (metadata tool) in
  let tools' := sset (tools reg) name tool in
  let category := category (metadata tool) in
  let cats1 :=
    if dict_has category_eqb (categories reg) category then categories reg
    else dict_set category_eqb (categories reg) category [] in
  let names := match cat_get cats1 category with
               | Some l => l
               | None => []
               end in
  let cats2 :=
    if str_mem name names then cats1
    else dict_set category_eqb cats1 category (names ++ [name])%list in
  {| tools := tools'; categories := cats2 |}.

(** [ToolRegistry.get_tool] *)
Definition get_tool (reg : ToolRegistry) (name : string) : option BaseTool :=
  sget (tools reg) name.

(** [ToolRegistry.get_tools_by_category] *)
Definition get_tools_by_category (reg : ToolRegistry) (c : ToolCategory)
  : list BaseTool :=
  let tool_names := match cat_get (categories reg) c with
                    | Some l => l
                    | None => []
                    end in
  flat_map (fun n => match sget (tools reg) n with
                     | Some t => [t]
                     | None => []
                     end) tool_names.

(** [ToolRegistry.list_tools] *)
Definition list_tools (reg : ToolRegistry) : list string := dict_keys (tools reg).

(** The test of the loop of [search_tools], for a lower-cased [query]. *)
Definition matches_query (query : string) (tool : BaseTool) : bool :=
  PyStr.contains query (PyStr.lower (md_name (metadata tool))) ||
  PyStr.contains query (PyStr.lower (md_description (metadata tool))) ||
  existsb (fun keyword => PyStr.contains query (PyStr.lower keyword))
          (keywords (metadata tool)).

(** [ToolRegistry.search_tools] *)
Definition search_tools (reg : ToolRegistry) (query : string) : list BaseTool :=
  let query := PyStr.lower query in
  filter (matches_query query) (map snd (tools reg)).

(** [BaseTool._param_type_to_json_type] *)
Definition _param_type_to_json_type (param_type : ParameterType) : string :=
  match param_type with
  | STRING => "string"
  | INTEGER => "integer"
  | FLOAT => "number"
  | BOOLEAN => "boolean"
  | LIST => "array"
  | DICT => "object"
  | PATH => "string"
  | FILE => "string"
  | DIRECTORY => "string"
  | URL => "string"
  | EMAIL => "string"
  end.

Definition is_none (v : pyval) : bool :=
  match v with PNone => true | _ => false end.

Definition put_some (k : string) (o : option pyval) (d : dict) : dict :=
  match o with
  | Some v => sset d k v
  | None => d
  end.

(** The [prop] dictionary [get_parameter_schema] builds for a parameter. *)
Definition schema_prop (param : ToolParameter) : dict :=
  let p0 := [("description", PStr (description param));
             ("type", PStr (_param_type_to_json_type (type param)))] in
  let p1 := if is_none (default param) then p0 else sset p0 "default" (default param) in
  let p2 := match choices param with
            | Some (c :: cs) => sset p1 "enum" (PList (c :: cs))
            | _ => p1
            end in
  let p3 := put_some "minimum" (min_value param) p2 in
  let p4 := put_some "maximum" (max_value param) p3 in
  match pattern param with
  | Some (String a pat) => sset p4 "pattern" (PStr (String a pat))
  | _ => p4
  end.

(** The [properties] and [required] entries of the schema. *)
Record Schema : Type := {
  properties : dict;
  schema_required : list string
}.

(** [BaseTool.get_parameter_schema] (its ["type"] entry is the constant
    ["object"]) *)
Definition get_parameter_schema (t : BaseTool) : Schema :=
  fold_left (fun schema param =>
               {| properties := sset (properties schema) (name param)
                                     (PDict (schema_prop param));
                  schema_required :=
                    if required param
                    then (schema_required schema ++ [name param])%list
                    else schema_required schema |})
            (parameters (metadata t))
            {| properties := []; schema_required := [] |}.
End Tools.

End BaseToolM.

(* ================================================================== *)
(** ** [core/command_parser.py] *)

Module CommandParserM.
Import PyStr Py BaseToolM.
Local Open Scope string_scope.
Local Open Scope nat_scope.

Record ParsedCommand : Type := {
  intent : string;
  action : string;
  entities : dict;
  confidence : nat;
  tool_name : option string;
  parameters : option dict;
  alternatives : option (list string)
}.

Record CommandPattern : Type := {
  pattern : string;
  cp_intent : string;
  cp_action : string;
  cp_tool_name : string;
  parameter_mapping : list (string * string);
  cp_examples : list string
}.

(** [fuzzywuzzy], when it could be imported: [fuzz.ratio],
    [fuzz.partial_ratio], and the score [process.extract] gives a choice
    for a query (its default processor and scorer).  Scores are integers
    from 0 to 100. *)
Record Fuzzy : Type := {
  ratio : string -> string -> nat;
  partial_ratio : string -> string -> nat;
  extract_score : string -> string -> nat
}.

(** What [spacy] returns for a text: the tokens with lemma and part of
    speech, and the named entities as labelled spans of the text. *)
Record Token : Type := { lemma_ : string; pos_ : string }.
Record Ent : Type := { label_ : string; start_char : nat; end_char : nat }.
Record Doc : Type := { doc_tokens : list Token; doc_ents : list Ent }.

(** The optional dependencies: [FUZZY_AVAILABLE] and [SPACY_AVAILABLE] are
    the presence of the two fields. *)
Record Libs : Type := {
  fuzzy : option Fuzzy;
  spacy : option (string -> Doc)
}.

Definition unknown_none : ParsedCommand :=
  {| intent := "unknown"; action := "none"; entities := []; confidence := 0;
     tool_name := None; parameters := None; alternatives := None |}.

Definition dquote : string := String (ascii_of_nat 34) EmptyString.

(** [re.findall] with a pattern written in the source. *)
Definition findall_lit (icase : bool) (p s : string) : list string :=
  match Re.compile p with
  | Some c => ReMatch.findall icase c s
  | None => []
  end.

Definition path_patterns : list string :=
  [ "([a-zA-Z]:[\\\/][^\s]+)";
    "(\/[^\s]+)";
    "(\~\/[^\s]+)";
    "(\.\/[^\s]+)";
    "(\.\.[\\\/][^\s]+)" ].

Definition url_pattern : string := "https?://[^\s]+".
Definition email_pattern : string :=
  "\b[A-Za-z0-9._%+-]+@[A-Za-z0-9.-]+\.[A-Z|a-z]{2,}\b".
Definition number_pattern : string := "\b\d+\b".
Definition quoted_pattern : string := dquote ++ "([^" ++ dquote ++ "]*)" ++ dquote.

Definition strs (l : list string) : pyval := PList (map PStr l).

Fixpoint first_paths (ps : list string) (command : string) : list string :=
  match ps with
  | [] => []
  | p :: ps' =>
      match findall_lit false p command with
      | [] => first_paths ps' command
      | matches => matches
      end
  end.

Definition set_if (l : list string) (k : string) (v : pyval) (d : dict) : dict :=
  match l with
  | [] => d
  | _ => sset d k v
  end.

(** [_extract_common_entities] *)
Definition _extract_common_entities (command : string) : dict :=
  let paths := first_paths path_patterns command in
  let e1 := set_if paths "file_paths" (strs paths) [] in
  let urls := findall_lit false url_pattern command in
  let e2 := set_if urls "urls" (strs urls) e1 in
  let emails := findall_lit true email_pattern command in
  let e3 := set_if emails "emails" (strs emails) e2 in
  let numbers := findall_lit false number_pattern command in
  let e4 := set_if numbers "numbers"
                   (PList (map (fun n => PInt (int_of_digits 0%Z n)) numbers)) e3 in
  let quoted := findall_lit false quoted_pattern command in
  set_if quoted "quoted_strings" (strs quoted) e4.

(** [_convert_pattern_to_regex] *)
Definition _convert_pattern_to_regex (pattern : string) : string :=
  let p1 := replace "{file}" "([^\s]+)" pattern in
  let p2 := replace "{app}" "([a-zA-Z]+(?:\s+[a-zA-Z]+)*)" p1 in
  let p3 := replace "{text}" "(.+)" p2 in
  let p4 := replace "{number}" "(\d+)" p3 in
  replace "{path}" "([^\s]+)" p4.

(** [groups[0] if groups else None] *)
Definition group0 (groups : list (option string)) : pyval :=
  match groups with
  | Some g :: _ => PStr g
  | _ => PNone
  end.

(** [_extract_entities_from_match] *)
Definition _extract_entities_from_match (groups : list (option string))
           (p : CommandPattern) : dict :=
  let e1 := if contains "{file}" (pattern p) then sset [] "file" (group0 groups) else [] in
  let e2 := if contains "{app}" (pattern p) then sset e1 "app" (group0 groups) else e1 in
  if contains "{text}" (pattern p) then sset e2 "text" (group0 groups) else e2.

(** [_extract_entities_fuzzy] *)
Definition _extract_entities_fuzzy (command : string) (p : CommandPattern) : dict :=
  _extract_common_entities command.

(** [_map_parameters] *)
Definition _map_parameters (entities : dict) (mapping : list (string * string)) : dict :=
  fold_left (fun parameters km =>
               match sget entities (fst km) with
               | Some v => sset parameters (snd km) v
               | None => parameters
               end) mapping [].

Definition truthy (v : pyval) : bool :=
  match v with
  | PNone => false
  | PStr EmptyString => false
  | PInt z => negb (Z.eqb z 0)
  | PFloat q => negb (Qeq_bool q 0)
  | PBool b => b
  | PList [] => false
  | PDict [] => false
  | _ => true
  end.

(** [v[0]] for a non-empty list or string *)
Definition index0 (v : pyval) : pyval :=
  match v with
  | PList (x :: _) => x
  | PStr (String c _) => PStr (String c EmptyString)
  | _ => PNone
  end.

(** [k in entities and entities[k]] *)
Definition present (entities : dict) (k : string) : option pyval :=
  match sget entities k with
  | Some v => if truthy v then Some v else None
  | None => None
  end.

Definition infer_one (entities : dict) (param : ToolParameter) (parameters : dict) : dict :=
  let param_name := lower (name param) in
  if contains "path" param_name || contains "file" param_name then
    match present entities "file_paths" with
    | Some v => sset parameters (name param) (index0 v)
    | None =>
        match sget entities "file" with
        | Some v => sset parameters (name param) v
        | None => parameters
        end
    end
  else if contains "url" param_name then
    match present entities "urls" with
    | Some v => sset parameters (name param) (index0 v)
    | None => parameters
    end
  else if contains "text" param_name || contains "message" param_name then
    match sget entities "text" with
    | Some v => sset parameters (name param) v
    | None =>
        match present entities "quoted_strings" with
        | Some v => sset parameters (name param) (index0 v)
        | None => parameters
        end
    end
  else if contains "number" param_name || contains "count" param_name then
    match present entities "numbers" with
    | Some v => sset parameters (name param) (index0 v)
    | None => parameters
    end
  else parameters.

Definition intent_mapping : list (string * (string * string)) :=
  [ ("open", ("application", "launch")); ("start", ("application", "launch"));
    ("launch", ("application", "launch")); ("run", ("application", "launch"));
    ("close", ("application", "close")); ("quit", ("application", "close"));
    ("exit", ("application", "close")); ("copy", ("file", "copy"));
    ("move", ("file", "move")); ("delete", ("file", "delete"));
    ("remove", ("file", "delete")); ("create", ("file", "create"));
    ("make", ("file", "create")); ("zip", ("archive", "create"));
    ("compress", ("archive", "create")); ("extract", ("archive", "extract"));
    ("unzip", ("archive", "extract")); ("search", ("web", "search"));
    ("browse", ("web", "navigate")); ("visit", ("web", "navigate"));
    ("download", ("web", "download")); ("take", ("system", "screenshot"));
    ("capture", ("system", "screenshot")); ("monitor", ("system", "monitor"));
    ("check", ("system", "status")) ].

(** [_determine_intent] *)
Definition _determine_intent (doc : Doc) : string * string * nat :=
  let verbs := map lemma_ (filter (fun t => String.eqb (pos_ t) "VERB") (doc_tokens doc)) in
  match flat_map (fun verb => match sget intent_mapping verb with
                              | Some ia => [ia]
                              | None => []
                              end) verbs with
  | (intent, action) :: _ => (intent, action, 80)
  | [] => ("unknown", "none", 0)
  end.

Definition category_mapping : list (string * ToolCategory) :=
  [ ("file", FILE_OPERATIONS); ("application", SYSTEM_CONTROL);
    ("archive", UTILITIES); ("web", WEB_AUTOMATION); ("system", SYSTEM_CONTROL) ].

Definition common_commands : list string :=
  [ "open blender"; "take screenshot"; "list files"; "search web";
    "copy files"; "move files"; "create zip"; "monitor system" ].

(** Insertion of a scored choice into a list sorted by descending score;
    among equal scores the earlier choice stays first. *)
Fixpoint insert_desc (x : string * nat) (l : list (string * nat)) : list (string * nat) :=
  match l with
  | [] => [x]
  | y :: l' => if snd x <? snd y then y :: insert_desc x l' else x :: l
  end.

Definition sort_desc (l : list (string * nat)) : list (string * nat) :=
  fold_right insert_desc [] l.

(** [process.extract(query, choices, limit)]: the [limit] best-scoring
    choices with their scores, best first. *)
Definition extract (fz : Fuzzy) (query : string) (choices : list string) (limit : nat)
  : list (string * nat) :=
  firstn limit (sort_desc (map (fun c => (c, extract_score fz query c)) choices)).

Section Parser.
Variable W : Type.
Variable libs : Libs.
(** the global [tool_registry] *)
Variable reg : ToolRegistry W.

(** [_infer_parameters] *)
Definition _infer_parameters (entities : dict) (tool_name : option string) : dict :=
  match tool_name with
  | None => []
  | Some EmptyString => []
  | Some n =>
      match get_tool reg n with
      | None => []
      | Some tool =>
          fold_left (fun ps prm => infer_one entities prm ps)
                    (BaseToolM.parameters (metadata tool)) []
      end
  end.

Definition candidate (p : CommandPattern) (entities : dict) (confidence : nat)
  : ParsedCommand :=
  {| intent := cp_intent p; action := cp_action p; entities := entities;
     confidence := confidence; tool_name := Some (cp_tool_name p);
     parameters := Some (_map_parameters entities (parameter_mapping p));
     alternatives := None |}.

(** The best match so far and its confidence. *)
Definition best : Type := (option ParsedCommand * nat)%type.

Definition fuzzy_step (fz : Fuzzy) (command : string) (p : CommandPattern)
           (b : best) (example : string) : best :=
  let similarity := ratio fz command (lower example) in
  if (80 <? similarity) && (snd b <? similarity)
  then (Some (candidate p (_extract_entities_fuzzy command p) similarity), similarity)
  else b.

(** The regex half of a turn of the loop of [_match_patterns]. *)
Definition regex_step (command : string) (b : best) (p : CommandPattern) : res best :=
  match Re.compile (_convert_pattern_to_regex (pattern p)) with
  | None => Raise "re.error"
  | Some rx =>
      match ReMatch.search true rx command with
      | Some sp =>
          let confidence := 90 in
          let entities := _extract_entities_from_match (ReMatch.groups command sp) p in
          if snd b <? confidence
          then Ok (Some (candidate p entities confidence), confidence)
          else Ok b
      | None => Ok b
      end
  end.

(** The fuzzy half: the examples of the pattern against the command. *)
Definition examples_step (command : string) (b : best) (p : CommandPattern) : best :=
  match fuzzy libs with
  | Some fz => fold_left (fuzzy_step fz command p) (cp_examples p) b
  | None => b
  end.

(** One turn of the loop of [_match_patterns]. *)
Definition pattern_step (command : string) (b : best) (p : CommandPattern) : res best :=
  b1 <- regex_step command b p ;;
  Ok (examples_step command b1 p).

Fixpoint pattern_loop (ps : list CommandPattern) (command : string) (b : best) : res best :=
  match ps with
  | [] => Ok b
  | p :: ps' => b' <- pattern_step command b p ;; pattern_loop ps' command b'
  end.

(** [_match_patterns] *)
Definition _match_patterns (patterns : list CommandPattern) (command : string)
  : res ParsedCommand :=
  b <- pattern_loop patterns command (None, 0) ;;
  Ok match fst b with
     | Some best_match => best_match
     | None => unknown_none
     end.

(** [_find_best_tool_match] *)
Definition _find_best_tool_match (intent action : string) (entities : dict)
  : option string :=
  match sget category_mapping intent with
  | None => None
  | Some category =>
      let tools := get_tools_by_category reg category in
      match filter (fun tool =>
                      contains action (lower (md_name (metadata tool))) ||
                      contains action (lower (md_description (metadata tool)))) tools with
      | tool :: _ => Some (md_name (metadata tool))
      | [] =>
          match tools with
          | tool :: _ => Some (md_name (metadata tool))
          | [] => None
          end
      end
  end.

(** [_parse_with_nlp] *)
Definition _parse_with_nlp (command : string) : ParsedCommand :=
  match spacy libs with
  | None => unknown_none
  | Some nlp =>
      let doc := nlp command in
      let ents := fold_left (fun e ent => sset e (lower (label_ ent))
                                               (PStr (slice command (start_char ent) (end_char ent))))
                            (doc_ents doc) [] in
      let entities := dict_update ents (_extract_common_entities command) in
      let '(intent, action, confidence) := _determine_intent doc in
      let tool_name := _find_best_tool_match intent action entities in
      {| intent := intent; action := action; entities := entities;
         confidence := confidence; tool_name := tool_name;
         parameters := Some (_infer_parameters entities tool_name);
         alternatives := None |}
  end.

Definition best_tool : Type := (option (BaseTool W) * nat)%type.

Definition raise_to (confidence : nat) (tool : BaseTool W) (b : best_tool) : best_tool :=
  if snd b <? confidence then (Some tool, confidence) else b.

(** One turn of the loop of [_match_tool_names]. *)
Definition tool_step (command : string) (b : best_tool) (kt : string * BaseTool W)
  : best_tool :=
  let '(tool_name, tool) := kt in
  let b1 := if contains (lower tool_name) command then raise_to 80 tool b else b in
  let b2 := fold_left (fun b keyword =>
                         if contains (lower keyword) command then raise_to 60 tool b else b)
                      (keywords (metadata tool)) b1 in
  match fuzzy libs with
  | Some fz =>
      let name_similarity := partial_ratio fz command (lower tool_name) in
      let desc_similarity :=
        partial_ratio fz command (lower (md_description (metadata tool))) in
      let similarity := Nat.max name_similarity desc_similarity in
      if (70 <? similarity) && (snd b2 <? similarity)
      then (Some tool, similarity)
      else b2
  | None => b2
  end.

(** [_match_tool_names] *)
Definition _match_tool_names (command : string) : ParsedCommand :=
  match fold_left (tool_step command) (tools reg) (None, 0) with
  | (Some tool, best_confidence) =>
      let entities := _extract_common_entities command in
      {| intent := "execute_tool"; action := "run"; entities := entities;
         confidence := best_confidence;
         tool_name := Some (md_name (metadata tool));
         parameters := Some (_infer_parameters entities (Some (md_name (metadata tool))));
         alternatives := None |}
  | (None, _) => unknown_none
  end.

(** [_suggest_alternatives] *)
Definition _suggest_alternatives (command : string) : list string :=
  match fuzzy libs with
  | Some fz =>
      let tool_names := dict_keys (tools reg) in
      let all_options := (tool_names ++ common_commands)%list in
      let matches := extract fz command all_options 3 in
      map fst (filter (fun mt => 60 <? snd mt) matches)
  | None => []
  end.

Definition help (command : string) : ParsedCommand :=
  {| intent := "unknown"; action := "help";
     entities := [("original_command", PStr command)]; confidence := 0;
     tool_name := None; parameters := None;
     alternatives := Some (_suggest_alternatives command) |}.

(** [max([a, b], key=confidence)]: the first of the greatest *)
Definition max_conf (a b : ParsedCommand) : ParsedCommand :=
  if confidence a <? confidence b then b else a.

(** [parse_command] after normalisation, for a non-empty command *)
Definition resolve (patterns : list CommandPattern) (command : string)
  : res ParsedCommand :=
  pattern_result <- _match_patterns patterns command ;;
  if 70 <? confidence pattern_result then Ok pattern_result
  else
    let nlp_wins :=
      match spacy libs with
      | Some _ =>
          let nlp_result := _parse_with_nlp command in
          if confidence pattern_result <? confidence nlp_result
          then Some nlp_result else None
      | None => None
      end in
    match nlp_wins with
    | Some nlp_result => Ok nlp_result
    | None =>
        let tool_result := _match_tool_names command in
        if confidence pattern_result <? confidence tool_result then Ok tool_result
        else
          let best_result := max_conf pattern_result tool_result in
          if confidence best_result <? 30 then Ok (help command)
          else Ok best_result
    end.

(** [command.strip().lower()] *)
Definition normalize (command : string) : string := lower (strip command).

(** [CommandParser.parse_command] *)
Definition parse_command (patterns : list CommandPattern) (command : string)
  : res ParsedCommand :=
  let command := normalize command in
  match command with
  | EmptyString => Ok unknown_none
  | _ => resolve patterns command
  end.
End Parser.

(** [_load_builtin_patterns] *)
Definition builtin_patterns : list CommandPattern :=
  [ {| pattern := "open {app}"; cp_intent := "application"; cp_action := "launch";
       cp_tool_name := "open_application";
       parameter_mapping := [("app", "app_name")];
       cp_examples := ["open blender"; "open chrome"; "open vscode"] |};
    {| pattern := "start {app}"; cp_intent := "application"; cp_action := "launch";
       cp_tool_name := "open_application";
       parameter_mapping := [("app", "app_name")];
       cp_examples := ["start blender"; "start browser"] |};
    {| pattern := "copy {file} to {path}"; cp_intent := "file"; cp_action := "copy";
       cp_tool_name := "copy_files";
       parameter_mapping := [("file", "source_path"); ("path", "destination_path")];
       cp_examples := ["copy document.txt to backup folder"] |};
    {| pattern := "move {file} to {path}"; cp_intent := "file"; cp_action := "move";
       cp_tool_name := "move_files";
       parameter_mapping := [("file", "source_path"); ("path", "destination_path")];
       cp_examples := ["move photos to pictures folder"] |};
    {| pattern := "take screenshot"; cp_intent := "system"; cp_action := "screenshot";
       cp_tool_name := "take_screenshot";
       parameter_mapping := [];
       cp_examples := ["take screenshot"; "capture screen"] |};
    {| pattern := "check system"; cp_intent := "system"; cp_action := "monitor";
       cp_tool_name := "get_system_information";
       parameter_mapping := [];
       cp_examples := ["check system status"; "monitor system"] |};
    {| pattern := "search for {text}"; cp_intent := "web"; cp_action := "search";
       cp_tool_name := "search_web";
       parameter_mapping := [("text", "query")];
       cp_examples := ["search for python tutorials"] |};
    {| pattern := "browse {text}"; cp_intent := "web"; cp_action := "navigate";
       cp_tool_name := "navigate_to_website";
       parameter_mapping := [("text", "url")];
       cp_examples := ["browse github.com"] |} ].

(** The state of a [CommandParser]. *)
Record CommandParser : Type := {
  patterns : list CommandPattern;
  command_history : list ParsedCommand;
  context : dict
}.

(** [CommandParser.__init__] *)
Definition new_parser : CommandParser :=
  {| patterns := builtin_patterns; command_history := []; context := [] |}.


(** [update_context] *)
Definition update_context (cp : CommandParser) (key : string) (value : pyval)
  : CommandParser :=
  {| patterns := patterns cp; command_history := command_history cp;
     context := sset (context cp) key value |}.

(** The slice [l[start:]] of a list, for any integer [start]. *)
Definition slice_from {A} (l : list A) (start : Z) : list A :=
  let n := Z.of_nat (length l) in
  let i := if (start <? 0)%Z then Z.max 0 (start + n) else Z.min start n in
  skipn (Z.to_nat i) l.

(** [get_command_history] *)
Definition get_command_history (cp : CommandParser) (limit : Z) : list ParsedCommand :=
  slice_from (command_history cp) (- limit).

(** [remember_command] *)
Definition remember_command (cp : CommandParser) (parsed_command : ParsedCommand)
  : CommandParser :=
  let history := (command_history cp ++ [parsed_command])%list in
  {| patterns := patterns cp;
     command_history := if 100 <? length history then slice_from history (-50) else history;
     context := context cp |}.

End CommandParserM.

(* ================================================================== *)
(** ** [core/plugin_manager.py] *)

Module PluginManagerM.
Import PyStr Py BaseToolM.
Local Open Scope string_scope.
Local Open Scope nat_scope.

Section Loader.
Variable W : Type.

(** A concrete subclass of [BaseTool] found among the members of a
    module: [cls_module] is [None] for a class the module defines itself
    and names the defining module for a class it imported.  Calling the
    class runs [BaseTool.__init__]: [get_metadata] (which may raise, as
    may the construction of an abstract class) and [_validate_metadata]. *)
Record ToolClass : Type := {
  cls_name : string;
  cls_module : option string;
  get_metadata : res ToolMetadata;
  cls_execute : dict -> W -> Z -> res ToolResult * W * Z
}.

(** [obj()] for a class found in the module [module_name] *)
Definition instantiate (module_name : string) (c : ToolClass) : res (BaseTool W) :=
  md <- get_metadata c ;;
  _ <- _validate_metadata md ;;
  Ok {| metadata := md;
        tool_module := match cls_module c with
                       | Some m => m
                       | None => module_name
                       end;
        execute := cls_execute c |}.

(** A Python file as the loader sees it: its path, name and stem, the
    text of [id(file_path)], and what importing it gives: an exception,
    or the subclasses of [BaseTool] among its members, in the order of
    [inspect.getmembers]. *)
Record PyFile : Type := {
  file_path : string;
  file_name : string;
  stem : string;
  path_id : string;
  exec_module : res (list ToolClass)
}.

(** A directory below the plugins directory. *)
Record PluginDir : Type := {
  dir_path : string;
  dir_name : string;
  dir_is_dir : bool;
  manifest : option (res dict);
  init_file : option PyFile;
  main_file : option PyFile;
  py_files : list PyFile
}.

Record FS : Type := {
  tools_dir : option (list PyFile);
  plugins_dir : option (list PluginDir);
  file_at : string -> option PyFile;
  dir_at : string -> option PluginDir
}.

(** The state of a [PluginManager]: the registry it fills, the loaded
    modules by file path, and the messages sent to [logger.error]. *)
Record PluginManager : Type := {
  registry : ToolRegistry W;
  loaded_modules : list (string * string);
  error_log : list string
}.

Definition new_manager : PluginManager :=
  {| registry := empty_registry W; loaded_modules := []; error_log := [] |}.

Definition log_error (pm : PluginManager) (msg : string) : PluginManager :=
  {| registry := registry pm; loaded_modules := loaded_modules pm;
     error_log := (error_log pm ++ [msg])%list |}.

Definition module_name_of (f : PyFile) : string :=
  "desktop_mcp_plugin_" ++ stem f ++ "_" ++ path_id f.

(** The body of the loop over the classes of a module. *)
Definition load_class (f : PyFile) (acc : PluginManager * list string) (c : ToolClass)
  : PluginManager * list string :=
  let '(pm, tools_loaded) := acc in
  match instantiate (module_name_of f) c with
  | Ok tool_instance =>
      ({| registry := register (registry pm) tool_instance;
          loaded_modules := loaded_modules pm; error_log := error_log pm |},
       (tools_loaded ++ [md_name (metadata tool_instance)])%list)
  | Raise e =>
      (log_error pm ("Failed to instantiate tool " ++ cls_name c ++ " from " ++
                     file_path f ++ ": " ++ e),
       tools_loaded)
  end.

(** [_load_tools_from_file] *)
Definition _load_tools_from_file (pm : PluginManager) (f : PyFile)
  : res (list string) * PluginManager :=
  match exec_module f with
  | Raise e =>
      (Raise e, log_error pm ("Failed to load module from " ++ file_path f ++ ": " ++ e))
  | Ok classes =>
      let pm1 := {| registry := registry pm;
                    loaded_modules := sset (loaded_modules pm) (file_path f)
                                           (module_name_of f);
                    error_log := error_log pm |} in
      let '(pm2, tools_loaded) := fold_left (load_class f) classes (pm1, []) in
      (Ok tools_loaded, pm2)
  end.

Record LoadResult : Type := {
  loaded : nat;
  lr_tools : list string;
  lr_errors : list string
}.

Definition load_file_step (acc : LoadResult * PluginManager) (f : PyFile)
  : LoadResult * PluginManager :=
  let '(results, pm) := acc in
  match _load_tools_from_file pm f with
  | (Ok tools, pm') =>
      ({| loaded := loaded results + length tools;
          lr_tools := (lr_tools results ++ tools)%list;
          lr_errors := lr_errors results |}, pm')
  | (Raise e, pm') =>
      let error_msg := "Failed to load tools from " ++ file_path f ++ ": " ++ e in
      ({| loaded := loaded results; lr_tools := lr_tools results;
          lr_errors := (lr_errors results ++ [error_msg])%list |},
       log_error pm' error_msg)
  end.

(** [_load_tools_from_directory] *)
Definition _load_tools_from_directory (pm : PluginManager) (directory : option (list PyFile))
  : LoadResult * PluginManager :=
  let results := {| loaded := 0; lr_tools := []; lr_errors := [] |} in
  match directory with
  | None => (results, pm)
  | Some files =>
      let python_files := filter (fun f => negb (startswith "__" (file_name f))) files in
      fold_left load_file_step python_files (results, pm)
  end.

Record PluginInfo : Type := {
  pi_name : string;
  pi_directory : string;
  tools_count : nat;
  pi_metadata : dict
}.

(** [_load_plugin_from_directory] *)
Definition _load_plugin_from_directory (pm : PluginManager) (d : PluginDir)
  : res (option PluginInfo) * PluginManager :=
  let metadata := match manifest d with
                  | Some (Ok j) => j
                  | _ => []
                  end in
  let main := match init_file d with
              | Some f => Some f
              | None =>
                  match main_file d with
                  | Some f => Some f
                  | None => hd_error (py_files d)
                  end
              end in
  match main with
  | None => (Ok None, pm)
  | Some f =>
      match _load_tools_from_file pm f with
      | (Ok tools, pm') =>
          match tools with
          | [] => (Ok None, pm')
          | _ => (Ok (Some {| pi_name := dir_name d; pi_directory := dir_path d;
                              tools_count := length tools; pi_metadata := metadata |}),
                  pm')
          end
      | (Raise e, pm') =>
          (Raise e, log_error pm' ("Failed to load tools from plugin " ++ dir_path d ++
                                   ": " ++ e))
      end
  end.

Record PluginsResult : Type := {
  pr_loaded : nat;
  pr_plugins : list PluginInfo;
  pr_errors : list string
}.

Definition load_plugin_step (acc : PluginsResult * PluginManager) (d : PluginDir)
  : PluginsResult * PluginManager :=
  let '(results, pm) := acc in
  if negb (dir_is_dir d) || startswith "." (dir_name d) then acc
  else
    match _load_plugin_from_directory pm d with
    | (Ok (Some plugin_info), pm') =>
        ({| pr_loaded := pr_loaded results + tools_count plugin_info;
            pr_plugins := (pr_plugins results ++ [plugin_info])%list;
            pr_errors := pr_errors results |}, pm')
    | (Ok None, pm') => (results, pm')
    | (Raise e, pm') =>
        let error_msg := "Failed to load plugin from " ++ dir_path d ++ ": " ++ e in
        ({| pr_loaded := pr_loaded results; pr_plugins := pr_plugins results;
            pr_errors := (pr_errors results ++ [error_msg])%list |},
         log_error pm' error_msg)
    end.

(** [_load_plugins_from_directory] *)
Definition _load_plugins_from_directory (pm : PluginManager)
           (directory : option (list PluginDir)) : PluginsResult * PluginManager :=
  let results := {| pr_loaded := 0; pr_plugins := []; pr_errors := [] |} in
  match directory with
  | None => (results, pm)
  | Some dirs => fold_left load_plugin_step dirs (results, pm)
  end.

Record Discovery : Type := {
  tools_loaded : nat;
  plugins_loaded : nat;
  errors : list string;
  d_tools : list string;
  d_plugins : list PluginInfo
}.

(** [discover_and_load_all] *)
Definition discover_and_load_all (pm : PluginManager) (fs : FS)
  : Discovery * PluginManager :=
  let '(tools_result, pm1) := _load_tools_from_directory pm (tools_dir fs) in
  let '(plugins_result, pm2) := _load_plugins_from_directory pm1 (plugins_dir fs) in
  ({| tools_loaded := loaded tools_result;
      plugins_loaded := pr_loaded plugins_result;
      errors := (lr_errors tools_result ++ pr_errors plugins_result)%list;
      d_tools := lr_tools tools_result;
      d_plugins := pr_plugins plugins_result |}, pm2).

Record Reload : Type := {
  r_success : bool;
  tools_reloaded : nat;
  r_error : option string
}.

(** The names registered from the module [old_module], and the registry
    map with them deleted. *)
Definition tools_to_remove (reg : ToolRegistry W) (old_module : string) : list string :=
  map fst (filter (fun kt => String.eqb (tool_module (snd kt)) old_module) (tools reg)).

Definition remove_old_tools (pm : PluginManager) (path : string) : PluginManager :=
  match sget (loaded_modules pm) path with
  | Some old_module =>
      {| registry :=
           {| tools := fold_left (fun ts n => sdel ts n)
                                 (tools_to_remove (registry pm) old_module)
                                 (tools (registry pm));
              categories := categories (registry pm) |};
         loaded_modules := sdel (loaded_modules pm) path;
         error_log := error_log pm |}
  | None => pm
  end.

(** [reload_plugin] *)
Definition reload_plugin (pm : PluginManager) (fs : FS) (plugin_path : string)
  : Reload * PluginManager :=
  let pm1 := remove_old_tools pm plugin_path in
  let failure e pm' :=
    let error_msg := "Failed to reload plugin " ++ plugin_path ++ ": " ++ e in
    ({| r_success := false; tools_reloaded := 0; r_error := Some error_msg |},
     log_error pm' error_msg) in
  match file_at fs plugin_path with
  | Some f =>
      match _load_tools_from_file pm1 f with
      | (Ok tools, pm2) =>
          ({| r_success := true; tools_reloaded := length tools; r_error := None |}, pm2)
      | (Raise e, pm2) => failure e pm2
      end
  | None =>
      match dir_at fs plugin_path with
      | Some d =>
          match _load_plugin_from_directory pm1 d with
          | (Ok (Some plugin_info), pm2) =>
              ({| r_success := true; tools_reloaded := tools_count plugin_info;
                  r_error := None |}, pm2)
          | (Ok None, pm2) =>
              ({| r_success := true; tools_reloaded := 0; r_error := None |}, pm2)
          | (Raise e, pm2) => failure e pm2
          end
      | None => failure ("Plugin path not found: " ++ plugin_path) pm1
      end
  end.
End Loader.

End PluginManagerM.

(* ================================================================== *)
(** ** [fuzzywuzzy] for concrete runs

    The parser takes its similarity scores from an optional library, and
    every statement about the parser holds for any scorer.  The concrete
    runs use the one below: [fuzzywuzzy] 0.18 over [difflib], the
    matcher it falls back on when [python-Levenshtein] is not installed
    (the parser imports [fuzzywuzzy] alone).  Ratios are kept as exact
    fractions where Python has floats; [round] is to the nearest integer,
    halves to the even one. *)

Module Similarity.
Import PyStr CommandParserM.
Local Open Scope nat_scope.

(** *** [difflib.SequenceMatcher]

    As [fuzzywuzzy] calls it: no [isjunk], and strings shorter than the
    200 elements from which [autojunk] sets in. *)

Definition block : Type := nat * nat * nat.
Definition size (b : block) : nat := snd b.

(** For one element [x] of [a], the lengths of the matches that end at
    [x] and at each element of [b]: [newj2len]. *)
Fixpoint ending_at (x : ascii) (b : list ascii) (j2len : list nat) (before : nat)
  : list nat :=
  match b, j2len with
  | y :: b', k :: j2len' =>
      (if Ascii.eqb x y then S before else 0) :: ending_at x b' j2len' k
  | _, _ => []
  end.

(** The matches ending at position [i] of [a], in the order of [b]: a
    longer one replaces the best so far. *)
Fixpoint improve (i j : nat) (row : list nat) (best : block) : block :=
  match row with
  | [] => best
  | k :: row' =>
      improve i (S j) row' (if size best <? k then (S i - k, S j - k, k) else best)
  end.

Fixpoint longest_from (a b : list ascii) (i : nat) (j2len : list nat) (best : block)
  : block :=
  match a with
  | [] => best
  | x :: a' =>
      let row := ending_at x b j2len 0 in
      longest_from a' b (S i) row (improve i 0 row best)
  end.

(** [find_longest_match]: the longest block common to [a] and [b]; of
    several, the one that starts earliest in [a], and of those the one
    that starts earliest in [b]. *)
Definition find_longest_match (a b : list ascii) : block :=
  longest_from a b 0 (repeat 0 (length b)) (0, 0, 0).

(** The blocks found by matching the longest block, then what lies to
    its left, then what lies to its right; [alo] and [blo] are the
    positions of [a] and [b] in the whole strings. *)
Fixpoint blocks_within (fuel : nat) (a b : list ascii) (alo blo : nat) : list block :=
  match fuel with
  | O => []
  | S fuel' =>
      let '(i, j, k) := find_longest_match a b in
      if k =? 0 then []
      else (blocks_within fuel' (firstn i a) (firstn j b) alo blo ++
            (alo + i, blo + j, k) ::
            blocks_within fuel' (skipn (i + k) a) (skipn (j + k) b)
                          (alo + i + k) (blo + j + k))%list
  end.

(** Adjacent blocks become one. *)
Fixpoint collapse (cur : block) (l : list block) : list block :=
  let '(i1, j1, k1) := cur in
  match l with
  | [] => if k1 =? 0 then [] else [cur]
  | (i2, j2, k2) :: l' =>
      if (i1 + k1 =? i2) && (j1 + k1 =? j2) then collapse (i1, j1, k1 + k2) l'
      else ((if k1 =? 0 then [] else [cur]) ++ collapse (i2, j2, k2) l')%list
  end.

(** [get_matching_blocks]: every pass of [blocks_within] takes at least
    one element of [a] away. *)
Definition get_matching_blocks (a b : list ascii) : list block :=
  (collapse (0, 0, 0) (blocks_within (S (length a)) a b 0 0) ++
   [(length a, length b, 0)])%list.

(** [n / d] rounded to the nearest integer, halves to the even one. *)
Definition round_div (n d : nat) : nat :=
  let q := n / d in
  let r := n mod d in
  if d <? 2 * r then S q
  else if 2 * r <? d then q
  else if Nat.even q then q else S q.

(** [intr(100 * SequenceMatcher(None, a, b).ratio())] *)
Definition matcher_ratio (a b : string) : nat :=
  let la := list_ascii_of_string a in
  let lb := list_ascii_of_string b in
  let matches := fold_left (fun n blk => n + size blk) (get_matching_blocks la lb) 0 in
  if length la + length lb =? 0 then 100
  else round_div (200 * matches) (length la + length lb).

(** *** [fuzzywuzzy.fuzz] *)

Definition is_empty (s : string) : bool :=
  match s with
  | EmptyString => true
  | String _ _ => false
  end.

(** [check_for_equivalence], then [check_empty_string]. *)
Definition checked (f : string -> string -> nat) (s1 s2 : string) : nat :=
  if String.eqb s1 s2 then 100
  else if is_empty s1 || is_empty s2 then 0
  else f s1 s2.

(** [fuzz.ratio] *)
Definition fuzz_ratio : string -> string -> nat := checked matcher_ratio.

(** [fuzz.partial_ratio]: the shorter string against the stretch of the
    longer one that each matching block points at.  A ratio above 0.995
    makes the score 100, which is also what it rounds to. *)
Definition fuzz_partial_ratio : string -> string -> nat :=
  checked (fun s1 s2 =>
    let '(shorter, longer) :=
      if String.length s1 <=? String.length s2 then (s1, s2) else (s2, s1) in
    let blocks := get_matching_blocks (list_ascii_of_string shorter)
                                      (list_ascii_of_string longer) in
    fold_left Nat.max
              (map (fun blk : block =>
                      let '(i, j, _) := blk in
                      let long_start := j - i in
                      matcher_ratio shorter
                                    (substring long_start (String.length shorter) longer))
                   blocks) 0).

(** [asciidammit]: the characters from U+0080 to U+00FF are removed. *)
Fixpoint ascii_only (s : string) : string :=
  match s with
  | EmptyString => EmptyString
  | String c s' => if code c <? 128 then String c (ascii_only s') else ascii_only s'
  end.

(** A character outside [\w] becomes a blank. *)
Fixpoint blank_punct (s : string) : string :=
  match s with
  | EmptyString => EmptyString
  | String c s' => String (if is_word c then c else " "%char) (blank_punct s')
  end.

(** [utils.full_process] *)
Definition full_process (s : string) : string :=
  strip (lower (blank_punct (ascii_only s))).

(** [s.split()], with [cur] the token being read. *)
Fixpoint split_from (cur : string) (s : string) : list string :=
  match s with
  | EmptyString => if is_empty cur then [] else [cur]
  | String c s' =>
      if is_space c
      then (if is_empty cur then split_from EmptyString s'
            else cur :: split_from EmptyString s')
      else split_from (cur ++ String c EmptyString) s'
  end.
Definition split (s : string) : list string := split_from EmptyString s.

Fixpoint insert_sorted (x : string) (l : list string) : list string :=
  match l with
  | [] => [x]
  | y :: l' => if String.leb x y then x :: l else y :: insert_sorted x l'
  end.
(** [sorted(tokens)] *)
Definition sorted (l : list string) : list string := fold_right insert_sorted [] l.

Definition str_in (x : string) (l : list string) : bool := existsb (String.eqb x) l.

(** [set(tokens)], its elements listed once. *)
Fixpoint distinct (l : list string) : list string :=
  match l with
  | [] => []
  | x :: l' => if str_in x l' then distinct l' else x :: distinct l'
  end.

Definition join (l : list string) : string := String.concat " " l.

(** [_token_sort] without processing *)
Definition token_sort (partial : bool) (s1 s2 : string) : nat :=
  let sorted1 := strip (join (sorted (split s1))) in
  let sorted2 := strip (join (sorted (split s2))) in
  if partial then fuzz_partial_ratio sorted1 sorted2 else fuzz_ratio sorted1 sorted2.

(** [_token_set] without processing *)
Definition token_set (partial : bool) (s1 s2 : string) : nat :=
  if String.eqb s1 s2 then 100
  else if is_empty s1 || is_empty s2 then 0
  else
    let tokens1 := distinct (split s1) in
    let tokens2 := distinct (split s2) in
    let intersection := filter (fun t => str_in t tokens2) tokens1 in
    let diff1to2 := filter (fun t => negb (str_in t tokens2)) tokens1 in
    let diff2to1 := filter (fun t => negb (str_in t tokens1)) tokens2 in
    let sorted_sect := join (sorted intersection) in
    let combined_1to2 := strip (sorted_sect ++ " " ++ join (sorted diff1to2)) in
    let combined_2to1 := strip (sorted_sect ++ " " ++ join (sorted diff2to1)) in
    let sorted_sect := strip sorted_sect in
    let ratio_func := if partial then fuzz_partial_ratio else fuzz_ratio in
    Nat.max (ratio_func sorted_sect combined_1to2)
            (Nat.max (ratio_func sorted_sect combined_2to1)
                     (ratio_func combined_1to2 combined_2to1)).

(** [intr] of a score given in thousandths. *)
Definition intr_thousandths (n : N) : nat :=
  let q := (n / 1000)%N in
  let r := (n mod 1000)%N in
  N.to_nat (if (500 <? r)%N then N.succ q
            else if (r <? 500)%N then q
            else if N.even q then q else N.succ q).

Definition scaled (scale : N) (score : nat) : N := (scale * N.of_nat score)%N.

(** [fuzz.WRatio] without processing.  The scores are compared in
    thousandths: [unbase_scale] is 0.95 and [partial_scale] 0.9, or 0.6
    for lengths more than eight times apart. *)
Definition WRatio (p1 p2 : string) : nat :=
  if is_empty p1 || is_empty p2 then 0
  else
    let base := fuzz_ratio p1 p2 in
    let longest := Nat.max (String.length p1) (String.length p2) in
    let shortest := Nat.min (String.length p1) (String.length p2) in
    if 2 * longest <? 3 * shortest
    then
      let tsor := token_sort false p1 p2 in
      let tser := token_set false p1 p2 in
      intr_thousandths (N.max (scaled 1000 base)
                              (N.max (scaled 950 tsor) (scaled 950 tser)))
    else
      let '(partial_scale, both_scales) :=
        if 8 * shortest <? longest then (600, 570)%N else (900, 855)%N in
      let partial := fuzz_partial_ratio p1 p2 in
      let ptsor := token_sort true p1 p2 in
      let ptser := token_set true p1 p2 in
      intr_thousandths (N.max (scaled 1000 base)
                              (N.max (scaled partial_scale partial)
                                     (N.max (scaled both_scales ptsor)
                                            (scaled both_scales ptser)))).

(** The score [process.extract] gives a choice: with its default
    processor and scorer, query and choice go through [full_process]
    (the query twice) and then to [WRatio]. *)
Definition extract_score_of (query choice : string) : nat :=
  WRatio (full_process (full_process query)) (full_process choice).

Definition reference : Fuzzy :=
  {| ratio := fuzz_ratio;
     partial_ratio := fuzz_partial_ratio;
     extract_score := extract_score_of |}.

End Similarity.

(* ================================================================== *)
(** ** [core/app.py]: running a command *)

Module AppM.
Import PyStr Py BaseToolM CommandParserM.
Local Open Scope string_scope.
Local Open Scope nat_scope.

Section App.
Variable W : Type.
Variable h : Host.
Variable libs : Libs.
(** the global [tool_registry] *)
Variable reg : ToolRegistry W.
(** [datetime.now().strftime(...)] for a reading of the clock *)
Variable stamp : Z -> string.

(** An entry of [execution_history]. *)
Record ExecutionRecord : Type := {
  er_execution_id : string;
  er_timestamp : Z;
  er_source : string;
  er_original_command : string;
  er_parsed_command : ParsedCommand;
  er_tool_name : string;
  er_parameters : dict;
  er_result : ToolResult;
  er_success : bool
}.

(** The dictionary [execute_command] returns; a key that is not set is
    [None]. *)
Record Reply : Type := {
  rp_success : bool;
  rp_execution_id : string;
  rp_error : option string;
  rp_suggestions : option (list string);
  rp_result : option ToolResult;
  rp_parsed_command : option ParsedCommand
}.

Record App : Type := {
  command_parser : CommandParser;
  execution_history : list ExecutionRecord
}.

Definition refusal (execution_id error : string) (suggestions : option (list string))
           (parsed : option ParsedCommand) : Reply :=
  {| rp_success := false; rp_execution_id := execution_id; rp_error := Some error;
     rp_suggestions := suggestions; rp_result := None; rp_parsed_command := parsed |}.

(** [x or []] and [x or {}] *)
Definition or_empty {A} (o : option (list A)) : list A :=
  match o with
  | Some l => l
  | None => []
  end.

(** [DesktopMCPApp.execute_command] *)
Definition execute_command (app : App) (command source : string) (st : State W)
  : Reply * App * State W :=
  let execution_id := "cmd_" ++ stamp (now st) in
  match parse_command libs reg (patterns (command_parser app)) command with
  | Raise e =>
      (refusal execution_id ("Command execution failed: " ++ e) None None, app, st)
  | Ok parsed_command =>
      if confidence parsed_command <? 30 then
        (refusal execution_id "Could not understand command"
                 (Some (or_empty (alternatives parsed_command))) (Some parsed_command),
         app, st)
      else
        match tool_name parsed_command with
        | Some (String a n) =>
            match get_tool reg (String a n) with
            | Some tool =>
                let parameters := or_empty (CommandParserM.parameters parsed_command) in
                match safe_execute h tool parameters st with
                | (Ok result, st') =>
                    let execution_record :=
                      {| er_execution_id := execution_id;
                         er_timestamp := now st';
                         er_source := source;
                         er_original_command := command;
                         er_parsed_command := parsed_command;
                         er_tool_name := String a n;
                         er_parameters := parameters;
                         er_result := result;
                         er_success := success result |} in
                    ({| rp_success := success result; rp_execution_id := execution_id;
                        rp_error := None; rp_suggestions := None;
                        rp_result := Some result;
                        rp_parsed_command := Some parsed_command |},
                     {| command_parser :=
                          if success result
                          then remember_command (command_parser app) parsed_command
                          else command_parser app;
                        execution_history :=
                          (execution_history app ++ [execution_record])%list |},
                     st')
                | (Raise e, st') =>
                    (refusal execution_id ("Command execution failed: " ++ e) None None,
                     app, st')
                end
            | None =>
                (refusal execution_id ("Tool not found: " ++ String a n) None
                         (Some parsed_command), app, st)
            end
        | _ =>
            (refusal execution_id "No tool identified for command" None
                     (Some parsed_command), app, st)
        end
  end.

(** [get_execution_history] *)
Definition get_execution_history (app : App) (limit : Z) : list ExecutionRecord :=
  slice_from (execution_history app) (- limit).
End App.

End AppM.

(* ================================================================== *)
(** ** [utils/config.py]: merging configurations *)

Module ConfigM.
Import Py.

(** [_merge_configs(default, user)] for a [user] dictionary given as the
    value [PDict user]; any other value leaves [default] as it is. *)
Fixpoint merge_value (default : dict) (user : pyval) {struct user} : dict :=
  match user with
  | PDict items =>
      (fix each (items : list (string * pyval)) (merged : dict) {struct items} : dict :=
         match items with
         | [] => merged
         | (key, value) :: rest =>
             each rest
                  match sget merged key, value with
                  | Some (PDict inner), PDict _ =>
                      sset merged key (PDict (merge_value inner value))
                  | _, _ => sset merged key value
                  end
         end) items default
  | _ => default
  end.

(** [ConfigManager._merge_configs] *)
Definition _merge_configs (default user : dict) : dict := merge_value default (PDict user).

End ConfigM.

(* ================================================================== *)
(** * Properties *)

(** ** The command history *)

Module HistoryProps.
Import Py CommandParserM.
Local Open Scope nat_scope.

Lemma slice_from_last (A : Type) (l : list A) (k : nat) :
  1 <= k -> slice_from l (- Z.of_nat k) = skipn (length l - k) l.
Proof.
  intros Hk. unfold slice_from.
  destruct (Z.ltb_spec (- Z.of_nat k) 0) as [_ | Hge]; [ | lia ].
  f_equal. lia.
Qed.

Lemma slice_from_zero (A : Type) (l : list A) : slice_from l 0 = l.
Proof.
  unfold slice_from. simpl.
  replace (Z.to_nat (Z.min 0 (Z.of_nat (length l)))) with 0 by lia.
  reflexivity.
Qed.

Lemma skipn_snoc (A : Type) (l : list A) (x : A) (n : nat) :
  n <= length l -> skipn n (l ++ [x]) = skipn n l ++ [x].
Proof.
  intros Hn. rewrite skipn_app.
  replace (n - length l) with 0 by lia. reflexivity.
Qed.

Lemma remember_history (cp : CommandParser) (c : ParsedCommand) :
  command_history (remember_command cp c) =
  if 100 <? length (command_history cp ++ [c])
  then skipn (length (command_history cp ++ [c]) - 50) (command_history cp ++ [c])
  else command_history cp ++ [c].
Proof.
  unfold remember_command; simpl.
  destruct (100 <? length (command_history cp ++ [c])); [ | reflexivity ].
  apply (slice_from_last (command_history cp ++ [c]) (k := 50)). lia.
Qed.

Lemma remember_keeps_bound (cp : CommandParser) (c : ParsedCommand) :
  length (command_history cp) <= 100 ->
  length (command_history (remember_command cp c)) <= 100.
Proof.
  intros Hb. rewrite remember_history.
  destruct (Nat.ltb_spec 100 (length (command_history cp ++ [c]))) as [Hgt | Hle].
  - rewrite length_skipn, length_app in *. simpl in *. lia.
  - exact Hle.
Qed.

Lemma remember_all_bound (cs : list ParsedCommand) (cp : CommandParser) :
  length (command_history cp) <= 100 ->
  length (command_history (fold_left remember_command cs cp)) <= 100.
Proof.
  revert cp. induction cs as [ | c cs IH]; intros cp Hb; simpl.
  - exact Hb.
  - apply IH, remember_keeps_bound, Hb.
Qed.

(** C7.  Starting from a fresh parser the history never holds more than
    100 commands.  Every call of [remember_command] leaves the new command
    last and keeps the retained ones in their order (the new history is a
    suffix of the old one with the command appended); below the cap
    nothing is dropped, and the call made with 100 commands stored leaves
    exactly the 50 most recent of the 101. *)
Theorem remember_command_bounded :
  (forall cs : list ParsedCommand,
      length (command_history (fold_left remember_command cs new_parser)) <= 100) /\
  (forall (cp : CommandParser) (c : ParsedCommand),
      let h := command_history cp in
      let h' := command_history (remember_command cp c) in
      (exists older, h' = older ++ [c]) /\
      (exists dropped, h ++ [c] = dropped ++ h') /\
      (length h < 100 -> h' = h ++ [c]) /\
      (length h = 100 -> h' = skipn 51 (h ++ [c]) /\ length h' = 50) /\
      (length h <= 100 -> length h' <= 100)).
Proof.
  split.
  - intros cs. apply remember_all_bound. simpl. lia.
  - intros cp c h h'. subst h h'. rewrite remember_history.
    destruct (Nat.ltb_spec 100 (length (command_history cp ++ [c]))) as [Hgt | Hle];
      rewrite length_app in *; simpl in *.
    + split; [ | split; [ | split; [ | split ] ] ].
      * exists (skipn (length (command_history cp) + 1 - 50) (command_history cp)).
        apply skipn_snoc. lia.
      * exists (firstn (length (command_history cp) + 1 - 50) (command_history cp ++ [c])).
        symmetry. apply firstn_skipn.
      * intros Hlt. lia.
      * intros Heq. rewrite Heq. split; [ reflexivity | ].
        rewrite length_skipn, length_app. simpl. lia.
      * intros _. rewrite length_skipn, length_app. simpl. lia.
    + split; [ | split; [ | split; [ | split ] ] ].
      * exists (command_history cp). reflexivity.
      * exists []. reflexivity.
      * intros _. reflexivity.
      * intros Heq. lia.
      * intros _. lia.
Qed.

Definition sample_command (n : nat) : ParsedCommand :=
  {| intent := "system"; action := "screenshot"; entities := []; confidence := 90;
     tool_name := Some "take_screenshot"; parameters := Some [("count", PInt (Z.of_nat n))];
     alternatives := None |}.

Definition full_parser : CommandParser :=
  {| patterns := builtin_patterns;
     command_history := map sample_command (seq 0 100);
     context := [] |}.

Lemma remember_command_bounded_witness :
  length (command_history full_parser) = 100 /\
  command_history (remember_command full_parser (sample_command 100)) =
    map sample_command (seq 51 50) /\
  length (command_history (remember_command full_parser (sample_command 100))) = 50.
Proof.
  split; [ reflexivity | ].
  destruct (proj2 remember_command_bounded full_parser (sample_command 100))
    as (_ & _ & _ & Hfull & _).
  destruct (Hfull eq_refl) as [Heq Hlen].
  split; [ rewrite Heq; reflexivity | exact Hlen ].
Defined.

(** C10.  For [limit >= 1], [get_command_history] returns the last
    [min limit (length history)] commands in their stored (oldest-first)
    order; for [limit = 0] it returns the whole history. *)
Theorem get_command_history_recent (cp : CommandParser) :
  (forall limit : Z,
      (1 <= limit)%Z ->
      let h := command_history cp in
      let k := Nat.min (Z.to_nat limit) (length h) in
      get_command_history cp limit = skipn (length h - k) h /\
      length (get_command_history cp limit) = k) /\
  get_command_history cp 0 = command_history cp.
Proof.
  split.
  - intros limit Hl h k. subst h k. unfold get_command_history.
    replace (- limit)%Z with (- Z.of_nat (Z.to_nat limit))%Z by lia.
    rewrite slice_from_last by lia.
    assert (Hsk : length (command_history cp) - Z.to_nat limit =
                  length (command_history cp) -
                  Nat.min (Z.to_nat limit) (length (command_history cp))) by lia.
    rewrite Hsk. split; [ reflexivity | ].
    rewrite length_skipn. lia.
  - unfold get_command_history. apply slice_from_zero.
Qed.

Definition short_parser : CommandParser :=
  {| patterns := builtin_patterns;
     command_history := map sample_command (seq 0 5);
     context := [] |}.

Lemma get_command_history_recent_witness :
  (1 <= 2)%Z /\
  get_command_history short_parser 2 = [sample_command 3; sample_command 4] /\
  get_command_history short_parser 9 = command_history short_parser /\
  get_command_history short_parser 0 = command_history short_parser.
Proof.
  split; [ lia | ].
  destruct (get_command_history_recent short_parser) as [Hpos Hzero].
  split; [ | split ].
  - destruct (Hpos 2%Z) as [Heq _]; [ lia | ]. rewrite Heq. reflexivity.
  - destruct (Hpos 9%Z) as [Heq _]; [ lia | ]. rewrite Heq. reflexivity.
  - exact Hzero.
Defined.

End HistoryProps.

(** ** Parameter validation and [safe_execute] *)

Module BaseToolProps.
Import Py BaseToolM.
Local Open Scope string_scope.

(** C9.  A parameter that is not required accepts [None] whatever its
    type, range, choices, pattern or path constraints are: none of the
    later checks is reached (and none of them can raise). *)
Theorem validate_optional_none (h : Host) (p : ToolParameter) :
  required p = false -> validate h p PNone = Ok (true, None).
Proof.
  intros Hreq. unfold validate. rewrite Hreq. reflexivity.
Qed.

(** A host with an empty file system.  Its [re] is asked about patterns
    with an unclosed group only. *)
Definition bare_host : Host :=
  {| is_file := fun _ => Ok false;
     is_dir := fun _ => Ok false;
     urlparse := fun _ => Ok (EmptyString, EmptyString);
     re_match := fun _ _ => Raise "missing ), unterminated subpattern at position 0";
     fmt := fun _ => "?";
     fmt_set := fun l => String.concat ", " l |}.

(** An optional file parameter carrying every other constraint, with a
    pattern that does not even compile. *)
Definition constrained_optional : ToolParameter :=
  {| name := "target"; type := FILE; description := "file to open";
     required := false; default := PNone;
     choices := Some [PStr "a.txt"; PStr "b.txt"];
     min_value := Some (PInt 1); max_value := Some (PInt 2);
     pattern := Some "(" |}.

Lemma validate_optional_none_witness :
  required constrained_optional = false /\
  validate bare_host constrained_optional PNone = Ok (true, None) /\
  validate bare_host constrained_optional (PStr "c.txt") <> Ok (true, None).
Proof.
  split; [ reflexivity | split ].
  - apply (validate_optional_none bare_host constrained_optional). reflexivity.
  - vm_compute. discriminate.
Defined.

Section SafeExecute.
Variable W : Type.
Variable h : Host.

Lemma validate_each_first (kwargs : dict) (ps1 : list ToolParameter) :
  forall (p : ToolParameter) (ps2 : list ToolParameter) (err : option string),
    Forall (fun q => exists o, validate h q (kwargs_get kwargs (name q)) = Ok (true, o)) ps1 ->
    validate h p (kwargs_get kwargs (name p)) = Ok (false, err) ->
    validate_each h (ps1 ++ p :: ps2) kwargs = Ok (false, err).
Proof.
  induction ps1 as [ | q ps1 IH]; intros p ps2 err Hok Hbad; simpl.
  - rewrite Hbad. reflexivity.
  - inversion Hok as [ | q' l' [o Hq] Hrest]; subst.
    rewrite Hq. simpl. apply IH; assumption.
Qed.

Lemma validate_parameters_first (t : BaseTool W) (kwargs : dict)
      (ps1 : list ToolParameter) (p : ToolParameter) (ps2 : list ToolParameter)
      (err : option string) :
  parameters (metadata t) = (ps1 ++ p :: ps2)%list ->
  Forall (fun q => exists o, validate h q (kwargs_get kwargs (name q)) = Ok (true, o)) ps1 ->
  validate h p (kwargs_get kwargs (name p)) = Ok (false, err) ->
  validate_parameters h t kwargs = Ok (false, err).
Proof.
  intros Hps Hok Hbad. unfold validate_parameters.
  rewrite Hps, (@validate_each_first kwargs ps1 p ps2 err Hok Hbad). reflexivity.
Qed.

Lemma safe_execute_invalid (t : BaseTool W) (kwargs : dict) (st : State W)
      (err : option string) :
  validate_parameters h t kwargs = Ok (false, err) ->
  safe_execute h t kwargs st =
  (Ok (failed "Parameter validation failed" err (now st) st), st).
Proof.
  intros Hv. unfold safe_execute, safe_execute_try. rewrite Hv. reflexivity.
Qed.

Lemma safe_execute_returns (t : BaseTool W) (kwargs : dict) (st : State W) :
  exists r st', safe_execute h t kwargs st = (Ok r, st').
Proof.
  unfold safe_execute.
  destruct (safe_execute_try h t kwargs (now st) st) as [[r | e] st']; eauto.
Qed.

Lemma safe_execute_invoked (t : BaseTool W) (kwargs : dict) (st : State W)
      (r : res ToolResult) (st' : State W) :
  safe_execute h t kwargs st = (r, st') ->
  st' <> st ->
  exists o, validate_parameters h t kwargs = Ok (true, o).
Proof.
  unfold safe_execute, safe_execute_try.
  destruct (validate_parameters h t kwargs) as [[[ | ] o] | e]; simpl.
  - intros _ _. eauto.
  - intros Heq Hne. inversion Heq; subst. congruence.
  - intros Heq Hne. inversion Heq; subst. congruence.
Qed.

Lemma safe_execute_raised (t : BaseTool W) (kwargs : dict) (st : State W)
      (o : option string) (e : string) (w : W) (n : Z) :
  validate_parameters h t kwargs = Ok (true, o) ->
  execute t kwargs (world st) (now st) = (Raise e, w, n) ->
  safe_execute h t kwargs st =
  (Ok {| success := false; message := "Tool execution failed"; data := None;
         error := Some ("Tool execution failed: " ++ e);
         execution_time := n - now st; timestamp := n |},
   {| world := w; now := n;
      invoked := (invoked st ++ [(md_name (metadata t), kwargs)])%list |}).
Proof.
  intros Hv He. unfold safe_execute, safe_execute_try, call_execute.
  rewrite Hv, He. reflexivity.
Qed.

Lemma safe_execute_call_agrees (t : ExitingTool W) (kwargs : dict) (st : State W) :
  shas kwargs "self" = false ->
  exit_of t kwargs (world st) (now st) = None ->
  safe_execute_call h t kwargs st =
  (ending_of (fst (safe_execute h (base_tool t) kwargs st)),
   snd (safe_execute h (base_tool t) kwargs st)).
Proof.
  intros Hself Hexit.
  unfold safe_execute_call, safe_execute, safe_execute_try, execute_call.
  rewrite Hself, Hexit.
  destruct (validate_parameters h (base_tool t) kwargs) as [[[ | ] o] | e];
    try reflexivity.
  destruct (call_execute (base_tool t) kwargs st) as [[r | e] st']; reflexivity.
Qed.

Lemma safe_execute_call_invalid (t : ExitingTool W) (kwargs : dict) (st : State W)
      (err : option string) :
  shas kwargs "self" = false ->
  validate_parameters h (base_tool t) kwargs = Ok (false, err) ->
  safe_execute_call h t kwargs st =
  (Returns (failed "Parameter validation failed" err (now st) st), st).
Proof.
  intros Hself Hv. unfold safe_execute_call. rewrite Hself, Hv. reflexivity.
Qed.

Lemma safe_execute_call_unchecked (t : ExitingTool W) (kwargs : dict) (st : State W)
      (e : string) :
  shas kwargs "self" = false ->
  validate_parameters h (base_tool t) kwargs = Raise e ->
  safe_execute_call h t kwargs st =
  (Returns (failed "Tool execution failed" (Some ("Tool execution failed: " ++ e))
                   (now st) st), st).
Proof.
  intros Hself Hv. unfold safe_execute_call. rewrite Hself, Hv. reflexivity.
Qed.

Lemma safe_execute_call_returns (t : ExitingTool W) (kwargs : dict) (st : State W) :
  shas kwargs "self" = false ->
  (forall o, validate_parameters h (base_tool t) kwargs = Ok (true, o) ->
             exit_of t kwargs (world st) (now st) = None) ->
  exists r st', safe_execute_call h t kwargs st = (Returns r, st').
Proof.
  intros Hself Hstay.
  destruct (validate_parameters h (base_tool t) kwargs) as [[[ | ] o] | e] eqn:Hv.
  - rewrite (@safe_execute_call_agrees t kwargs st Hself (Hstay o eq_refl)).
    destruct (@safe_execute_returns (base_tool t) kwargs st) as (r & st' & Hr).
    rewrite Hr. exists r, st'. reflexivity.
  - rewrite (@safe_execute_call_invalid t kwargs st o Hself Hv). eauto.
  - rewrite (@safe_execute_call_unchecked t kwargs st e Hself Hv). eauto.
Qed.

Lemma safe_execute_call_started (t : ExitingTool W) (kwargs : dict) (st : State W)
      (r : ending ToolResult) (st' : State W) :
  safe_execute_call h t kwargs st = (r, st') ->
  st' <> st ->
  shas kwargs "self" = false /\
  exists o, validate_parameters h (base_tool t) kwargs = Ok (true, o).
Proof.
  unfold safe_execute_call.
  destruct (shas kwargs "self").
  - intros Heq Hne. inversion Heq; subst. congruence.
  - destruct (validate_parameters h (base_tool t) kwargs) as [[[ | ] o] | e].
    + intros _ _. eauto.
    + intros Heq Hne. inversion Heq; subst. congruence.
    + intros Heq Hne. inversion Heq; subst. congruence.
Qed.

Lemma safe_execute_call_raised (t : ExitingTool W) (kwargs : dict) (st : State W)
      (o : option string) (e : string) (w : W) (n : Z) :
  shas kwargs "self" = false ->
  validate_parameters h (base_tool t) kwargs = Ok (true, o) ->
  exit_of t kwargs (world st) (now st) = None ->
  execute (base_tool t) kwargs (world st) (now st) = (Raise e, w, n) ->
  safe_execute_call h t kwargs st =
  (Returns {| success := false; message := "Tool execution failed"; data := None;
              error := Some ("Tool execution failed: " ++ e);
              execution_time := n - now st; timestamp := n |},
   {| world := w; now := n;
      invoked := (invoked st ++ [(md_name (metadata (base_tool t)), kwargs)])%list |}).
Proof.
  intros Hself Hv Hexit He.
  rewrite (@safe_execute_call_agrees t kwargs st Hself Hexit),
          (@safe_execute_raised (base_tool t) kwargs st o e w n Hv He).
  reflexivity.
Qed.

Lemma safe_execute_call_exits (t : ExitingTool W) (kwargs : dict) (st : State W)
      (o : option string) (e : string) (w : W) (n : Z) :
  shas kwargs "self" = false ->
  validate_parameters h (base_tool t) kwargs = Ok (true, o) ->
  exit_of t kwargs (world st) (now st) = Some (e, w, n) ->
  safe_execute_call h t kwargs st =
  (Exits e,
   {| world := w; now := n;
      invoked := (invoked st ++ [(md_name (metadata (base_tool t)), kwargs)])%list |}).
Proof.
  intros Hself Hv Hexit. unfold safe_execute_call, execute_call.
  rewrite Hself, Hv, Hexit. reflexivity.
Qed.

(** C4 (as the code has it).  A call of [safe_execute] returns a
    [ToolResult] when its keyword arguments have no key [self] and
    [execute], if it is reached, does not leave with an exception outside
    [Exception].  When validation fails, the result is the failed one
    carrying the message of the first parameter (in declaration order)
    that does not validate, and the state is untouched: [execute] was not
    started.  The state changes only after a successful validation.  When
    [execute] or the validation raises an [Exception], the result is a
    failed one carrying the text of the exception and the time elapsed
    since the start.  When [execute] leaves with another exception, the
    call leaves with it; with a key [self], the call raises before its
    body is entered. *)
Theorem safe_execute_contained (t : ExitingTool W) (kwargs : dict) (st : State W) :
  (shas kwargs "self" = false ->
   (forall o, validate_parameters h (base_tool t) kwargs = Ok (true, o) ->
              exit_of t kwargs (world st) (now st) = None) ->
   exists r st', safe_execute_call h t kwargs st = (Returns r, st')) /\
  (shas kwargs "self" = false ->
   forall err,
     validate_parameters h (base_tool t) kwargs = Ok (false, err) ->
     safe_execute_call h t kwargs st =
     (Returns {| success := false; message := "Parameter validation failed";
                 data := None; error := err;
                 execution_time := now st - now st; timestamp := now st |}, st)) /\
  (forall ps1 p ps2 err,
      parameters (metadata (base_tool t)) = (ps1 ++ p :: ps2)%list ->
      Forall (fun q => exists o, validate h q (kwargs_get kwargs (name q)) = Ok (true, o)) ps1 ->
      validate h p (kwargs_get kwargs (name p)) = Ok (false, err) ->
      validate_parameters h (base_tool t) kwargs = Ok (false, err)) /\
  (forall r st',
      safe_execute_call h t kwargs st = (r, st') -> st' <> st ->
      shas kwargs "self" = false /\
      exists o, validate_parameters h (base_tool t) kwargs = Ok (true, o)) /\
  (shas kwargs "self" = false ->
   forall o e w n,
     validate_parameters h (base_tool t) kwargs = Ok (true, o) ->
     exit_of t kwargs (world st) (now st) = None ->
     execute (base_tool t) kwargs (world st) (now st) = (Raise e, w, n) ->
     safe_execute_call h t kwargs st =
     (Returns {| success := false; message := "Tool execution failed"; data := None;
                 error := Some ("Tool execution failed: " ++ e);
                 execution_time := n - now st; timestamp := n |},
      {| world := w; now := n;
         invoked := (invoked st ++ [(md_name (metadata (base_tool t)), kwargs)])%list |})) /\
  (shas kwargs "self" = false ->
   forall e,
     validate_parameters h (base_tool t) kwargs = Raise e ->
     safe_execute_call h t kwargs st =
     (Returns {| success := false; message := "Tool execution failed"; data := None;
                 error := Some ("Tool execution failed: " ++ e);
                 execution_time := now st - now st; timestamp := now st |}, st)) /\
  (shas kwargs "self" = false ->
   forall o e w n,
     validate_parameters h (base_tool t) kwargs = Ok (true, o) ->
     exit_of t kwargs (world st) (now st) = Some (e, w, n) ->
     safe_execute_call h t kwargs st =
     (Exits e,
      {| world := w; now := n;
         invoked := (invoked st ++ [(md_name (metadata (base_tool t)), kwargs)])%list |})) /\
  (shas kwargs "self" = true ->
   safe_execute_call h t kwargs st = (Raises self_clash, st)).
Proof.
  split; [ apply safe_execute_call_returns | ].
  split; [ intros Hself err Hv; apply (@safe_execute_call_invalid t kwargs st err Hself Hv) | ].
  split; [ intros ps1 p ps2 err; apply validate_parameters_first | ].
  split; [ intros r st'; apply safe_execute_call_started | ].
  split; [ intros Hself o e w n; apply safe_execute_call_raised; exact Hself | ].
  split; [ intros Hself e Hv; apply (@safe_execute_call_unchecked t kwargs st e Hself Hv) | ].
  split; [ intros Hself o e w n; apply safe_execute_call_exits; exact Hself | ].
  intros Hself. unfold safe_execute_call. rewrite Hself. reflexivity.
Qed.
End SafeExecute.

Definition message_param : ToolParameter :=
  {| name := "message"; type := STRING; description := "Message to process";
     required := true; default := PNone; choices := None;
     min_value := None; max_value := None; pattern := None |}.

Definition count_param : ToolParameter :=
  {| name := "count"; type := INTEGER; description := "How many times";
     required := false; default := PInt 1; choices := None;
     min_value := Some (PInt 1); max_value := Some (PInt 9); pattern := None |}.

Definition notify_metadata : ToolMetadata :=
  {| md_name := "notify"; md_description := "Show a message";
     category := COMMUNICATION; version := "1.0.0"; author := "Desktop MCP";
     keywords := ["notify"]; parameters := [count_param; message_param];
     requirements := []; platforms := ["windows"; "linux"; "darwin"];
     min_python_version := "3.10"; icon := None; documentation_url := None;
     examples := [] |}.

(** A tool whose [execute] takes five ticks, counts its run in the world
    and then raises. *)
Definition broken_notify : BaseTool nat :=
  {| metadata := notify_metadata; tool_module := "desktop_mcp_plugin_notify_1";
     execute := fun _ w t => (Raise "display not found", S w, (t + 5)%Z) |}.

(** The same tool, interrupted from the keyboard two ticks into every run
    for more than nine messages, before it can raise. *)
Definition interrupted_notify : ExitingTool nat :=
  {| base_tool := broken_notify;
     exit_of := fun kwargs w t =>
                  match sget kwargs "count" with
                  | Some (PInt 9) => Some ("KeyboardInterrupt", S w, (t + 2)%Z)
                  | _ => None
                  end |}.

Definition idle : State nat := {| world := 0; now := 100%Z; invoked := [] |}.

Lemma safe_execute_contained_witness :
  (validate_parameters bare_host broken_notify [("count", PInt 3)] =
     Ok (false, Some "Parameter 'message' is required") /\
   safe_execute_call bare_host interrupted_notify [("count", PInt 3)] idle =
     (Returns {| success := false; message := "Parameter validation failed";
                 data := None; error := Some "Parameter 'message' is required";
                 execution_time := 0%Z; timestamp := 100%Z |}, idle)) /\
  (validate_parameters bare_host broken_notify [("message", PStr "hi")] = Ok (true, None) /\
   safe_execute_call bare_host interrupted_notify [("message", PStr "hi")] idle =
     (Returns {| success := false; message := "Tool execution failed"; data := None;
                 error := Some "Tool execution failed: display not found";
                 execution_time := 5%Z; timestamp := 105%Z |},
      {| world := 1; now := 105%Z;
         invoked := [("notify", [("message", PStr "hi")])] |})) /\
  (validate_parameters bare_host broken_notify [("count", PInt 9); ("message", PStr "hi")] =
     Ok (true, None) /\
   safe_execute_call bare_host interrupted_notify
                     [("count", PInt 9); ("message", PStr "hi")] idle =
     (Exits "KeyboardInterrupt",
      {| world := 1; now := 102%Z;
         invoked := [("notify", [("count", PInt 9); ("message", PStr "hi")])] |})) /\
  safe_execute_call bare_host interrupted_notify
                    [("self", PStr "notify"); ("message", PStr "hi")] idle =
    (Raises "BaseTool.safe_execute() got multiple values for argument 'self'", idle).
Proof.
  split; [ | split; [ | split ] ].
  - assert (Hv : validate_parameters bare_host broken_notify [("count", PInt 3)] =
                 Ok (false, Some "Parameter 'message' is required")) by reflexivity.
    split; [ exact Hv | ].
    destruct (@safe_execute_contained nat bare_host interrupted_notify
                                      [("count", PInt 3)] idle)
      as (_ & Hinvalid & _).
    exact (Hinvalid eq_refl _ Hv).
  - assert (Hv : validate_parameters bare_host broken_notify [("message", PStr "hi")] =
                 Ok (true, None)) by reflexivity.
    split; [ exact Hv | ].
    destruct (@safe_execute_contained nat bare_host interrupted_notify
                                      [("message", PStr "hi")] idle)
      as (_ & _ & _ & _ & Hraise & _).
    exact (Hraise eq_refl None "display not found" 1 105%Z Hv eq_refl eq_refl).
  - assert (Hv : validate_parameters bare_host broken_notify
                                     [("count", PInt 9); ("message", PStr "hi")] =
                 Ok (true, None)) by reflexivity.
    split; [ exact Hv | ].
    destruct (@safe_execute_contained nat bare_host interrupted_notify
                                      [("count", PInt 9); ("message", PStr "hi")] idle)
      as (_ & _ & _ & _ & _ & _ & Hexit & _).
    exact (Hexit eq_refl None "KeyboardInterrupt" 1 102%Z Hv eq_refl).
  - destruct (@safe_execute_contained nat bare_host interrupted_notify
                                      [("self", PStr "notify"); ("message", PStr "hi")] idle)
      as (_ & _ & _ & _ & _ & _ & _ & Hself).
    exact (Hself eq_refl).
Defined.

(** C4 as stated fails: [safe_execute] does raise.  An [execute] that is
    interrupted from the keyboard takes the call with it, after it has
    run for two ticks; and keyword arguments with the key [self] make the
    call raise a [TypeError] before anything is validated. *)
Lemma safe_execute_lets_exits_through :
  safe_execute_call bare_host interrupted_notify
                    [("count", PInt 9); ("message", PStr "hi")] idle =
    (Exits "KeyboardInterrupt",
     {| world := 1; now := 102%Z;
        invoked := [("notify", [("count", PInt 9); ("message", PStr "hi")])] |}) /\
  safe_execute_call bare_host (staying broken_notify)
                    [("self", PStr "notify"); ("message", PStr "hi")] idle =
    (Raises "BaseTool.safe_execute() got multiple values for argument 'self'", idle).
Proof. split; vm_compute; reflexivity. Qed.

End BaseToolProps.

(** ** Discovery and reload *)

Module LoaderProps.
Import PyStr Py BaseToolM PluginManagerM.
Local Open Scope string_scope.
Local Open Scope nat_scope.

Section Discovery.
Variable W : Type.

(** The tools a module yields: one per class whose constructor returns. *)
Definition built (f : PyFile W) (cs : list (ToolClass W)) : list (BaseTool W) :=
  flat_map (fun c => match instantiate (module_name_of f) c with
                     | Ok t => [t]
                     | Raise _ => []
                     end) cs.

(** What [logger.error] receives for the classes whose constructor raises. *)
Definition class_errors (f : PyFile W) (cs : list (ToolClass W)) : list string :=
  flat_map (fun c => match instantiate (module_name_of f) c with
                     | Ok _ => []
                     | Raise e => ["Failed to instantiate tool " ++ cls_name c ++
                                   " from " ++ file_path f ++ ": " ++ e]
                     end) cs.

Definition names_of (ts : list (BaseTool W)) : list string :=
  map (fun t => md_name (metadata t)) ts.

Definition unit_built (f : PyFile W) : list (BaseTool W) :=
  match exec_module f with
  | Ok cs => built f cs
  | Raise _ => []
  end.

(** The entry of the error list for a file of the tools directory. *)
Definition unit_error (f : PyFile W) : list string :=
  match exec_module f with
  | Ok _ => []
  | Raise e => ["Failed to load tools from " ++ file_path f ++ ": " ++ e]
  end.

Definition register_all (reg : ToolRegistry W) (ts : list (BaseTool W)) : ToolRegistry W :=
  fold_left (@register W) ts reg.

Lemma load_classes (f : PyFile W) (cs : list (ToolClass W)) :
  forall (pm : PluginManager W) (names : list string),
    let r := fold_left (load_class f) cs (pm, names) in
    registry (fst r) = register_all (registry pm) (built f cs) /\
    loaded_modules (fst r) = loaded_modules pm /\
    error_log (fst r) = (error_log pm ++ class_errors f cs)%list /\
    snd r = (names ++ names_of (built f cs))%list.
Proof.
  induction cs as [ | c cs IH]; intros pm names; simpl.
  - rewrite !app_nil_r. auto.
  - unfold built, class_errors in *. simpl.
    destruct (instantiate (module_name_of f) c) as [t | e]; simpl.
    + destruct (IH {| registry := register (registry pm) t;
                      loaded_modules := loaded_modules pm;
                      error_log := error_log pm |}
                   (names ++ [md_name (metadata t)])%list)
        as (Hr & Hm & Hl & Hn).
      simpl in *. rewrite Hr, Hm, Hl, Hn, <- app_assoc. auto.
    + destruct (IH (log_error pm ("Failed to instantiate tool " ++ cls_name c ++
                                  " from " ++ file_path f ++ ": " ++ e)) names)
        as (Hr & Hm & Hl & Hn).
      simpl in *. rewrite Hr, Hm, Hl, Hn, <- app_assoc. auto.
Qed.

(** Loading a file whose import succeeds. *)
Lemma load_file_ok (pm : PluginManager W) (f : PyFile W) (cs : list (ToolClass W)) :
  exec_module f = Ok cs ->
  exists pm',
    _load_tools_from_file pm f = (Ok (names_of (built f cs)), pm') /\
    registry pm' = register_all (registry pm) (built f cs) /\
    error_log pm' = (error_log pm ++ class_errors f cs)%list.
Proof.
  intros He. unfold _load_tools_from_file. rewrite He.
  set (pm1 := {| registry := registry pm;
                 loaded_modules := sset (loaded_modules pm) (file_path f) (module_name_of f);
                 error_log := error_log pm |}).
  destruct (load_classes f cs pm1 []) as (Hr & _ & Hl & Hn).
  destruct (fold_left (load_class f) cs (pm1, [])) as [pm2 names].
  simpl in *. subst names. eauto.
Qed.

Lemma load_file_raise (pm : PluginManager W) (f : PyFile W) (e : string) :
  exec_module f = Raise e ->
  exists pm',
    _load_tools_from_file pm f = (Raise e, pm') /\ registry pm' = registry pm.
Proof.
  intros He. unfold _load_tools_from_file. rewrite He. eauto.
Qed.

Lemma register_all_app (reg : ToolRegistry W) (a b : list (BaseTool W)) :
  register_all reg (a ++ b) = register_all (register_all reg a) b.
Proof. apply fold_left_app. Qed.

Lemma load_file_step_spec (r : LoadResult) (pm : PluginManager W) (f : PyFile W) :
  let out := load_file_step (r, pm) f in
  lr_tools (fst out) = (lr_tools r ++ names_of (unit_built f))%list /\
  lr_errors (fst out) = (lr_errors r ++ unit_error f)%list /\
  loaded (fst out) = loaded r + length (unit_built f) /\
  registry (snd out) = register_all (registry pm) (unit_built f).
Proof.
  unfold load_file_step, unit_built, unit_error.
  destruct (exec_module f) as [cs | e] eqn:He.
  - destruct (load_file_ok pm f He) as (pm' & Hload & Hreg & _).
    rewrite Hload. simpl. unfold names_of. rewrite length_map, app_nil_r. auto.
  - destruct (load_file_raise pm f He) as (pm' & Hload & Hreg).
    rewrite Hload. simpl. rewrite app_nil_r, Nat.add_0_r. auto.
Qed.

Lemma load_files (fs : list (PyFile W)) :
  forall (r : LoadResult) (pm : PluginManager W),
    let out := fold_left (@load_file_step W) fs (r, pm) in
    lr_tools (fst out) = (lr_tools r ++ names_of (flat_map unit_built fs))%list /\
    lr_errors (fst out) = (lr_errors r ++ flat_map unit_error fs)%list /\
    loaded (fst out) = loaded r + length (flat_map unit_built fs) /\
    registry (snd out) = register_all (registry pm) (flat_map unit_built fs).
Proof.
  induction fs as [ | f fs IH]; intros r pm; cbn [fold_left flat_map].
  - cbn. rewrite !app_nil_r. auto.
  - destruct (load_file_step_spec r pm f) as (Ht1 & Hx1 & Hn1 & Hg1).
    destruct (load_file_step (r, pm) f) as [r1 pm1].
    destruct (IH r1 pm1) as (Ht & Hx & Hn & Hg).
    cbv zeta in *. cbn [fst snd] in *.
    rewrite Ht, Hx, Hn, Hg, Ht1, Hx1, Hn1, Hg1.
    unfold names_of. rewrite map_app, length_app, register_all_app, <- !app_assoc.
    repeat split; lia.
Qed.

(** The file a plugin directory is loaded from. *)
Definition main_of (d : PluginDir W) : option (PyFile W) :=
  match init_file d with
  | Some f => Some f
  | None =>
      match main_file d with
      | Some f => Some f
      | None => hd_error (py_files d)
      end
  end.

Definition skipped (d : PluginDir W) : bool :=
  negb (dir_is_dir d) || startswith "." (dir_name d).

Definition plugin_unit (d : PluginDir W) : list (PyFile W) :=
  if skipped d then []
  else match main_of d with
       | Some f => [f]
       | None => []
       end.

(** The entry of the error list for a plugin directory. *)
Definition plugin_error (d : PluginDir W) : list string :=
  if skipped d then []
  else match main_of d with
       | Some f =>
           match exec_module f with
           | Ok _ => []
           | Raise e => ["Failed to load plugin from " ++ dir_path d ++ ": " ++ e]
           end
       | None => []
       end.

Lemma load_plugin_step_spec (r : PluginsResult) (pm : PluginManager W) (d : PluginDir W) :
  let out := load_plugin_step (r, pm) d in
  pr_errors (fst out) = (pr_errors r ++ plugin_error d)%list /\
  pr_loaded (fst out) = pr_loaded r + length (flat_map unit_built (plugin_unit d)) /\
  registry (snd out) = register_all (registry pm) (flat_map unit_built (plugin_unit d)).
Proof.
  unfold load_plugin_step, plugin_error, plugin_unit, _load_plugin_from_directory.
  fold (skipped d). fold (main_of d).
  destruct (skipped d); simpl.
  - rewrite app_nil_r, Nat.add_0_r. auto.
  - destruct (main_of d) as [f | ]; simpl.
    + unfold unit_built. destruct (exec_module f) as [cs | e] eqn:He.
      * destruct (load_file_ok pm f He) as (pm' & Hload & Hreg & _).
        rewrite Hload. rewrite !app_nil_r.
        unfold names_of in *.
        destruct (built f cs) as [ | t ts] eqn:Hb; simpl in *.
        -- rewrite Nat.add_0_r. auto.
        -- rewrite length_map. auto.
      * destruct (load_file_raise pm f He) as (pm' & Hload & Hreg).
        rewrite Hload. simpl. rewrite Nat.add_0_r. auto.
    + rewrite app_nil_r, Nat.add_0_r. auto.
Qed.

Lemma load_plugins (ds : list (PluginDir W)) :
  forall (r : PluginsResult) (pm : PluginManager W),
    let out := fold_left (@load_plugin_step W) ds (r, pm) in
    pr_errors (fst out) = (pr_errors r ++ flat_map plugin_error ds)%list /\
    pr_loaded (fst out) =
      pr_loaded r + length (flat_map unit_built (flat_map plugin_unit ds)) /\
    registry (snd out) =
      register_all (registry pm) (flat_map unit_built (flat_map plugin_unit ds)).
Proof.
  induction ds as [ | d ds IH]; intros r pm; cbn [fold_left flat_map].
  - cbn. rewrite app_nil_r. auto.
  - destruct (load_plugin_step_spec r pm d) as (Hx1 & Hn1 & Hg1).
    destruct (load_plugin_step (r, pm) d) as [r1 pm1].
    destruct (IH r1 pm1) as (Hx & Hn & Hg).
    cbv zeta in *. cbn [fst snd] in *.
    rewrite Hx, Hn, Hg, Hx1, Hn1, Hg1.
    rewrite !flat_map_app, length_app, register_all_app, <- !app_assoc.
    repeat split; lia.
Qed.

(** The Python files of the tools directory that are loaded. *)
Definition python_files (fs : FS W) : list (PyFile W) :=
  match tools_dir fs with
  | Some files => filter (fun f => negb (startswith "__" (file_name f))) files
  | None => []
  end.

Definition plugin_dirs (fs : FS W) : list (PluginDir W) :=
  match plugins_dir fs with
  | Some ds => ds
  | None => []
  end.

(** Every source unit a discovery pass loads, in order. *)
Definition units (fs : FS W) : list (PyFile W) :=
  (python_files fs ++ flat_map plugin_unit (plugin_dirs fs))%list.

(** What a discovery pass leaves behind, in terms of the units it met. *)
Lemma discover_outcome (pm : PluginManager W) (fs : FS W) :
  let out := discover_and_load_all pm fs in
  registry (snd out) = register_all (registry pm) (flat_map unit_built (units fs)) /\
  d_tools (fst out) = names_of (flat_map unit_built (python_files fs)) /\
  tools_loaded (fst out) + plugins_loaded (fst out) =
    length (flat_map unit_built (units fs)) /\
  errors (fst out) =
    (flat_map unit_error (python_files fs) ++
     flat_map plugin_error (plugin_dirs fs))%list.
Proof.
  unfold discover_and_load_all, units, python_files, plugin_dirs,
    _load_tools_from_directory, _load_plugins_from_directory.
  set (r0 := {| loaded := 0; lr_tools := []; lr_errors := [] |}).
  set (q0 := {| pr_loaded := 0; pr_plugins := []; pr_errors := [] |}).
  assert (Hfiles :
            forall files,
              let out := fold_left (@load_file_step W) files (r0, pm) in
              lr_tools (fst out) = names_of (flat_map unit_built files) /\
              lr_errors (fst out) = flat_map unit_error files /\
              loaded (fst out) = length (flat_map unit_built files) /\
              registry (snd out) = register_all (registry pm) (flat_map unit_built files)).
  { intros files. exact (load_files files r0 pm). }
  assert (Hdirs :
            forall ds pm1,
              let out := fold_left (@load_plugin_step W) ds (q0, pm1) in
              pr_errors (fst out) = flat_map plugin_error ds /\
              pr_loaded (fst out) = length (flat_map unit_built (flat_map plugin_unit ds)) /\
              registry (snd out) =
                register_all (registry pm1) (flat_map unit_built (flat_map plugin_unit ds))).
  { intros ds pm1. exact (load_plugins ds q0 pm1). }
  assert (Hmain :
            forall files ds,
              let '(tr, pm1) := fold_left (@load_file_step W) files (r0, pm) in
              let '(pr, pm2) := fold_left (@load_plugin_step W) ds (q0, pm1) in
              registry pm2 =
                register_all (registry pm)
                             (flat_map unit_built (files ++ flat_map plugin_unit ds)) /\
              lr_tools tr = names_of (flat_map unit_built files) /\
              loaded tr + pr_loaded pr =
                length (flat_map unit_built (files ++ flat_map plugin_unit ds)) /\
              (lr_errors tr ++ pr_errors pr)%list =
                (flat_map unit_error files ++ flat_map plugin_error ds)%list).
  { intros files ds.
    destruct (Hfiles files) as (Ht & Hx & Hn & Hg).
    destruct (fold_left (@load_file_step W) files (r0, pm)) as [tr pm1].
    destruct (Hdirs ds pm1) as (Hpx & Hpn & Hpg).
    destruct (fold_left (@load_plugin_step W) ds (q0, pm1)) as [pr pm2].
    cbv zeta in *. cbn [fst snd] in *.
    rewrite Hpg, Hg, Ht, Hx, Hn, Hpx, Hpn, flat_map_app, length_app, register_all_app.
    auto. }
  split; [ | split; [ | split ] ];
    destruct (tools_dir fs) as [files | ]; destruct (plugins_dir fs) as [ds | ];
    match goal with
    | |- context [fold_left (@load_file_step W) ?fl _] =>
        match goal with
        | |- context [fold_left (@load_plugin_step W) ?dl _] =>
            pose proof (Hmain fl dl) as Hm
        | _ => pose proof (Hmain fl []) as Hm
        end
    | |- context [fold_left (@load_plugin_step W) ?dl _] => pose proof (Hmain [] dl) as Hm
    | _ => pose proof (Hmain [] []) as Hm
    end;
    cbn [fold_left] in Hm;
    repeat match type of Hm with
           | context [fold_left ?g ?l ?a] => destruct (fold_left g l a)
           end;
    cbn [fst snd tools_loaded plugins_loaded errors d_tools flat_map app
             loaded lr_tools lr_errors pr_loaded pr_errors] in *;
    rewrite ?app_nil_r in *; tauto.
Qed.

End Discovery.

(** *** A concrete tools directory *)

Definition describe (n d : string) (c : ToolCategory) : ToolMetadata :=
  {| md_name := n; md_description := d; category := c; version := "1.0.0";
     author := "Desktop MCP"; keywords := []; parameters := [];
     requirements := []; platforms := ["windows"; "linux"; "darwin"];
     min_python_version := "3.10"; icon := None; documentation_url := None;
     examples := [] |}.

Definition done : dict -> unit -> Z -> res ToolResult * unit * Z :=
  fun _ w t =>
    (Ok {| success := true; message := "done"; data := None; error := None;
           execution_time := 0%Z; timestamp := t |}, w, t).

Definition tool_class (cls n d : string) (c : ToolCategory) : ToolClass unit :=
  {| cls_name := cls; cls_module := None; get_metadata := Ok (describe n d c);
     cls_execute := done |}.


Definition resize_class : ToolClass unit :=
  tool_class "ResizeImageTool" "resize_image" "Resize an image" MEDIA_PROCESSING.








End LoaderProps.

(** ** The registry and its category index *)

Module RegistryProps.
Import PyStr Py BaseToolM PluginManagerM LoaderProps.
Local Open Scope string_scope.
Local Open Scope nat_scope.

Lemma category_eqb_eq (a b : ToolCategory) : category_eqb a b = true <-> a = b.
Proof.
  destruct a, b; vm_compute; split; intros H;
    solve [ reflexivity | discriminate H ].
Qed.

Section DictFacts.
Variables K V : Type.
Variable keq : K -> K -> bool.
Hypothesis keq_eq : forall a b, keq a b = true <-> a = b.

Lemma dict_get_set_same (d : list (K * V)) (k : K) (v : V) :
  dict_get keq (dict_set keq d k v) k = Some v.
Proof.
  induction d as [ | [k' v'] d IH]; simpl.
  - replace (keq k k) with true by (symmetry; apply keq_eq; reflexivity).
    reflexivity.
  - destruct (keq k' k) eqn:E; simpl; rewrite E; [ reflexivity | exact IH ].
Qed.

Lemma dict_get_set_other (d : list (K * V)) (k k' : K) (v : V) :
  k <> k' -> dict_get keq (dict_set keq d k v) k' = dict_get keq d k'.
Proof.
  intros Hne. induction d as [ | [k0 v0] d IH]; simpl.
  - destruct (keq k k') eqn:E; [ apply keq_eq in E; contradiction | reflexivity ].
  - destruct (keq k0 k) eqn:E; simpl.
    + apply keq_eq in E. subst k0.
      destruct (keq k k') eqn:E'; [ apply keq_eq in E'; contradiction | reflexivity ].
    + destruct (keq k0 k'); [ reflexivity | exact IH ].
Qed.

Lemma in_dict_set (d : list (K * V)) (k : K) (v : V) (x : K * V) :
  In x (dict_set keq d k v) -> (exists k0, keq k0 k = true /\ x = (k0, v)) \/ In x d.
Proof.
  induction d as [ | [k' v'] d IH]; simpl.
  - intros [H | []]. left. exists k. split; [ apply keq_eq; reflexivity | auto ].
  - destruct (keq k' k) eqn:E; simpl.
    + intros [H | H]; [ left; exists k'; auto | right; right; exact H ].
    + intros [H | H]; [ right; left; exact H | ].
      destruct (IH H) as [Hl | Hr]; [ left; exact Hl | right; right; exact Hr ].
Qed.

Lemma in_dict_del (d : list (K * V)) (k : K) (x : K * V) :
  In x (dict_del keq d k) -> In x d.
Proof.
  induction d as [ | [k' v'] d IH]; simpl; [ tauto | ].
  destruct (keq k' k); simpl; [ tauto | ].
  intros [H | H]; [ left; exact H | right; exact (IH H) ].
Qed.
End DictFacts.

Lemma cat_set_same (V : Type) (d : list (ToolCategory * V)) (c : ToolCategory) (v : V) :
  dict_get category_eqb (dict_set category_eqb d c v) c = Some v.
Proof. exact (@dict_get_set_same _ _ category_eqb category_eqb_eq d c v). Qed.

Lemma cat_set_other (V : Type) (d : list (ToolCategory * V)) (v : V) (c c' : ToolCategory) :
  c <> c' ->
  dict_get category_eqb (dict_set category_eqb d c v) c' = dict_get category_eqb d c'.
Proof. exact (@dict_get_set_other _ _ category_eqb category_eqb_eq d c c' v). Qed.

Lemma in_sset (V : Type) (d : list (string * V)) (k : string) (v : V) (x : string * V) :
  In x (sset d k v) -> (exists k0, String.eqb k0 k = true /\ x = (k0, v)) \/ In x d.
Proof. exact (@in_dict_set _ _ String.eqb String.eqb_eq d k v x). Qed.

Lemma str_mem_In (x : string) (l : list string) : str_mem x l = true <-> In x l.
Proof.
  unfold str_mem. rewrite existsb_exists. split.
  - intros (y & Hy & E). apply String.eqb_eq in E. subst. exact Hy.
  - intros H. exists x. split; [ exact H | apply String.eqb_refl ].
Qed.

Section Index.
Variable W : Type.

(** [n] occurs in the list the category index keeps for [c]. *)
Definition listed (reg : ToolRegistry W) (c : ToolCategory) (n : string) : Prop :=
  exists l, cat_get (categories reg) c = Some l /\ In n l.

(** [n] occurs somewhere in the category index. *)
Definition indexed (reg : ToolRegistry W) (n : string) : Prop :=
  exists c, listed reg c n.

(** The invariant of the specification: the names of the category index
    are the keys of the primary mapping. *)
Definition index_matches (reg : ToolRegistry W) : Prop :=
  forall n, indexed reg n <-> In n (dict_keys (tools reg)).

(** The half that the code keeps: every stored tool is stored under its
    own name and listed under its own category. *)
Definition covers (reg : ToolRegistry W) : Prop :=
  forall n t, In (n, t) (tools reg) ->
              md_name (metadata t) = n /\ listed reg (category (metadata t)) n.

Lemma register_lists_new (reg : ToolRegistry W) (t : BaseTool W) :
  listed (register reg t) (category (metadata t)) (md_name (metadata t)).
Proof.
  unfold listed, register, cat_get, dict_has. simpl.
  set (c := category (metadata t)). set (n := md_name (metadata t)).
  destruct (dict_get category_eqb (categories reg) c) as [l | ] eqn:Hc.
  - rewrite Hc. destruct (str_mem n l) eqn:Hm.
    + exists l. split; [ exact Hc | apply str_mem_In; exact Hm ].
    + exists (l ++ [n])%list. split.
      * apply cat_set_same.
      * apply in_or_app. right. left. reflexivity.
  - rewrite cat_set_same. simpl.
    exists [n]. split.
    + apply cat_set_same.
    + left. reflexivity.
Qed.

Lemma register_keeps_listed (reg : ToolRegistry W) (t : BaseTool W)
      (c : ToolCategory) (n : string) :
  listed reg c n -> listed (register reg t) c n.
Proof.
  intros (l & Hl & Hin). unfold listed, register, cat_get, dict_has in *. simpl.
  set (ct := category (metadata t)). set (nt := md_name (metadata t)).
  destruct (category_eqb ct c) eqn:E.
  - apply category_eqb_eq in E. subst c. rewrite Hl. rewrite Hl.
    destruct (str_mem nt l).
    + exists l. auto.
    + exists (l ++ [nt])%list. split.
      * apply cat_set_same.
      * apply in_or_app. left. exact Hin.
  - assert (Hne : ct <> c).
    { intros Heq. apply category_eqb_eq in Heq. congruence. }
    exists l. split; [ | exact Hin ].
    destruct (dict_get category_eqb (categories reg) ct) as [lt | ] eqn:Hct.
    + rewrite Hct. destruct (str_mem nt lt); [ exact Hl | ].
      rewrite (cat_set_other _ _ Hne). exact Hl.
    + rewrite cat_set_same. simpl.
      rewrite !(cat_set_other _ _ Hne). exact Hl.
Qed.

Lemma register_covers (reg : ToolRegistry W) (t : BaseTool W) :
  covers reg -> covers (register reg t).
Proof.
  intros Hc n t' Hin.
  change (tools (register reg t)) with (sset (tools reg) (md_name (metadata t)) t) in Hin.
  apply in_sset in Hin.
  destruct Hin as [(k0 & Hk & Heq) | Hold].
  - apply String.eqb_eq in Hk. inversion Heq; subst.
    split; [ reflexivity | apply register_lists_new ].
  - destruct (Hc n t' Hold) as [Hn Hl].
    split; [ exact Hn | apply register_keeps_listed; exact Hl ].
Qed.

Lemma register_all_covers (ts : list (BaseTool W)) :
  forall reg, covers reg -> covers (register_all reg ts).
Proof.
  induction ts as [ | t ts IH]; intros reg Hc; simpl; [ exact Hc | ].
  apply IH, register_covers, Hc.
Qed.

Lemma in_delete_all (names : list string) :
  forall (d : list (string * BaseTool W)) x,
    In x (fold_left (fun ts n => sdel ts n) names d) -> In x d.
Proof.
  induction names as [ | n names IH]; intros d x; simpl; [ tauto | ].
  intros H. apply IH in H. exact (@in_dict_del _ _ String.eqb _ _ _ H).
Qed.

Lemma remove_old_covers (pm : PluginManager W) (path : string) :
  covers (registry pm) -> covers (registry (remove_old_tools pm path)).
Proof.
  intros Hc. unfold remove_old_tools.
  destruct (sget (loaded_modules pm) path) as [old | ]; [ | exact Hc ].
  intros n t Hin. simpl in Hin. apply in_delete_all in Hin.
  destruct (Hc n t Hin) as [Hn (l & Hl & Hi)].
  split; [ exact Hn | exists l; auto ].
Qed.
Lemma load_file_registry (pm : PluginManager W) (f : PyFile W) :
  exists ts, registry (snd (_load_tools_from_file pm f)) = register_all (registry pm) ts.
Proof.
  destruct (exec_module f) as [cs | e] eqn:He.
  - destruct (load_file_ok pm f He) as (pm' & Hload & Hreg & _).
    rewrite Hload. exists (built f cs). exact Hreg.
  - destruct (load_file_raise pm f He) as (pm' & Hload & Hreg).
    rewrite Hload. exists []. exact Hreg.
Qed.

Lemma load_plugin_registry (pm : PluginManager W) (d : PluginDir W) :
  exists ts,
    registry (snd (_load_plugin_from_directory pm d)) = register_all (registry pm) ts.
Proof.
  unfold _load_plugin_from_directory. fold (main_of d).
  destruct (main_of d) as [f | ]; [ | exists []; reflexivity ].
  destruct (load_file_registry pm f) as (ts & Hts).
  destruct (_load_tools_from_file pm f) as [[tools | e] pm']; simpl in *.
  - exists ts. destruct tools; exact Hts.
  - exists ts. exact Hts.
Qed.

Lemma reload_registry (pm : PluginManager W) (fs : FS W) (path : string) :
  exists ts,
    registry (snd (reload_plugin pm fs path)) =
    register_all (registry (remove_old_tools pm path)) ts.
Proof.
  unfold reload_plugin. set (pm1 := remove_old_tools pm path).
  destruct (file_at fs path) as [f | ].
  - destruct (load_file_registry pm1 f) as (ts & Hts).
    destruct (_load_tools_from_file pm1 f) as [[tools | e] pm2]; exists ts; exact Hts.
  - destruct (dir_at fs path) as [d | ]; [ | exists []; reflexivity ].
    destruct (load_plugin_registry pm1 d) as (ts & Hts).
    destruct (_load_plugin_from_directory pm1 d) as [[[info | ] | e] pm2];
      exists ts; exact Hts.
Qed.

(** What can happen to a registry: a direct registration, the reload of a
    source unit, a discovery pass; each against the file system of its
    moment. *)
Inductive op : Type :=
| Register (t : BaseTool W)
| Reload (fs : FS W) (path : string)
| Discover (fs : FS W).

Definition apply_op (pm : PluginManager W) (o : op) : PluginManager W :=
  match o with
  | Register t =>
      {| registry := register (registry pm) t;
         loaded_modules := loaded_modules pm; error_log := error_log pm |}
  | Reload fs path => snd (reload_plugin pm fs path)
  | Discover fs => snd (discover_and_load_all pm fs)
  end.

Definition run (ops : list op) : PluginManager W :=
  fold_left apply_op ops (new_manager W).

Lemma apply_op_covers (pm : PluginManager W) (o : op) :
  covers (registry pm) -> covers (registry (apply_op pm o)).
Proof.
  intros Hc. destruct o as [t | fs path | fs]; simpl.
  - apply register_covers, Hc.
  - destruct (reload_registry pm fs path) as (ts & Hts). rewrite Hts.
    apply register_all_covers, remove_old_covers, Hc.
  - destruct (discover_outcome pm fs) as (Hreg & _).
    cbv zeta in Hreg. rewrite Hreg. apply register_all_covers, Hc.
Qed.

Lemma fold_covers (ops : list op) :
  forall pm, covers (registry pm) -> covers (registry (fold_left apply_op ops pm)).
Proof.
  induction ops as [ | o ops IH]; intros pm Hc; simpl; [ exact Hc | ].
  apply IH, apply_op_covers, Hc.
Qed.

(** The direction of the invariant that holds in every reachable state:
    a key of the primary mapping is listed in the category index, under
    the category of the tool stored for it. *)
Lemma tools_are_indexed (ops : list op) (n : string) :
  In n (dict_keys (tools (registry (run ops)))) -> indexed (registry (run ops)) n.
Proof.
  intros Hin. unfold dict_keys in Hin. apply in_map_iff in Hin.
  destruct Hin as ([n' t] & Hn & Hin). simpl in Hn. subst n'.
  assert (Hc : covers (registry (run ops))).
  { apply fold_covers. intros ? ? []. }
  destruct (Hc n t Hin) as [_ Hl].
  exists (category (metadata t)). exact Hl.
Qed.
End Index.

(** *** A unit that is reloaded after an edit *)

Definition notes_py (id : string) (c : ToolClass unit) : PyFile unit :=
  {| file_path := "plugins/notes.py"; file_name := "notes.py"; stem := "notes";
     path_id := id; exec_module := Ok [c] |}.

Definition disk_with (f : PyFile unit) : FS unit :=
  {| tools_dir := None; plugins_dir := None;
     file_at := fun p => if String.eqb p (file_path f) then Some f else None;
     dir_at := fun _ => None |}.

(** First version of the file: one tool, [notes_add], in [CUSTOM]. *)
Definition notes_v1 : PyFile unit :=
  notes_py "140101" (tool_class "NotesTool" "notes_add" "Add a note" CUSTOM).

(** The edit renames the tool. *)
Definition notes_renamed : PyFile unit :=
  notes_py "140102" (tool_class "NotesTool" "notes_append" "Add a note" CUSTOM).

(** The edit moves the tool to another category. *)
Definition notes_moved : PyFile unit :=
  notes_py "140103" (tool_class "NotesTool" "notes_add" "Add a note" PRODUCTIVITY).

Definition after_rename : PluginManager unit :=
  run [Reload (disk_with notes_v1) "plugins/notes.py";
       Reload (disk_with notes_renamed) "plugins/notes.py"].

Definition after_move : PluginManager unit :=
  run [Reload (disk_with notes_v1) "plugins/notes.py";
       Reload (disk_with notes_moved) "plugins/notes.py"].

(** C3 on the code.  Reloading a unit deletes its tools from the primary
    mapping only.  After the rename the index still lists [notes_add],
    which is no longer a key, so the invariant fails; after the move the
    name is listed under both categories, and the old category hands out a
    tool of the new one. *)
Theorem reload_leaves_stale_index :
  (dict_keys (tools (registry after_rename)) = ["notes_append"] /\
   categories (registry after_rename) = [(CUSTOM, ["notes_add"; "notes_append"])] /\
   ~ index_matches (registry after_rename)) /\
  (dict_keys (tools (registry after_move)) = ["notes_add"] /\
   categories (registry after_move) =
     [(CUSTOM, ["notes_add"]); (PRODUCTIVITY, ["notes_add"])] /\
   map (fun t => category (metadata t))
       (get_tools_by_category (registry after_move) CUSTOM) = [PRODUCTIVITY]).
Proof.
  split; [ split; [ reflexivity | split; [ reflexivity | ] ] | repeat split ].
  intros Hm.
  assert (Hi : indexed (registry after_rename) "notes_add").
  { exists CUSTOM, ["notes_add"; "notes_append"]. split; [ reflexivity | left; reflexivity ]. }
  apply Hm in Hi. vm_compute in Hi.
  destruct Hi as [Hi | []]. discriminate Hi.
Qed.

End RegistryProps.

(** ** Strings: trimming and lower-casing *)

Module StrProps.
Import PyStr.
Local Open Scope string_scope.

Ltac by_cases_on_char c :=
  destruct c as [[] [] [] [] [] [] [] []]; vm_compute; reflexivity.

Lemma lower_char_idem (c : ascii) : lower_char (lower_char c) = lower_char c.
Proof. by_cases_on_char c. Qed.

Lemma lower_char_not_upper (c : ascii) : is_upper (lower_char c) = false.
Proof. by_cases_on_char c. Qed.

Lemma lower_char_space (c : ascii) : is_space (lower_char c) = is_space c.
Proof. by_cases_on_char c. Qed.

Lemma lower_idem (s : string) : lower (lower s) = lower s.
Proof.
  induction s as [ | c s IH]; simpl; [ reflexivity | ].
  rewrite lower_char_idem, IH. reflexivity.
Qed.

Lemma no_upper_lower (s : string) : no_upper (lower s) = true.
Proof.
  induction s as [ | c s IH]; simpl; [ reflexivity | ].
  rewrite lower_char_not_upper, IH. reflexivity.
Qed.

Lemma lstrip_lower (s : string) : lstrip (lower s) = lower (lstrip s).
Proof.
  induction s as [ | c s IH]; simpl; [ reflexivity | ].
  rewrite lower_char_space. destruct (is_space c); [ exact IH | reflexivity ].
Qed.

Lemma lower_empty (s : string) : lower s = EmptyString <-> s = EmptyString.
Proof. destruct s; simpl; split; intros H; try reflexivity; discriminate H. Qed.

Lemma rstrip_lower (s : string) : rstrip (lower s) = lower (rstrip s).
Proof.
  induction s as [ | c s IH]; simpl; [ reflexivity | ].
  rewrite IH, lower_char_space.
  destruct (rstrip s) as [ | d r]; simpl.
  - destruct (is_space c); reflexivity.
  - reflexivity.
Qed.

Lemma strip_lower (s : string) : strip (lower s) = lower (strip s).
Proof. unfold strip. rewrite lstrip_lower, rstrip_lower. reflexivity. Qed.

(** A string that does not begin with a blank. *)
Definition tight (s : string) : Prop :=
  match s with
  | EmptyString => True
  | String c _ => is_space c = false
  end.

Lemma lstrip_tight (s : string) : tight (lstrip s).
Proof.
  induction s as [ | c s IH]; simpl; [ exact I | ].
  destruct (is_space c) eqn:E; [ exact IH | exact E ].
Qed.

Lemma lstrip_of_tight (s : string) : tight s -> lstrip s = s.
Proof.
  destruct s as [ | c s]; simpl; [ reflexivity | ].
  intros E. rewrite E. reflexivity.
Qed.

Lemma rstrip_tight (s : string) : tight s -> tight (rstrip s).
Proof.
  destruct s as [ | c s]; simpl; [ exact (fun H => H) | ].
  intros E. destruct (rstrip s); [ rewrite E | ]; exact E.
Qed.

Lemma rstrip_idem (s : string) : rstrip (rstrip s) = rstrip s.
Proof.
  induction s as [ | c s IH]; simpl; [ reflexivity | ].
  destruct (rstrip s) as [ | d r] eqn:E.
  - destruct (is_space c) eqn:Ec; simpl; [ reflexivity | rewrite Ec; reflexivity ].
  - change (rstrip (String c (String d r))) with
      (match rstrip (String d r) with
       | EmptyString => if is_space c then EmptyString else String c EmptyString
       | x => String c x
       end).
    rewrite IH. reflexivity.
Qed.

Lemma strip_idem (s : string) : strip (strip s) = strip s.
Proof.
  unfold strip.
  rewrite (lstrip_of_tight (rstrip (lstrip s))).
  - apply rstrip_idem.
  - apply rstrip_tight, lstrip_tight.
Qed.

Lemma no_upper_substring (s : string) :
  no_upper s = true -> forall i n, no_upper (substring i n s) = true.
Proof.
  induction s as [ | c s IH]; intros H i n.
  - destruct i, n; reflexivity.
  - simpl in H. apply andb_prop in H. destruct H as [Hc Hs].
    destruct i as [ | i]; simpl.
    + destruct n as [ | n]; simpl; [ reflexivity | ].
      rewrite Hc. exact (IH Hs 0 n).
    + exact (IH Hs i n).
Qed.

Lemma no_upper_slice (s : string) (i j : nat) :
  no_upper s = true -> no_upper (slice s i j) = true.
Proof. intros H. apply no_upper_substring, H. Qed.

(** Every character of [s] is white space. *)
Fixpoint blank (s : string) : bool :=
  match s with
  | EmptyString => true
  | String c s' => is_space c && blank s'
  end.

Lemma lstrip_blank (s : string) : blank s = true -> lstrip s = EmptyString.
Proof.
  induction s as [ | c s IH]; simpl; [ reflexivity | ].
  intros H. apply andb_prop in H. destruct H as [Hc Hs].
  rewrite Hc. exact (IH Hs).
Qed.

Lemma rstrip_blank (s : string) : blank s = true -> rstrip s = EmptyString.
Proof.
  induction s as [ | c s IH]; simpl; [ reflexivity | ].
  intros H. apply andb_prop in H. destruct H as [Hc Hs].
  rewrite (IH Hs), Hc. reflexivity.
Qed.

Lemma lstrip_app_blank (a t : string) : blank a = true -> lstrip (a ++ t) = lstrip t.
Proof.
  induction a as [ | c a IH]; simpl; [ reflexivity | ].
  intros H. apply andb_prop in H. destruct H as [Hc Ha].
  rewrite Hc. exact (IH Ha).
Qed.

Lemma rstrip_app_blank (t b : string) : blank b = true -> rstrip (t ++ b) = rstrip t.
Proof.
  intros Hb. induction t as [ | c t IH]; simpl.
  - exact (rstrip_blank b Hb).
  - rewrite IH. reflexivity.
Qed.

Lemma strip_app_blank (s b : string) : blank b = true -> strip (s ++ b) = strip s.
Proof.
  intros Hb. unfold strip. induction s as [ | c s IH]; simpl.
  - rewrite (lstrip_blank b Hb). reflexivity.
  - destruct (is_space c); [ exact IH | ].
    exact (rstrip_app_blank (String c s) b Hb).
Qed.

(** White space around a string does not survive [strip]. *)
Lemma strip_padded (a s b : string) :
  blank a = true -> blank b = true -> strip (a ++ s ++ b) = strip s.
Proof.
  intros Ha Hb. unfold strip. rewrite (lstrip_app_blank a (s ++ b) Ha).
  exact (strip_app_blank s b Hb).
Qed.

(** [s] with every small letter that has a capital below 256 replaced by
    that capital: [s.upper()] wherever the result stays below 256. *)
Fixpoint capitals (s : string) : string :=
  match s with
  | EmptyString => EmptyString
  | String c s' => String (upper_char c) (capitals s')
  end.

Lemma lower_upper_char (c : ascii) : lower_char (upper_char c) = lower_char c.
Proof. by_cases_on_char c. Qed.

Lemma lower_capitals (s : string) : lower (capitals s) = lower s.
Proof.
  induction s as [ | c s IH]; simpl; [ reflexivity | ].
  rewrite lower_upper_char, IH. reflexivity.
Qed.

End StrProps.

(** ** The command parser *)

Module ParserProps.
Import PyStr Py BaseToolM CommandParserM StrProps.
Local Open Scope string_scope.
Local Open Scope nat_scope.

Section Stages.
Variable W : Type.
Variable libs : Libs.
Variable reg : ToolRegistry W.

(** *** The confidences a stage can produce *)

(** The running best of the pattern stage: nothing yet at confidence 0, or
    a candidate whose confidence is the running one and exceeds 0.8. *)
Definition settled (b : best) : Prop :=
  match fst b with
  | Some c => confidence c = snd b /\ 80 < snd b
  | None => snd b = 0
  end.

Lemma fuzzy_step_settled (fz : Fuzzy) (command : string) (p : CommandPattern)
      (b : best) (example : string) :
  settled b -> settled (fuzzy_step fz command p b example).
Proof.
  intros Hb. unfold fuzzy_step.
  destruct (Nat.ltb_spec 80 (ratio fz command (lower example))) as [H80 | _]; simpl;
    [ | exact Hb ].
  destruct (snd b <? ratio fz command (lower example)); [ | exact Hb ].
  split; [ reflexivity | exact H80 ].
Qed.

Lemma examples_step_settled (command : string) (p : CommandPattern) (b : best) :
  settled b -> settled (examples_step libs command b p).
Proof.
  unfold examples_step. destruct (fuzzy libs) as [fz | ]; [ | exact (fun H => H) ].
  generalize b. induction (cp_examples p) as [ | ex exs IH]; intros b0 Hb; simpl.
  - exact Hb.
  - apply IH, fuzzy_step_settled, Hb.
Qed.

Lemma regex_step_settled (command : string) (p : CommandPattern) (b b' : best) :
  settled b -> regex_step command b p = Ok b' -> settled b'.
Proof.
  intros Hb. unfold regex_step.
  destruct (Re.compile (_convert_pattern_to_regex (pattern p))) as [rx | ];
    [ | discriminate ].
  destruct (ReMatch.search true rx command) as [sp | ].
  - destruct (snd b <? 90); intros H; inversion H; subst; [ | exact Hb ].
    split; [ reflexivity | simpl; lia ].
  - intros H; inversion H; subst; exact Hb.
Qed.

Lemma pattern_loop_settled (ps : list CommandPattern) (command : string) :
  forall b b', settled b -> pattern_loop libs ps command b = Ok b' -> settled b'.
Proof.
  induction ps as [ | p ps IH]; intros b b' Hb; simpl.
  - intros H; inversion H; subst; exact Hb.
  - unfold pattern_step.
    destruct (regex_step command b p) as [b1 | e] eqn:E; simpl; [ | discriminate ].
    apply IH, examples_step_settled. eapply regex_step_settled; eassumption.
Qed.

(** The pattern stage answers with confidence 0 or above 0.8. *)
Lemma match_patterns_range (ps : list CommandPattern) (command : string)
      (pr : ParsedCommand) :
  _match_patterns libs ps command = Ok pr ->
  confidence pr = 0 \/ 80 < confidence pr.
Proof.
  unfold _match_patterns.
  destruct (pattern_loop libs ps command (None, 0)) as [b | e] eqn:E; simpl;
    [ | discriminate ].
  intros H; inversion H; subst.
  assert (Hs : settled b).
  { eapply pattern_loop_settled; [ | exact E ]. reflexivity. }
  unfold settled in Hs. destruct (fst b) as [c | ].
  - right. lia.
  - left. reflexivity.
Qed.

(** The running best of the tool-name stage: no tool at 0, or a tool at
    0.6 and above. *)
Definition tool_settled (b : best_tool W) : Prop :=
  match fst b with
  | Some _ => 60 <= snd b
  | None => snd b = 0
  end.

Lemma raise_to_settled (confidence : nat) (tool : BaseTool W) (b : best_tool W) :
  60 <= confidence -> tool_settled b -> tool_settled (raise_to confidence tool b).
Proof.
  intros Hc Hb. unfold raise_to. destruct (snd b <? confidence); [ exact Hc | exact Hb ].
Qed.

Lemma tool_step_settled (command : string) (b : best_tool W) (kt : string * BaseTool W) :
  tool_settled b -> tool_settled (tool_step libs command b kt).
Proof.
  intros Hb. destruct kt as [n tool]. unfold tool_step.
  set (b1 := if contains (lower n) command then raise_to 80 tool b else b).
  assert (H1 : tool_settled b1).
  { subst b1. destruct (contains (lower n) command);
      [ apply raise_to_settled; [ lia | exact Hb ] | exact Hb ]. }
  clearbody b1.
  set (step := fun (b0 : best_tool W) (keyword : string) =>
                 if contains (lower keyword) command then raise_to 60 tool b0 else b0).
  assert (H2 : forall kws b0, tool_settled b0 -> tool_settled (fold_left step kws b0)).
  { induction kws as [ | kw kws IH]; intros b0 H0; simpl; [ exact H0 | ].
    apply IH. unfold step. destruct (contains (lower kw) command);
      [ apply raise_to_settled; [ lia | exact H0 ] | exact H0 ]. }
  specialize (H2 (keywords (metadata tool)) b1 H1).
  destruct (fuzzy libs) as [fz | ]; [ | exact H2 ].
  match goal with
  | |- tool_settled (if (70 <? ?sim) && _ then _ else _) =>
      destruct (Nat.ltb_spec 70 sim) as [H70 | _]; simpl; [ | exact H2 ];
      destruct (snd (fold_left step (keywords (metadata tool)) b1) <? sim);
      [ unfold tool_settled; simpl; lia | exact H2 ]
  end.
Qed.

(** The tool-name stage answers with confidence 0 or at least 0.6. *)
Lemma match_tool_names_range (command : string) :
  confidence (_match_tool_names libs reg command) = 0 \/
  60 <= confidence (_match_tool_names libs reg command).
Proof.
  unfold _match_tool_names.
  assert (H : forall ts b, tool_settled b ->
                           tool_settled (fold_left (tool_step libs command) ts b)).
  { induction ts as [ | kt ts IH]; intros b Hb; simpl; [ exact Hb | ].
    apply IH, tool_step_settled, Hb. }
  specialize (H (tools reg) (None, 0) eq_refl).
  destruct (fold_left (tool_step libs command) (tools reg) (None, 0)) as [[t | ] c];
    unfold tool_settled in H; simpl in *.
  - right. exact H.
  - left. reflexivity.
Qed.

(** The NLP stage answers with confidence 0 or 0.8. *)
Lemma determine_intent_range (doc : Doc) :
  snd (_determine_intent doc) = 0 \/ snd (_determine_intent doc) = 80.
Proof.
  unfold _determine_intent.
  destruct (flat_map _ _) as [ | [i a] l]; simpl; auto.
Qed.

Lemma parse_with_nlp_range (command : string) :
  confidence (_parse_with_nlp libs reg command) = 0 \/
  confidence (_parse_with_nlp libs reg command) = 80.
Proof.
  unfold _parse_with_nlp. destruct (spacy libs) as [nlp | ]; [ | left; reflexivity ].
  destruct (determine_intent_range (nlp command)) as [H | H];
    destruct (_determine_intent (nlp command)) as [[i a] c]; simpl in *; auto.
Qed.
End Stages.

(** *** Ranking of suggestions *)

Section Ranking.
Variable score : string -> nat.

Definition scored (options : list string) : list (string * nat) :=
  map (fun o => (o, score o)) options.

(** Every score is at most the scores before it. *)
Fixpoint desc (l : list (string * nat)) : Prop :=
  match l with
  | [] => True
  | x :: l' => (forall y, In y l' -> snd y <= snd x) /\ desc l'
  end.

Lemma insert_desc_In (x y : string * nat) (l : list (string * nat)) :
  In y (insert_desc x l) <-> y = x \/ In y l.
Proof.
  induction l as [ | z l IH]; simpl.
  - intuition.
  - destruct (snd x <? snd z); simpl; rewrite ?IH; intuition.
Qed.

Lemma insert_desc_sorted (x : string * nat) (l : list (string * nat)) :
  desc l -> desc (insert_desc x l).
Proof.
  induction l as [ | z l IH]; simpl.
  - intros _. split; [ intros y [] | exact I ].
  - intros [Hz Hl]. destruct (Nat.ltb_spec (snd x) (snd z)) as [Hlt | Hge]; simpl.
    + split; [ | exact (IH Hl) ].
      intros y Hy. apply insert_desc_In in Hy. destruct Hy as [-> | Hy]; [ lia | auto ].
    + split; [ | split; assumption ].
      intros y [<- | Hy]; [ exact Hge | specialize (Hz y Hy); lia ].
Qed.

Lemma sort_desc_In (y : string * nat) (l : list (string * nat)) :
  In y (sort_desc l) <-> In y l.
Proof.
  induction l as [ | x l IH]; simpl; [ reflexivity | ].
  rewrite insert_desc_In, IH. intuition.
Qed.

Lemma sort_desc_sorted (l : list (string * nat)) : desc (sort_desc l).
Proof.
  induction l as [ | x l IH]; simpl; [ exact I | ].
  apply insert_desc_sorted, IH.
Qed.

Lemma in_firstn (A : Type) (n : nat) :
  forall (l : list A) (x : A), In x (firstn n l) -> In x l.
Proof.
  induction n as [ | n IH]; intros [ | y l] x; simpl; try tauto.
  intros [H | H]; [ left; exact H | right; exact (IH l x H) ].
Qed.

Lemma in_skipn (A : Type) (n : nat) :
  forall (l : list A) (x : A), In x (skipn n l) -> In x l.
Proof.
  induction n as [ | n IH]; intros [ | y l] x; simpl; try tauto.
  intros H. right. exact (IH l x H).
Qed.

Lemma desc_split (l : list (string * nat)) :
  desc l -> forall n a b, In a (firstn n l) -> In b (skipn n l) -> snd b <= snd a.
Proof.
  induction l as [ | x l IH]; intros Hd n a b Ha Hb.
  - destruct n; destruct Ha.
  - destruct n as [ | n]; [ destruct Ha | ].
    destruct Hd as [Hx Hl]. simpl in Ha, Hb. destruct Ha as [<- | Ha].
    + apply Hx. exact (in_skipn n l b Hb).
    + exact (IH Hl n a b Ha Hb).
Qed.

Lemma filter_all (A : Type) (f : A -> bool) (l : list A) :
  (forall x, In x l -> f x = true) -> filter f l = l.
Proof.
  induction l as [ | x l IH]; intros H; simpl; [ reflexivity | ].
  rewrite (H x (or_introl eq_refl)), IH; [ reflexivity | ].
  intros y Hy. apply H. right. exact Hy.
Qed.

Lemma filter_shorter (A : Type) (f : A -> bool) (l : list A) :
  length (filter f l) <= length l.
Proof.
  induction l as [ | x l IH]; simpl; [ lia | ].
  destruct (f x); simpl; lia.
Qed.

(** The suggestions drawn from [options]: the three best, then those of
    them that score above 60. *)
Definition shortlist (options : list string) : list string :=
  map fst (filter (fun mt => 60 <? snd mt) (firstn 3 (sort_desc (scored options)))).

Lemma in_sorted_scored (options : list string) (x : string * nat) :
  In x (sort_desc (scored options)) <-> In (fst x) options /\ snd x = score (fst x).
Proof.
  rewrite sort_desc_In. unfold scored. rewrite in_map_iff. split.
  - intros (o & <- & Ho). simpl. auto.
  - intros [Ho Hs]. exists (fst x). destruct x as [o n]. simpl in *. subst n. auto.
Qed.

Lemma shortlist_short (options : list string) : length (shortlist options) <= 3.
Proof.
  unfold shortlist. rewrite length_map.
  etransitivity; [ apply filter_shorter | ].
  rewrite length_firstn. lia.
Qed.

Lemma shortlist_sound (options : list string) (a : string) :
  In a (shortlist options) -> In a options /\ 60 < score a.
Proof.
  unfold shortlist. rewrite in_map_iff. intros ([o n] & <- & Hin).
  apply filter_In in Hin. destruct Hin as [Hin Hs]. cbn [fst snd] in *.
  apply in_firstn, in_sorted_scored in Hin. cbn [fst snd] in Hin. destruct Hin as [Ho ->].
  apply Nat.ltb_lt in Hs. auto.
Qed.

Lemma shortlist_cut (options : list string) (o : string) :
  In o options -> 60 < score o -> ~ In o (shortlist options) ->
  length (shortlist options) = 3 /\
  forall a, In a (shortlist options) -> score o <= score a.
Proof.
  intros Ho Hs Hout. unfold shortlist in *.
  set (l := sort_desc (scored options)) in *.
  assert (Hl : In (o, score o) l) by (apply in_sorted_scored; auto).
  rewrite <- (firstn_skipn 3 l) in Hl. apply in_app_or in Hl.
  destruct Hl as [Hfirst | Hrest].
  - exfalso. apply Hout. apply in_map_iff. exists (o, score o). split; [ reflexivity | ].
    apply filter_In. split; [ exact Hfirst | apply Nat.ltb_lt; exact Hs ].
  - assert (Hge : forall x, In x (firstn 3 l) -> score o <= snd x).
    { intros x Hx. exact (desc_split l (sort_desc_sorted _) 3 x (o, score o) Hx Hrest). }
    rewrite filter_all.
    + split.
      * rewrite length_map, length_firstn.
        assert (3 < length l); [ | lia ].
        destruct (Nat.lt_ge_cases 3 (length l)) as [H | H]; [ exact H | ].
        exfalso. rewrite skipn_all2 in Hrest; [ destruct Hrest | ].
        destruct (Nat.eq_dec (length l) 3) as [E | E]; [ | lia ].
        destruct l as [ | a [ | b [ | c [ | d l']]]]; try discriminate E.
        destruct Hrest.
      * intros a Ha. apply in_map_iff in Ha. destruct Ha as (x & <- & Hx).
        specialize (Hge x Hx).
        apply in_firstn, in_sorted_scored in Hx. destruct Hx as [_ Hsc].
        rewrite <- Hsc. exact Hge.
    + intros x Hx. apply Nat.ltb_lt. specialize (Hge x Hx). lia.
Qed.
End Ranking.

(** *** Which candidate [parse_command] returns *)

Section Selection.
Variable W : Type.
Variable libs : Libs.
Variable reg : ToolRegistry W.

Definition nlp_available : bool :=
  match spacy libs with
  | Some _ => true
  | None => false
  end.

(** The result for a non-empty normalised [command] whose pattern stage
    answered [pr]. *)
Definition selected (pr : ParsedCommand) (command : string) : ParsedCommand :=
  let nr := _parse_with_nlp libs reg command in
  let tr := _match_tool_names libs reg command in
  if 70 <? confidence pr then pr
  else if nlp_available && (confidence pr <? confidence nr) then nr
  else if confidence pr <? confidence tr then tr
  else help libs reg command.

Lemma resolve_selection (ps : list CommandPattern) (command : string) (pr : ParsedCommand) :
  _match_patterns libs ps command = Ok pr ->
  resolve libs reg ps command = Ok (selected pr command).
Proof.
  intros Hp. unfold resolve, selected, nlp_available. rewrite Hp. simpl.
  destruct (Nat.ltb_spec 70 (confidence pr)) as [Hhigh | Hlow]; [ reflexivity | ].
  assert (Hzero : confidence pr = 0).
  { destruct (match_patterns_range libs ps command Hp); lia. }
  destruct (spacy libs) as [nlp | ]; simpl.
  - destruct (confidence pr <? confidence (_parse_with_nlp libs reg command));
      [ reflexivity | ].
    destruct (Nat.ltb_spec (confidence pr) (confidence (_match_tool_names libs reg command)))
      as [Ht | Ht]; [ reflexivity | ].
    unfold max_conf.
    replace (confidence pr <? confidence (_match_tool_names libs reg command)) with false
      by (symmetry; apply Nat.ltb_ge; exact Ht).
    rewrite Hzero. reflexivity.
  - destruct (Nat.ltb_spec (confidence pr) (confidence (_match_tool_names libs reg command)))
      as [Ht | Ht]; [ reflexivity | ].
    unfold max_conf.
    replace (confidence pr <? confidence (_match_tool_names libs reg command)) with false
      by (symmetry; apply Nat.ltb_ge; exact Ht).
    rewrite Hzero. reflexivity.
Qed.

Lemma resolve_raises (ps : list CommandPattern) (command e : string) :
  _match_patterns libs ps command = Raise e -> resolve libs reg ps command = Raise e.
Proof. intros Hp. unfold resolve. rewrite Hp. reflexivity. Qed.

Lemma parse_command_resolve (ps : list CommandPattern) (s : string) :
  normalize s <> EmptyString ->
  parse_command libs reg ps s = resolve libs reg ps (normalize s).
Proof.
  intros Hne. unfold parse_command.
  destruct (normalize s); [ contradiction | reflexivity ].
Qed.

(** C1 (as the code has it).  For an input that is not blank:
    [parse_command] returns the pattern candidate when its confidence
    exceeds 0.7, whatever the other stages would say; otherwise the NLP
    candidate when that stage is available and strictly more confident
    than the pattern candidate; otherwise the tool-name candidate when it
    is strictly more confident than the pattern candidate; otherwise the
    [unknown]/[help] result.  When a pattern fails to compile the error
    is the result. *)
Theorem parse_command_selection (ps : list CommandPattern) (s : string) :
  normalize s <> EmptyString ->
  (forall pr,
      _match_patterns libs ps (normalize s) = Ok pr ->
      let nr := _parse_with_nlp libs reg (normalize s) in
      let tr := _match_tool_names libs reg (normalize s) in
      parse_command libs reg ps s =
      Ok (if 70 <? confidence pr then pr
          else if nlp_available && (confidence pr <? confidence nr) then nr
          else if confidence pr <? confidence tr then tr
          else help libs reg (normalize s))) /\
  (forall e,
      _match_patterns libs ps (normalize s) = Raise e ->
      parse_command libs reg ps s = Raise e).
Proof.
  intros Hne. split.
  - intros pr Hp nr tr. rewrite (@parse_command_resolve ps s Hne).
    exact (@resolve_selection ps (normalize s) pr Hp).
  - intros e Hp. rewrite (@parse_command_resolve ps s Hne).
    exact (@resolve_raises ps (normalize s) e Hp).
Qed.

(** C6 (as the code has it).  For an input that is not blank, when the
    pattern stage, the NLP stage and the tool-name stage all stay below
    0.3, the result is the [unknown]/[help] command with confidence 0.
    Its alternatives are at most three names.  Without the similarity
    library there are none.  With it they are the three best-scoring
    options (registered names followed by the fixed examples; ties in
    favour of the earlier option) with those scoring 60 or less removed:
    each has a score above 60, and an option above 60 can be missing only
    when three options scoring at least as much were returned. *)
Theorem parse_command_unknown (ps : list CommandPattern) (s : string) (pr : ParsedCommand) :
  normalize s <> EmptyString ->
  _match_patterns libs ps (normalize s) = Ok pr ->
  confidence pr < 30 ->
  confidence (_parse_with_nlp libs reg (normalize s)) < 30 ->
  confidence (_match_tool_names libs reg (normalize s)) < 30 ->
  let command := normalize s in
  let alts := _suggest_alternatives libs reg command in
  let options := (dict_keys (tools reg) ++ common_commands)%list in
  parse_command libs reg ps s =
    Ok {| intent := "unknown"; action := "help";
          entities := [("original_command", PStr command)]; confidence := 0;
          tool_name := None; parameters := None; alternatives := Some alts |} /\
  length alts <= 3 /\
  (fuzzy libs = None -> alts = []) /\
  (forall fz,
      fuzzy libs = Some fz ->
      alts = shortlist (extract_score fz command) options /\
      (forall a, In a alts -> In a options /\ 60 < extract_score fz command a) /\
      (forall o, In o options -> 60 < extract_score fz command o -> ~ In o alts ->
                 length alts = 3 /\
                 forall a, In a alts -> extract_score fz command o <= extract_score fz command a)).
Proof.
  intros Hne Hp Hpr Hnr Htr command alts options.
  assert (Hshape : forall fz, fuzzy libs = Some fz ->
                              alts = shortlist (extract_score fz command) options).
  { intros fz Hfz. subst alts. unfold _suggest_alternatives. rewrite Hfz. reflexivity. }
  split; [ | split; [ | split ] ].
  - rewrite (@parse_command_resolve ps s Hne), (@resolve_selection ps (normalize s) pr Hp).
    unfold selected.
    replace (70 <? confidence pr) with false by (symmetry; apply Nat.ltb_ge; lia).
    replace (confidence pr <? confidence (_parse_with_nlp libs reg (normalize s)))
      with false.
    2:{ symmetry. apply Nat.ltb_ge.
        destruct (parse_with_nlp_range libs reg (normalize s)); lia. }
    rewrite andb_false_r.
    replace (confidence pr <? confidence (_match_tool_names libs reg (normalize s)))
      with false.
    2:{ symmetry. apply Nat.ltb_ge.
        destruct (match_tool_names_range libs reg (normalize s)); lia. }
    reflexivity.
  - subst alts. unfold _suggest_alternatives.
    destruct (fuzzy libs) as [fz | ]; [ | simpl; lia ].
    apply (shortlist_short (extract_score fz command)).
  - intros Hnone. subst alts. unfold _suggest_alternatives. rewrite Hnone. reflexivity.
  - intros fz Hfz. rewrite (Hshape fz Hfz).
    split; [ reflexivity | split ].
    + intros a. apply shortlist_sound.
    + intros o. apply shortlist_cut.
Qed.
End Selection.

(** *** Concrete runs *)

(** Neither optional library installed. *)
Definition nolibs : Libs := {| fuzzy := None; spacy := None |}.

(** The similarity library installed, no NLP. *)
Definition scoring : Libs := {| fuzzy := Some Similarity.reference; spacy := None |}.

Definition plain_tool (n d : string) (c : ToolCategory) : BaseTool unit :=
  {| metadata := LoaderProps.describe n d c;
     tool_module := "desktop_mcp_plugin_builtin_1";
     execute := LoaderProps.done |}.

Definition no_tools : ToolRegistry unit := empty_registry unit.

Definition file_tools : ToolRegistry unit :=
  register (register no_tools
                     (plain_tool "copy_files" "Duplicate documents" FILE_OPERATIONS))
           (plain_tool "move_files" "Relocate documents" FILE_OPERATIONS).

Definition screen_tools : ToolRegistry unit :=
  register no_tools (plain_tool "take_screenshot" "Capture the screen" SYSTEM_CONTROL).

Definition launch (app : string) : ParsedCommand :=
  {| intent := "application"; action := "launch"; entities := [("app", PStr app)];
     confidence := 90; tool_name := Some "open_application";
     parameters := Some [("app_name", PStr app)]; alternatives := None |}.

(** C1 as stated fails.  For ["zzz"] both candidates have confidence 0 and
    the result is neither of them but the [help] command.  For
    ["open take_screenshot"], with the similarity library, the tool-name
    candidate (1.0) is more confident than the pattern candidate (0.9),
    and the pattern candidate is returned. *)
Lemma neither_candidate_returned :
  (_match_patterns nolibs builtin_patterns (normalize "zzz") = Ok unknown_none /\
   _match_tool_names nolibs no_tools (normalize "zzz") = unknown_none /\
   parse_command nolibs no_tools builtin_patterns "zzz" =
     Ok (help nolibs no_tools "zzz") /\
   help nolibs no_tools "zzz" <> unknown_none) /\
  (_match_patterns scoring builtin_patterns (normalize "open take_screenshot") =
     Ok (launch "take") /\
   confidence (_match_tool_names scoring screen_tools (normalize "open take_screenshot")) = 100 /\
   tool_name (_match_tool_names scoring screen_tools (normalize "open take_screenshot")) =
     Some "take_screenshot" /\
   parse_command scoring screen_tools builtin_patterns "open take_screenshot" =
     Ok (launch "take")).
Proof.
  split; [ split; [ | split; [ | split ] ] | split; [ | split; [ | split ] ] ];
    try (vm_compute; reflexivity).
  vm_compute. discriminate.
Qed.

Lemma parse_command_selection_witness :
  normalize "  Open Calculator " <> EmptyString /\
  _match_patterns nolibs builtin_patterns (normalize "  Open Calculator ") =
    Ok (launch "calculator") /\
  parse_command nolibs no_tools builtin_patterns "  Open Calculator " =
    Ok (launch "calculator").
Proof.
  assert (Hne : normalize "  Open Calculator " <> EmptyString) by (vm_compute; discriminate).
  assert (Hp : _match_patterns nolibs builtin_patterns (normalize "  Open Calculator ") =
               Ok (launch "calculator")) by (vm_compute; reflexivity).
  split; [ exact Hne | split; [ exact Hp | ] ].
  destruct (@parse_command_selection unit nolibs no_tools builtin_patterns
                                     "  Open Calculator " Hne) as [Hsel _].
  rewrite (Hsel _ Hp). reflexivity.
Defined.

(** C6 as stated fails.  No stage finds anything for ["lope files"].  Five
    options score above 60: ["copy files"] and ["move files"] 80,
    [copy_files], [move_files] and ["list files"] 70.  Only three are
    returned; [move_files] is left out. *)
Lemma suggestions_are_capped :
  _match_patterns scoring builtin_patterns (normalize "lope files") = Ok unknown_none /\
  _match_tool_names scoring file_tools (normalize "lope files") = unknown_none /\
  parse_command scoring file_tools builtin_patterns "lope files" =
    Ok {| intent := "unknown"; action := "help";
          entities := [("original_command", PStr "lope files")]; confidence := 0;
          tool_name := None; parameters := None;
          alternatives := Some ["copy files"; "move files"; "copy_files"] |} /\
  map (extract_score Similarity.reference "lope files")
      (dict_keys (tools file_tools) ++ common_commands)%list =
    [70; 70; 55; 36; 70; 30; 80; 80; 30; 17] /\
  In "move_files" (dict_keys (tools file_tools) ++ common_commands)%list /\
  extract_score Similarity.reference "lope files" "move_files" = 70 /\
  ~ In "move_files" ["copy files"; "move files"; "copy_files"].
Proof.
  split; [ | split; [ | split; [ | split; [ | split; [ | split ] ] ] ] ];
    try (vm_compute; reflexivity).
  - vm_compute. tauto.
  - simpl. intros [H | [H | [H | []]]]; discriminate H.
Qed.

Lemma parse_command_unknown_witness :
  (normalize "lope files" <> EmptyString /\
   _match_patterns scoring builtin_patterns (normalize "lope files") = Ok unknown_none /\
   confidence unknown_none < 30 /\
   confidence (_parse_with_nlp scoring file_tools (normalize "lope files")) < 30 /\
   confidence (_match_tool_names scoring file_tools (normalize "lope files")) < 30) /\
  parse_command scoring file_tools builtin_patterns "lope files" =
    Ok {| intent := "unknown"; action := "help";
          entities := [("original_command", PStr "lope files")]; confidence := 0;
          tool_name := None; parameters := None;
          alternatives := Some ["copy files"; "move files"; "copy_files"] |}.
Proof.
  assert (Hne : normalize "lope files" <> EmptyString) by (vm_compute; discriminate).
  assert (Hp : _match_patterns scoring builtin_patterns (normalize "lope files") =
               Ok unknown_none) by (vm_compute; reflexivity).
  assert (H0 : confidence unknown_none < 30) by (simpl; lia).
  assert (Hn : confidence (_parse_with_nlp scoring file_tools (normalize "lope files")) < 30)
    by (apply Nat.ltb_lt; vm_compute; reflexivity).
  assert (Ht : confidence (_match_tool_names scoring file_tools (normalize "lope files")) < 30)
    by (apply Nat.ltb_lt; vm_compute; reflexivity).
  split; [ repeat split; assumption | ].
  destruct (@parse_command_unknown unit scoring file_tools builtin_patterns
                                   "lope files" unknown_none Hne Hp H0 Hn Ht)
    as [Hres _].
  rewrite Hres. vm_compute. reflexivity.
Defined.

(** *** ["open calculator"] *)

Section OpenCalculator.
Variable W : Type.
Variable libs : Libs.
Variable reg : ToolRegistry W.

(** With the similarity library present, no example of the patterns [ps]
    scores above [bound] against [command]. *)
Definition examples_within (ps : list CommandPattern) (command : string) (bound : nat)
  : Prop :=
  forall fz, fuzzy libs = Some fz ->
             forall p ex, In p ps -> In ex (cp_examples p) ->
                          ratio fz command (lower ex) <= bound.

Lemma fuzzy_fold_keeps (fz : Fuzzy) (command : string) (p : CommandPattern) (b : best)
      (exs : list string) :
  (forall ex, In ex exs -> ratio fz command (lower ex) <= snd b) ->
  fold_left (fuzzy_step fz command p) exs b = b.
Proof.
  induction exs as [ | ex exs IH]; intros H; simpl; [ reflexivity | ].
  assert (Hstep : fuzzy_step fz command p b ex = b).
  { unfold fuzzy_step.
    replace (snd b <? ratio fz command (lower ex)) with false.
    - rewrite andb_false_r. reflexivity.
    - symmetry. apply Nat.ltb_ge. apply H. left. reflexivity. }
  rewrite Hstep. apply IH. intros ex' Hin. apply H. right. exact Hin.
Qed.

Lemma pattern_loop_keeps (ps : list CommandPattern) (command : string) (b : best) :
  (forall p, In p ps -> regex_step command b p = Ok b) ->
  examples_within ps command (snd b) ->
  pattern_loop libs ps command b = Ok b.
Proof.
  induction ps as [ | p ps IH]; intros Hre Hex; simpl; [ reflexivity | ].
  unfold pattern_step. rewrite (Hre p (or_introl eq_refl)). simpl.
  assert (Hstep : examples_step libs command b p = b).
  { unfold examples_step. destruct (fuzzy libs) as [fz | ] eqn:Hfz; [ | reflexivity ].
    apply fuzzy_fold_keeps. intros ex Hin.
    exact (Hex fz Hfz p ex (or_introl eq_refl) Hin). }
  rewrite Hstep. apply IH.
  - intros q Hq. apply Hre. right. exact Hq.
  - intros fz Hfz q ex Hq Hin. exact (Hex fz Hfz q ex (or_intror Hq) Hin).
Qed.

Lemma pattern_loop_first (p : CommandPattern) (ps : list CommandPattern)
      (command : string) (b0 b : best) :
  regex_step command b0 p = Ok b ->
  (forall q, In q ps -> regex_step command b q = Ok b) ->
  examples_within (p :: ps) command (snd b) ->
  pattern_loop libs (p :: ps) command b0 = Ok b.
Proof.
  intros Hfirst Hrest Hex. simpl. unfold pattern_step. rewrite Hfirst. simpl.
  assert (Hstep : examples_step libs command b p = b).
  { unfold examples_step. destruct (fuzzy libs) as [fz | ] eqn:Hfz; [ | reflexivity ].
    apply fuzzy_fold_keeps. intros ex Hin.
    exact (Hex fz Hfz p ex (or_introl eq_refl) Hin). }
  rewrite Hstep. apply pattern_loop_keeps; [ exact Hrest | ].
  intros fz Hfz q ex Hq Hin. exact (Hex fz Hfz q ex (or_intror Hq) Hin).
Qed.

(** C2.  With the built-in patterns, ["open calculator"] resolves to
    [open_application] with [app_name = "calculator"] at confidence 0.9,
    whatever the registry holds and whether or not the NLP library is
    there; when the similarity library is present it must not score an
    example phrasing above 0.9 against the command (no phrasing of the
    built-in table comes close). *)
Theorem open_calculator :
  examples_within builtin_patterns "open calculator" 90 ->
  exists pc,
    parse_command libs reg builtin_patterns "open calculator" = Ok pc /\
    tool_name pc = Some "open_application" /\
    parameters pc = Some [("app_name", PStr "calculator")] /\
    90 <= confidence pc.
Proof.
  intros Hex. exists (launch "calculator").
  split; [ | split; [ reflexivity | split; [ reflexivity | simpl; lia ] ] ].
  assert (Hne : normalize "open calculator" <> EmptyString) by (vm_compute; discriminate).
  rewrite (@parse_command_resolve W libs reg builtin_patterns "open calculator" Hne).
  change (normalize "open calculator") with "open calculator".
  assert (Hp : _match_patterns libs builtin_patterns "open calculator" =
               Ok (launch "calculator")).
  { unfold _match_patterns, builtin_patterns.
    rewrite (@pattern_loop_first _ _ "open calculator" (None, 0)
                                 (Some (launch "calculator"), 90)).
    - reflexivity.
    - vm_compute. reflexivity.
    - intros q Hq. simpl in Hq.
      repeat (destruct Hq as [<- | Hq]; [ vm_compute; reflexivity | ]).
      destruct Hq.
    - exact Hex. }
  rewrite (@resolve_selection W libs reg builtin_patterns "open calculator" _ Hp).
  reflexivity.
Qed.
End OpenCalculator.

Lemma open_calculator_witness :
  examples_within scoring builtin_patterns "open calculator" 90 /\
  parse_command scoring file_tools builtin_patterns "open calculator" =
    Ok (launch "calculator").
Proof.
  assert (Hex : examples_within scoring builtin_patterns "open calculator" 90).
  { intros fz Hfz p ex Hp Hin. inversion Hfz; subst fz. clear Hfz.
    apply Nat.leb_le. simpl in Hp.
    repeat (destruct Hp as [<- | Hp];
            [ simpl in Hin;
              repeat (destruct Hin as [<- | Hin]; [ vm_compute; reflexivity | ]);
              destruct Hin | ]).
    destruct Hp. }
  split; [ exact Hex | ].
  destruct (@open_calculator unit scoring file_tools Hex) as (pc & Hres & _).
  rewrite Hres. apply f_equal.
  assert (Hc : parse_command scoring file_tools builtin_patterns "open calculator" =
               Ok (launch "calculator")) by (vm_compute; reflexivity).
  rewrite Hc in Hres. inversion Hres. reflexivity.
Defined.

(** *** Everything is read off the normalised command *)

Local Unset Implicit Arguments.

Lemma normalize_idem (s : string) : normalize (normalize s) = normalize s.
Proof.
  unfold normalize. rewrite strip_lower, lower_idem, strip_idem. reflexivity.
Qed.

Lemma no_upper_normalize (s : string) : no_upper (normalize s) = true.
Proof. apply no_upper_lower. Qed.

Lemma lower_vals_sset (d : dict) (k : string) (v : pyval) :
  lower_vals d = true -> lower_val v = true -> lower_vals (sset d k v) = true.
Proof.
  unfold lower_vals, sset. intros Hd Hv.
  induction d as [ | [k' v'] d IH]; simpl in *.
  - rewrite Hv. reflexivity.
  - apply andb_prop in Hd. destruct Hd as [Hv' Hd].
    destruct (String.eqb k' k); simpl.
    + rewrite Hv, Hd. reflexivity.
    + rewrite Hv', (IH Hd). reflexivity.
Qed.

Lemma lower_vals_sget (d : dict) (k : string) (v : pyval) :
  lower_vals d = true -> sget d k = Some v -> lower_val v = true.
Proof.
  unfold lower_vals, sget. intros Hd.
  induction d as [ | [k' v'] d IH]; simpl in *; [ discriminate | ].
  apply andb_prop in Hd. destruct Hd as [Hv' Hd].
  destruct (String.eqb k' k).
  - intros H; inversion H; subst; exact Hv'.
  - exact (IH Hd).
Qed.

Lemma lower_vals_update (e : dict) :
  forall d, lower_vals d = true -> lower_vals e = true ->
            lower_vals (dict_update d e) = true.
Proof.
  unfold dict_update.
  induction e as [ | [k v] e IH]; intros d Hd He; simpl; [ exact Hd | ].
  unfold lower_vals in He. simpl in He. apply andb_prop in He. destruct He as [Hv He].
  apply IH; [ apply lower_vals_sset; assumption | exact He ].
Qed.

Lemma lower_val_strs (l : list string) :
  Forall (fun x => no_upper x = true) l -> lower_val (strs l) = true.
Proof.
  unfold strs. induction 1 as [ | x l Hx Hl IH]; simpl in *; [ reflexivity | ].
  rewrite Hx, IH. reflexivity.
Qed.

Lemma lower_val_ints (l : list string) :
  lower_val (PList (map (fun n => PInt (int_of_digits 0%Z n)) l)) = true.
Proof. induction l as [ | x l IH]; simpl in *; [ reflexivity | exact IH ]. Qed.

Lemma findall_lower (icase : bool) (c : Re.compiled) (s : string) :
  no_upper s = true ->
  Forall (fun x => no_upper x = true) (ReMatch.findall icase c s).
Proof.
  intros Hs. unfold ReMatch.findall. apply Forall_forall. intros x Hx.
  apply in_map_iff in Hx. destruct Hx as ([[a b] caps] & <- & _). simpl.
  destruct caps as [ | [[i j] | ] caps]; [ | | reflexivity ];
    apply no_upper_slice, Hs.
Qed.

Lemma findall_lit_lower (icase : bool) (p s : string) :
  no_upper s = true -> Forall (fun x => no_upper x = true) (findall_lit icase p s).
Proof.
  intros Hs. unfold findall_lit.
  destruct (Re.compile p); [ apply findall_lower, Hs | constructor ].
Qed.

Lemma first_paths_lower (ps : list string) (s : string) :
  no_upper s = true -> Forall (fun x => no_upper x = true) (first_paths ps s).
Proof.
  intros Hs. induction ps as [ | p ps IH]; simpl; [ constructor | ].
  pose proof (findall_lit_lower false p s Hs) as H.
  destruct (findall_lit false p s); [ exact IH | exact H ].
Qed.

Lemma set_if_lower (l : list string) (k : string) (v : pyval) (d : dict) :
  lower_vals d = true -> lower_val v = true -> lower_vals (set_if l k v d) = true.
Proof.
  intros Hd Hv. unfold set_if. destruct l; [ exact Hd | apply lower_vals_sset; assumption ].
Qed.

Lemma common_entities_lower (command : string) :
  no_upper command = true -> lower_vals (_extract_common_entities command) = true.
Proof.
  intros Hs. unfold _extract_common_entities.
  repeat apply set_if_lower; try reflexivity;
    try (apply lower_val_strs;
         first [ apply first_paths_lower | apply findall_lit_lower ]; exact Hs).
  apply lower_val_ints.
Qed.

Lemma group0_lower (s : string) (sp : ReMatch.span) :
  no_upper s = true -> lower_val (group0 (ReMatch.groups s sp)) = true.
Proof.
  intros Hs. unfold ReMatch.groups, group0.
  destruct (snd sp) as [ | [[a b] | ] caps]; simpl; try reflexivity.
  apply no_upper_slice, Hs.
Qed.

Lemma match_entities_lower (s : string) (sp : ReMatch.span) (p : CommandPattern) :
  no_upper s = true ->
  lower_vals (_extract_entities_from_match (ReMatch.groups s sp) p) = true.
Proof.
  intros Hs. unfold _extract_entities_from_match.
  pose proof (group0_lower s sp Hs) as Hg.
  repeat match goal with
         | |- context [if ?c then _ else _] => destruct c
         end;
    repeat apply lower_vals_sset; try reflexivity; exact Hg.
Qed.

Lemma map_parameters_lower (entities : dict) (mapping : list (string * string)) :
  lower_vals entities = true -> lower_vals (_map_parameters entities mapping) = true.
Proof.
  intros He. unfold _map_parameters.
  assert (H : forall acc, lower_vals acc = true ->
                          lower_vals (fold_left
                                        (fun parameters km =>
                                           match sget entities (fst km) with
                                           | Some v => sset parameters (snd km) v
                                           | None => parameters
                                           end) mapping acc) = true).
  { induction mapping as [ | km mapping IH]; intros acc Ha; simpl; [ exact Ha | ].
    apply IH. destruct (sget entities (fst km)) as [v | ] eqn:E; [ | exact Ha ].
    apply lower_vals_sset; [ exact Ha | exact (lower_vals_sget _ _ _ He E) ]. }
  apply H. reflexivity.
Qed.

Lemma index0_lower (v : pyval) : lower_val v = true -> lower_val (index0 v) = true.
Proof.
  destruct v as [ | s | z | q | b | l | d]; simpl; try reflexivity.
  - destruct s as [ | c s]; simpl; [ reflexivity | ].
    intros H. apply andb_prop in H. destruct H as [Hc _]. rewrite Hc. reflexivity.
  - destruct l as [ | x l]; simpl; [ reflexivity | ].
    intros H. apply andb_prop in H. tauto.
Qed.

Lemma present_lower (entities : dict) (k : string) (v : pyval) :
  lower_vals entities = true -> present entities k = Some v -> lower_val v = true.
Proof.
  intros He. unfold present. destruct (sget entities k) as [v' | ] eqn:E; [ | discriminate ].
  destruct (truthy v'); [ | discriminate ].
  intros H; inversion H; subst. exact (lower_vals_sget _ _ _ He E).
Qed.

Lemma put_first_lower (entities ps : dict) (k n : string) :
  lower_vals entities = true -> lower_vals ps = true ->
  lower_vals match present entities k with
             | Some v => sset ps n (index0 v)
             | None => ps
             end = true.
Proof.
  intros He Hp. destruct (present entities k) as [v | ] eqn:E; [ | exact Hp ].
  apply lower_vals_sset; [ exact Hp | ].
  apply index0_lower. exact (present_lower _ _ _ He E).
Qed.

Lemma put_value_lower (entities ps : dict) (k n : string) :
  lower_vals entities = true -> lower_vals ps = true ->
  lower_vals match sget entities k with
             | Some v => sset ps n v
             | None => ps
             end = true.
Proof.
  intros He Hp. destruct (sget entities k) as [v | ] eqn:E; [ | exact Hp ].
  apply lower_vals_sset; [ exact Hp | exact (lower_vals_sget _ _ _ He E) ].
Qed.

Lemma infer_one_lower (entities : dict) (prm : ToolParameter) (ps : dict) :
  lower_vals entities = true -> lower_vals ps = true ->
  lower_vals (infer_one entities prm ps) = true.
Proof.
  intros He Hp. unfold infer_one.
  destruct (contains "path" (lower (name prm)) || contains "file" (lower (name prm))).
  { destruct (present entities "file_paths") as [v | ] eqn:E.
    - apply lower_vals_sset; [ exact Hp | ].
      apply index0_lower. exact (present_lower _ _ _ He E).
    - apply put_value_lower; assumption. }
  destruct (contains "url" (lower (name prm))).
  { apply put_first_lower; assumption. }
  destruct (contains "text" (lower (name prm)) || contains "message" (lower (name prm))).
  { destruct (sget entities "text") as [v | ] eqn:E.
    - apply lower_vals_sset; [ exact Hp | exact (lower_vals_sget _ _ _ He E) ].
    - apply put_first_lower; assumption. }
  destruct (contains "number" (lower (name prm)) || contains "count" (lower (name prm))).
  { apply put_first_lower; assumption. }
  exact Hp.
Qed.


Section Lowercase.
Variable W : Type.
Variable libs : Libs.
Variable reg : ToolRegistry W.

(** No entity and no parameter of [pc] holds an upper-case letter. *)
Definition lowpc (pc : ParsedCommand) : Prop :=
  lower_vals (entities pc) = true /\
  forall d, parameters pc = Some d -> lower_vals d = true.

Lemma unknown_lower : lowpc unknown_none.
Proof. split; [ reflexivity | intros d H; discriminate H ]. Qed.

Lemma infer_parameters_lower (entities : dict) (tn : option string) :
  lower_vals entities = true -> lower_vals (_infer_parameters reg entities tn) = true.
Proof.
  intros He. unfold _infer_parameters.
  destruct tn as [[ | c n] | ]; try reflexivity.
  destruct (get_tool reg (String c n)) as [tool | ]; [ | reflexivity ].
  assert (H : forall prms acc,
             lower_vals acc = true ->
             lower_vals (fold_left (fun ps prm => infer_one entities prm ps) prms acc) = true).
  { induction prms as [ | prm prms IH]; intros acc Ha; simpl; [ exact Ha | ].
    apply IH, infer_one_lower; assumption. }
  apply H. reflexivity.
Qed.

Lemma candidate_lower (p : CommandPattern) (entities : dict) (c : nat) :
  lower_vals entities = true -> lowpc (candidate p entities c).
Proof.
  intros He. split; [ exact He | ].
  cbn [parameters candidate]. intros d H. injection H as <-. apply map_parameters_lower, He.
Qed.

Definition best_lower (b : best) : Prop := forall c, fst b = Some c -> lowpc c.

Lemma fuzzy_step_lower (fz : Fuzzy) (command : string) (p : CommandPattern)
      (b : best) (example : string) :
  no_upper command = true -> best_lower b ->
  best_lower (fuzzy_step fz command p b example).
Proof.
  intros Hs Hb. unfold fuzzy_step.
  destruct ((80 <? ratio fz command (lower example)) &&
            (snd b <? ratio fz command (lower example))); [ | exact Hb ].
  intros c Hc. simpl in Hc. inversion Hc; subst.
  apply candidate_lower. unfold _extract_entities_fuzzy.
  apply common_entities_lower, Hs.
Qed.

Lemma examples_step_lower (command : string) (p : CommandPattern) (b : best) :
  no_upper command = true -> best_lower b ->
  best_lower (examples_step libs command b p).
Proof.
  intros Hs. unfold examples_step. destruct (fuzzy libs) as [fz | ];
    [ | exact (fun H => H) ].
  generalize b. induction (cp_examples p) as [ | ex exs IH]; intros b0 Hb; simpl.
  - exact Hb.
  - apply IH, fuzzy_step_lower; assumption.
Qed.

Lemma regex_step_lower (command : string) (p : CommandPattern) (b b' : best) :
  no_upper command = true -> best_lower b ->
  regex_step command b p = Ok b' -> best_lower b'.
Proof.
  intros Hs Hb. unfold regex_step.
  destruct (Re.compile (_convert_pattern_to_regex (pattern p))) as [rx | ];
    [ | discriminate ].
  destruct (ReMatch.search true rx command) as [sp | ].
  - destruct (snd b <? 90); intros H; inversion H; subst; [ | exact Hb ].
    intros c Hc. simpl in Hc. inversion Hc; subst.
    apply candidate_lower, match_entities_lower, Hs.
  - intros H; inversion H; subst; exact Hb.
Qed.

Lemma pattern_loop_lower (ps : list CommandPattern) (command : string) :
  no_upper command = true ->
  forall b b', best_lower b -> pattern_loop libs ps command b = Ok b' -> best_lower b'.
Proof.
  intros Hs. induction ps as [ | p ps IH]; intros b b' Hb; simpl.
  - intros H; inversion H; subst; exact Hb.
  - unfold pattern_step.
    destruct (regex_step command b p) as [b1 | e] eqn:E; simpl; [ | discriminate ].
    apply IH, examples_step_lower; [ exact Hs | ].
    exact (regex_step_lower command p b b1 Hs Hb E).
Qed.

Lemma match_patterns_lower (ps : list CommandPattern) (command : string)
      (pr : ParsedCommand) :
  no_upper command = true ->
  _match_patterns libs ps command = Ok pr -> lowpc pr.
Proof.
  intros Hs. unfold _match_patterns.
  destruct (pattern_loop libs ps command (None, 0)) as [b | e] eqn:E; simpl;
    [ | discriminate ].
  intros H; inversion H; subst.
  assert (Hb : best_lower b).
  { apply (pattern_loop_lower ps command Hs (None, 0) b); [ | exact E ].
    intros c Hc. discriminate Hc. }
  destruct (fst b) as [c | ] eqn:Ef; [ apply Hb; exact Ef | apply unknown_lower ].
Qed.

Lemma parse_with_nlp_lower (command : string) :
  no_upper command = true -> lowpc (_parse_with_nlp libs reg command).
Proof.
  intros Hs. unfold _parse_with_nlp.
  destruct (spacy libs) as [nlp | ]; [ | apply unknown_lower ].
  set (ents := fold_left _ (doc_ents (nlp command)) []).
  assert (He : lower_vals ents = true).
  { subst ents. generalize (@nil (string * pyval)) (eq_refl : lower_vals [] = true).
    induction (doc_ents (nlp command)) as [ | ent l IH]; intros acc Ha; simpl;
      [ exact Ha | ].
    apply IH, lower_vals_sset; [ exact Ha | ].
    simpl. apply no_upper_slice, Hs. }
  assert (Hall : lower_vals (dict_update ents (_extract_common_entities command)) = true).
  { apply lower_vals_update; [ exact He | apply common_entities_lower, Hs ]. }
  destruct (_determine_intent (nlp command)) as [[i a] c].
  split; [ exact Hall | ].
  cbn [parameters]. intros d H. injection H as <-.
  exact (infer_parameters_lower _ (_find_best_tool_match reg i a _) Hall).
Qed.

Lemma match_tool_names_lower (command : string) :
  no_upper command = true -> lowpc (_match_tool_names libs reg command).
Proof.
  intros Hs. unfold _match_tool_names.
  destruct (fold_left (tool_step libs command) (tools reg) (None, 0)) as [[tool | ] c];
    [ | apply unknown_lower ].
  split; [ apply common_entities_lower, Hs | ].
  cbn [parameters]. intros d H. injection H as <-.
  exact (infer_parameters_lower (_extract_common_entities command)
                                (Some (md_name (metadata tool)))
                                (common_entities_lower command Hs)).
Qed.

Lemma help_lower (command : string) :
  no_upper command = true -> lowpc (help libs reg command).
Proof.
  intros Hs. split; [ | intros d H; discriminate H ].
  unfold lower_vals. simpl. rewrite Hs. reflexivity.
Qed.

Lemma selected_lower (pr : ParsedCommand) (command : string) :
  no_upper command = true -> lowpc pr -> lowpc (selected libs reg pr command).
Proof.
  intros Hs Hp. unfold selected.
  destruct (70 <? confidence pr); [ exact Hp | ].
  destruct (nlp_available libs &&
            (confidence pr <? confidence (_parse_with_nlp libs reg command)));
    [ apply parse_with_nlp_lower, Hs | ].
  destruct (confidence pr <? confidence (_match_tool_names libs reg command));
    [ apply match_tool_names_lower, Hs | apply help_lower, Hs ].
Qed.

(** C8.  [parse_command] sees its argument only through
    [strip().lower()]: the result for [s] is the result for the trimmed
    and lower-cased [s].  So white space put around [s] does not change
    the result, and neither does writing [s] in capitals.  Every string
    among the entities and the parameters of the result is free of
    upper-case letters. *)
Theorem parse_command_normalized (ps : list CommandPattern) (s : string) :
  parse_command libs reg ps s = parse_command libs reg ps (lower (strip s)) /\
  (forall a b, blank a = true -> blank b = true ->
               parse_command libs reg ps (a ++ s ++ b) = parse_command libs reg ps s) /\
  parse_command libs reg ps (capitals s) = parse_command libs reg ps s /\
  (forall t, lower t = lower s ->
             parse_command libs reg ps t = parse_command libs reg ps s) /\
  (forall pc,
      parse_command libs reg ps s = Ok pc ->
      lower_vals (entities pc) = true /\
      forall d, parameters pc = Some d -> lower_vals d = true).
Proof.
  assert (Hcase : forall t, lower t = lower s ->
                            parse_command libs reg ps t = parse_command libs reg ps s).
  { intros t Ht. unfold parse_command, normalize.
    rewrite <- (strip_lower t), <- (strip_lower s), Ht. reflexivity. }
  split; [ | split; [ | split; [ | split ] ] ].
  - change (lower (strip s)) with (normalize s).
    unfold parse_command. rewrite normalize_idem. reflexivity.
  - intros a b Ha Hb. unfold parse_command, normalize.
    rewrite (strip_padded a s b Ha Hb). reflexivity.
  - apply Hcase, lower_capitals.
  - exact Hcase.
  - intros pc. unfold parse_command.
    pose proof (no_upper_normalize s) as Hs.
    destruct (normalize s) as [ | c r] eqn:En.
    + intros H; inversion H; subst. apply unknown_lower.
    + destruct (_match_patterns libs ps (String c r)) as [pr | e] eqn:Ep.
      * rewrite (@resolve_selection W libs reg ps (String c r) pr Ep).
        intros H; inversion H; subst.
        apply selected_lower; [ exact Hs | ].
        exact (match_patterns_lower ps (String c r) pr Hs Ep).
      * rewrite (@resolve_raises W libs reg ps (String c r) e Ep). discriminate.
Qed.
End Lowercase.

(** A tool for the pattern [search for {text}]. *)
Definition web_tools : ToolRegistry unit :=
  register no_tools (plain_tool "search_web" "Search the web" WEB_AUTOMATION).

(** U+00C9 and U+00E9, the capital and the small e with an acute accent;
    U+00A0, the no-break space. *)
Definition E_acute : ascii := ascii_of_nat 201.
Definition e_acute : ascii := ascii_of_nat 233.
Definition nbsp : ascii := ascii_of_nat 160.

(** [" Search For CAFÉ Bar  "] and what [{text}] captures of it. *)
Definition shouted : string :=
  " Search For CAF" ++ String E_acute (" Bar" ++ String nbsp " ").
Definition captured : string := "caf" ++ String e_acute " bar".

Definition searching (text : string) : ParsedCommand :=
  {| intent := "web"; action := "search"; entities := [("text", PStr text)];
     confidence := 90; tool_name := Some "search_web";
     parameters := Some [("query", PStr text)]; alternatives := None |}.

Lemma parse_command_normalized_witness :
  parse_command scoring web_tools builtin_patterns shouted = Ok (searching captured) /\
  resolve scoring web_tools builtin_patterns shouted <> Ok (searching captured) /\
  parse_command scoring web_tools builtin_patterns
                (String nbsp "" ++ ("search for caf" ++ String e_acute " bar") ++ "  ") =
    Ok (searching captured) /\
  parse_command scoring web_tools builtin_patterns
                ("SEARCH FOR CAF" ++ String E_acute " BAR") = Ok (searching captured) /\
  lower_vals [("text", PStr captured)] = true /\
  lower_vals [("query", PStr captured)] = true /\
  lower_vals [("text", PStr shouted)] = false.
Proof.
  assert (Hres : parse_command scoring web_tools builtin_patterns shouted =
                 Ok (searching captured)) by (vm_compute; reflexivity).
  assert (Hs : parse_command scoring web_tools builtin_patterns
                             ("search for caf" ++ String e_acute " bar") =
               Ok (searching captured)) by (vm_compute; reflexivity).
  destruct (parse_command_normalized unit scoring web_tools builtin_patterns shouted)
    as (_ & _ & _ & _ & Hlow).
  destruct (parse_command_normalized unit scoring web_tools builtin_patterns
                                     ("search for caf" ++ String e_acute " bar"))
    as (_ & Hpad & Hcap & _ & _).
  destruct (Hlow _ Hres) as [He Hp].
  split; [ exact Hres | ].
  split; [ vm_compute; discriminate | ].
  split; [ rewrite (Hpad (String nbsp "") "  " eq_refl eq_refl); exact Hs | ].
  split; [ rewrite <- Hs; exact Hcap | ].
  split; [ exact He | ].
  split; [ exact (Hp _ eq_refl) | reflexivity ].
Defined.

End ParserProps.

(* ================================================================== *)
(** * Further properties *)

(** ** The registry *)

Module RegistryExtras.
Import PyStr Py BaseToolM PluginManagerM LoaderProps RegistryProps.
Local Open Scope string_scope.
Local Open Scope nat_scope.
Local Unset Implicit Arguments.

Lemma sget_set_same (V : Type) (d : list (string * V)) (k : string) (v : V) :
  sget (sset d k v) k = Some v.
Proof. exact (@dict_get_set_same _ _ String.eqb String.eqb_eq d k v). Qed.

Lemma sget_set_other (V : Type) (d : list (string * V)) (k k' : string) (v : V) :
  k <> k' -> sget (sset d k v) k' = sget d k'.
Proof. exact (@dict_get_set_other _ _ String.eqb String.eqb_eq d k k' v). Qed.

Lemma keys_sset (V : Type) (d : list (string * V)) (k : string) (v : V) :
  dict_keys (sset d k v) =
  if str_mem k (dict_keys d) then dict_keys d else (dict_keys d ++ [k])%list.
Proof.
  unfold sset, dict_keys, str_mem.
  induction d as [ | [k' v'] d IH]; simpl; [ reflexivity | ].
  rewrite (String.eqb_sym k k').
  destruct (String.eqb k' k); simpl; [ reflexivity | ].
  rewrite IH. destruct (existsb (String.eqb k) (map fst d)); reflexivity.
Qed.

Lemma keys_sdel_sub (V : Type) (d : list (string * V)) (k x : string) :
  In x (dict_keys (sdel d k)) -> In x (dict_keys d).
Proof.
  unfold sdel, dict_keys.
  induction d as [ | [k' v'] d IH]; simpl; [ tauto | ].
  destruct (String.eqb k' k); simpl; [ tauto | ].
  intros [H | H]; [ left; exact H | right; exact (IH H) ].
Qed.

Lemma nodup_sdel (V : Type) (d : list (string * V)) (k : string) :
  NoDup (dict_keys d) -> NoDup (dict_keys (sdel d k)).
Proof.
  unfold sdel, dict_keys.
  induction d as [ | [k' v'] d IH]; simpl; intros Hn; [ exact Hn | ].
  inversion Hn as [ | x l Hnot Hrest]; subst.
  destruct (String.eqb k' k); simpl; [ exact Hrest | ].
  constructor; [ | exact (IH Hrest) ].
  intros Hin. apply Hnot. exact (keys_sdel_sub V d k k' Hin).
Qed.

Lemma nodup_sset (V : Type) (d : list (string * V)) (k : string) (v : V) :
  NoDup (dict_keys d) -> NoDup (dict_keys (sset d k v)).
Proof.
  intros Hn. rewrite keys_sset.
  destruct (str_mem k (dict_keys d)) eqn:E; [ exact Hn | ].
  apply NoDup_app; [ exact Hn | constructor; [ intros [] | constructor ] | ].
  intros x Hx [<- | []].
  apply str_mem_In in Hx. congruence.
Qed.

Section Keys.
Variable W : Type.

(** X1.  Lookup after registration: the name of the registered tool now
    maps to that tool, every other name maps to what it mapped to. *)
Theorem register_then_get (reg : ToolRegistry W) (t : BaseTool W) (n : string) :
  get_tool (register reg t) n =
  if String.eqb (md_name (metadata t)) n then Some t else get_tool reg n.
Proof.
  unfold get_tool.
  change (tools (register reg t)) with (sset (tools reg) (md_name (metadata t)) t).
  destruct (String.eqb_spec (md_name (metadata t)) n) as [<- | Hne].
  - apply sget_set_same.
  - apply sget_set_other. exact Hne.
Qed.

Lemma register_all_nodup (ts : list (BaseTool W)) :
  forall reg, NoDup (list_tools reg) -> NoDup (list_tools (register_all reg ts)).
Proof.
  induction ts as [ | t ts IH]; intros reg Hn; simpl; [ exact Hn | ].
  apply IH. unfold list_tools.
  change (tools (register reg t)) with (sset (tools reg) (md_name (metadata t)) t).
  apply nodup_sset, Hn.
Qed.

Lemma delete_all_nodup (names : list string) :
  forall d : list (string * BaseTool W),
    NoDup (dict_keys d) -> NoDup (dict_keys (fold_left (fun ts n => sdel ts n) names d)).
Proof.
  induction names as [ | n names IH]; intros d Hn; simpl; [ exact Hn | ].
  apply IH, nodup_sdel, Hn.
Qed.

Lemma remove_old_nodup (pm : PluginManager W) (path : string) :
  NoDup (list_tools (registry pm)) ->
  NoDup (list_tools (registry (remove_old_tools pm path))).
Proof.
  intros Hn. unfold remove_old_tools.
  destruct (sget (loaded_modules pm) path) as [old | ]; [ | exact Hn ].
  unfold list_tools. simpl. apply delete_all_nodup, Hn.
Qed.

Lemma apply_op_nodup (pm : PluginManager W) (o : op W) :
  NoDup (list_tools (registry pm)) ->
  NoDup (list_tools (registry (apply_op pm o))).
Proof.
  intros Hn. destruct o as [t | fs path | fs]; simpl.
  - exact (register_all_nodup [t] (registry pm) Hn).
  - destruct (@reload_registry W pm fs path) as (ts & Hts). rewrite Hts.
    apply register_all_nodup, remove_old_nodup, Hn.
  - destruct (@discover_outcome W pm fs) as (Hreg & _).
    cbv zeta in Hreg. rewrite Hreg. apply register_all_nodup, Hn.
Qed.

Lemma run_nodup (ops : list (op W)) : NoDup (list_tools (registry (run ops))).
Proof.
  unfold run.
  assert (H : forall pm, NoDup (list_tools (registry pm)) ->
                         NoDup (list_tools (registry (fold_left (@apply_op W) ops pm)))).
  { induction ops as [ | o ops IH]; intros pm Hn; simpl; [ exact Hn | ].
    apply IH, apply_op_nodup, Hn. }
  apply H. constructor.
Qed.

(** X2.  Names are never duplicated.  Registering under a name that is
    already a key leaves the list of names (and so the size of the
    registry) as it was, a new name goes last; and after any sequence of
    registrations, reloads and discovery passes [list_tools] holds every
    name once. *)
Theorem list_tools_unique :
  (forall (reg : ToolRegistry W) (t : BaseTool W),
      list_tools (register reg t) =
      if str_mem (md_name (metadata t)) (list_tools reg)
      then list_tools reg
      else (list_tools reg ++ [md_name (metadata t)])%list) /\
  (forall ops : list (op W), NoDup (list_tools (registry (run ops)))).
Proof.
  split.
  - intros reg t. unfold list_tools.
    change (tools (register reg t)) with (sset (tools reg) (md_name (metadata t)) t).
    apply keys_sset.
  - exact run_nodup.
Qed.
End Keys.

Section Listing.
Variable W : Type.

Lemma sget_of_in (V : Type) (d : list (string * V)) (n : string) (v : V) :
  NoDup (dict_keys d) -> In (n, v) d -> sget d n = Some v.
Proof.
  unfold sget, dict_keys.
  induction d as [ | [k' v'] d IH]; simpl; intros Hn Hin; [ destruct Hin | ].
  inversion Hn as [ | x l Hnot Hrest]; subst.
  destruct Hin as [Heq | Hin].
  - inversion Heq; subst. rewrite String.eqb_refl. reflexivity.
  - destruct (String.eqb_spec k' n) as [-> | Hne]; [ | exact (IH Hrest Hin) ].
    exfalso. apply Hnot. apply in_map_iff. exists (n, v). auto.
Qed.

(** X3.  In every state reached by registrations, reloads and discovery
    passes, a stored tool is stored under its own name, its name is listed
    in the category index under its own category, and
    [get_tools_by_category] returns it for that category. *)
Theorem stored_tools_are_listed (ops : list (op W)) (n : string) (t : BaseTool W) :
  In (n, t) (tools (registry (run ops))) ->
  md_name (metadata t) = n /\
  listed (registry (run ops)) (category (metadata t)) n /\
  In t (get_tools_by_category (registry (run ops)) (category (metadata t))).
Proof.
  intros Hin.
  assert (Hc : covers (registry (run ops))).
  { apply (@fold_covers W). intros ? ? []. }
  destruct (Hc n t Hin) as [Hname Hlisted].
  split; [ exact Hname | split; [ exact Hlisted | ] ].
  destruct Hlisted as (l & Hl & Hnl).
  unfold get_tools_by_category. rewrite Hl.
  apply in_flat_map. exists n. split; [ exact Hnl | ].
  rewrite (sget_of_in _ _ n t (run_nodup W ops) Hin). left. reflexivity.
Qed.

Lemma delete_skips_head (V : Type) (k : string) (v : V) (names : list string) :
  forall d : list (string * V),
    (forall n, In n names -> n <> k) ->
    fold_left (fun ts n => sdel ts n) names ((k, v) :: d) =
    (k, v) :: fold_left (fun ts n => sdel ts n) names d.
Proof.
  induction names as [ | n names IH]; intros d Hne; simpl; [ reflexivity | ].
  unfold sdel at 2. simpl.
  destruct (String.eqb_spec k n) as [E | _].
  - exfalso. apply (Hne n); [ left; reflexivity | symmetry; exact E ].
  - apply IH. intros m Hm. apply Hne. right. exact Hm.
Qed.

Lemma delete_all_filter (V : Type) (f : string * V -> bool) (d : list (string * V)) :
  NoDup (dict_keys d) ->
  fold_left (fun ts n => sdel ts n) (map fst (filter f d)) d =
  filter (fun kv => negb (f kv)) d.
Proof.
  unfold dict_keys.
  induction d as [ | [k v] d IH]; simpl; intros Hn; [ reflexivity | ].
  inversion Hn as [ | x l Hnot Hrest]; subst.
  destruct (f (k, v)); simpl.
  - unfold sdel at 2. simpl. rewrite String.eqb_refl. exact (IH Hrest).
  - rewrite delete_skips_head; [ rewrite (IH Hrest); reflexivity | ].
    intros n Hin <-. apply Hnot.
    apply in_map_iff in Hin. destruct Hin as (kv & Hk & Hin).
    apply filter_In in Hin. apply in_map_iff. exists kv. tauto.
Qed.

(** X4.  The removal step of a reload, in any reachable state: for a path
    that is loaded, exactly the tools whose class belongs to the module
    loaded from that path leave the primary mapping; the tools of other
    units stay, in their order, and the category index is not touched. *)
Theorem reload_removes_the_units_tools (ops : list (op W)) (path old_module : string) :
  sget (loaded_modules (run ops)) path = Some old_module ->
  tools (registry (remove_old_tools (run ops) path)) =
    filter (fun kt => negb (String.eqb (tool_module (snd kt)) old_module))
           (tools (registry (run ops))) /\
  categories (registry (remove_old_tools (run ops) path)) =
    categories (registry (run ops)).
Proof.
  intros Hl. unfold remove_old_tools. rewrite Hl. simpl.
  split; [ | reflexivity ].
  unfold tools_to_remove.
  exact (delete_all_filter _ (fun kt => String.eqb (tool_module (snd kt)) old_module)
                           (tools (registry (run ops))) (run_nodup W ops)).
Qed.
End Listing.

(** A unit loaded from a file, and a tool registered directly. *)
Definition screenshot_tool : BaseTool unit :=
  ParserProps.plain_tool "take_screenshot" "Capture the screen" SYSTEM_CONTROL.

Definition two_sources : list (op unit) :=
  [Reload (disk_with notes_v1) "plugins/notes.py"; Register screenshot_tool].

Lemma stored_tools_are_listed_witness :
  In ("take_screenshot", screenshot_tool) (tools (registry (run two_sources))) /\
  listed (registry (run two_sources)) SYSTEM_CONTROL "take_screenshot" /\
  In screenshot_tool (get_tools_by_category (registry (run two_sources)) SYSTEM_CONTROL).
Proof.
  assert (Hin : In ("take_screenshot", screenshot_tool)
                   (tools (registry (run two_sources)))).
  { right. left. reflexivity. }
  split; [ exact Hin | ].
  destruct (stored_tools_are_listed unit two_sources "take_screenshot" screenshot_tool Hin)
    as (_ & Hl & Hg).
  split; [ exact Hl | exact Hg ].
Defined.

Lemma reload_removes_the_units_tools_witness :
  sget (loaded_modules (run two_sources)) "plugins/notes.py" =
    Some "desktop_mcp_plugin_notes_140101" /\
  list_tools (registry (run two_sources)) = ["notes_add"; "take_screenshot"] /\
  list_tools (registry (remove_old_tools (run two_sources) "plugins/notes.py")) =
    ["take_screenshot"] /\
  categories (registry (remove_old_tools (run two_sources) "plugins/notes.py")) =
    [(CUSTOM, ["notes_add"]); (SYSTEM_CONTROL, ["take_screenshot"])].
Proof.
  assert (Hl : sget (loaded_modules (run two_sources)) "plugins/notes.py" =
               Some "desktop_mcp_plugin_notes_140101") by reflexivity.
  split; [ exact Hl | split; [ reflexivity | ] ].
  destruct (reload_removes_the_units_tools unit two_sources "plugins/notes.py"
                                           "desktop_mcp_plugin_notes_140101" Hl)
    as [Ht Hc].
  split.
  - unfold list_tools. rewrite Ht. reflexivity.
  - rewrite Hc. reflexivity.
Defined.

(** [l1] is [l2] with some members left out. *)
Inductive subseq {A : Type} : list A -> list A -> Prop :=
| subseq_nil : subseq [] []
| subseq_keep (x : A) (l1 l2 : list A) : subseq l1 l2 -> subseq (x :: l1) (x :: l2)
| subseq_drop (x : A) (l1 l2 : list A) : subseq l1 l2 -> subseq l1 (x :: l2).

Lemma filter_subseq (A : Type) (f : A -> bool) (l : list A) : subseq (filter f l) l.
Proof.
  induction l as [ | x l IH]; cbn [filter]; [ constructor | ].
  destruct (f x); constructor; exact IH.
Qed.

Lemma startswith_self (s : string) : startswith s s = true.
Proof.
  induction s as [ | c s IH]; cbn [startswith]; [ reflexivity | ].
  rewrite Ascii.eqb_refl. exact IH.
Qed.

Lemma contains_self (s : string) : contains s s = true.
Proof. destruct s; cbn [contains]; rewrite startswith_self; reflexivity. Qed.

Lemma contains_empty (s : string) : contains EmptyString s = true.
Proof. destruct s; reflexivity. Qed.

Section Search.
Variable W : Type.

(** The query occurs in the name, in the description or in a keyword of
    the tool, all lower-cased. *)
Definition mentions (query : string) (t : BaseTool W) : Prop :=
  contains query (lower (md_name (metadata t))) = true \/
  contains query (lower (md_description (metadata t))) = true \/
  exists keyword, In keyword (keywords (metadata t)) /\
                  contains query (lower keyword) = true.

Lemma matches_query_mentions (query : string) (t : BaseTool W) :
  matches_query query t = true <-> mentions query t.
Proof.
  unfold matches_query, mentions. rewrite !orb_true_iff, existsb_exists. tauto.
Qed.

(** X5.  [search_tools] returns exactly the stored tools whose name,
    description or one of whose keywords contains the query, letter case
    ignored on both sides, in registry order and as often as they are
    stored.  So the case of the query does not matter, a tool is found
    under its own name in any casing, and the empty query returns every
    tool. *)
Theorem search_tools_answers (reg : ToolRegistry W) (query : string) :
  (forall t, In t (search_tools reg query) <->
             In t (map snd (tools reg)) /\ mentions (lower query) t) /\
  subseq (search_tools reg query) (map snd (tools reg)) /\
  search_tools reg (lower query) = search_tools reg query /\
  (forall t, In t (map snd (tools reg)) ->
             lower query = lower (md_name (metadata t)) ->
             In t (search_tools reg query)) /\
  search_tools reg EmptyString = map snd (tools reg).
Proof.
  assert (Hiff : forall t, In t (search_tools reg query) <->
                           In t (map snd (tools reg)) /\ mentions (lower query) t).
  { intros t. unfold search_tools. rewrite filter_In, matches_query_mentions. tauto. }
  split; [ exact Hiff | split; [ | split; [ | split ] ] ].
  - unfold search_tools. apply filter_subseq.
  - unfold search_tools. rewrite StrProps.lower_idem. reflexivity.
  - intros t Hin Hname. apply Hiff. split; [ exact Hin | ].
    left. rewrite Hname. apply contains_self.
  - unfold search_tools. apply ParserProps.filter_all.
    intros t _. unfold matches_query. cbn [lower]. rewrite contains_empty. reflexivity.
Qed.
End Search.

Lemma search_tools_answers_witness :
  search_tools ParserProps.file_tools "COPY" =
    [ParserProps.plain_tool "copy_files" "Duplicate documents" FILE_OPERATIONS] /\
  search_tools ParserProps.file_tools "Documents" =
    [ParserProps.plain_tool "copy_files" "Duplicate documents" FILE_OPERATIONS;
     ParserProps.plain_tool "move_files" "Relocate documents" FILE_OPERATIONS] /\
  search_tools ParserProps.file_tools "zip" = [] /\
  In (ParserProps.plain_tool "move_files" "Relocate documents" FILE_OPERATIONS)
     (search_tools ParserProps.file_tools "Move_Files").
Proof.
  split; [ reflexivity | split; [ reflexivity | split; [ reflexivity | ] ] ].
  destruct (search_tools_answers unit ParserProps.file_tools "Move_Files")
    as (_ & _ & _ & Hname & _).
  apply Hname; [ right; left; reflexivity | reflexivity ].
Defined.

Section SchemaFacts.
Variable W : Type.

Definition schema_step (schema : Schema) (param : ToolParameter) : Schema :=
  {| properties := sset (properties schema) (name param) (PDict (schema_prop param));
     schema_required :=
       if required param
       then (schema_required schema ++ [name param])%list
       else schema_required schema |}.

Lemma schema_fold (ps : list ToolParameter) :
  forall acc : Schema,
    schema_required (fold_left schema_step ps acc) =
      (schema_required acc ++ map name (filter required ps))%list /\
    (forall k, shas (properties acc) k = true \/ In k (map name ps) ->
               shas (properties (fold_left schema_step ps acc)) k = true).
Proof.
  induction ps as [ | p ps IH]; intros acc; simpl.
  - rewrite app_nil_r. split; [ reflexivity | intros k [H | []]; exact H ].
  - destruct (IH (schema_step acc p)) as [Hreq Hprop]. split.
    + rewrite Hreq. unfold schema_step at 1. simpl.
      destruct (required p); simpl; [ rewrite <- app_assoc | ]; reflexivity.
    + intros k Hk. apply Hprop.
      destruct (String.eqb_spec (name p) k) as [<- | Hne].
      * left. unfold schema_step, shas, dict_has. simpl.
        fold (sget (sset (properties acc) (name p) (PDict (schema_prop p))) (name p)).
        rewrite sget_set_same. reflexivity.
      * destruct Hk as [Hk | [Hk | Hk]]; [ | contradiction | right; exact Hk ].
        left. unfold schema_step, shas, dict_has in *. simpl.
        fold (sget (sset (properties acc) (name p) (PDict (schema_prop p))) k).
        rewrite sget_set_other by exact Hne. exact Hk.
Qed.

(** X6.  The schema a tool publishes: its [required] list is exactly the
    names of the required parameters, in declaration order, and every
    declared parameter has an entry under [properties]. *)
Theorem schema_lists_required (t : BaseTool W) :
  schema_required (get_parameter_schema t) =
    map name (filter required (parameters (metadata t))) /\
  forallb (fun p => shas (properties (get_parameter_schema t)) (name p))
          (parameters (metadata t)) = true.
Proof.
  destruct (schema_fold (parameters (metadata t))
                        {| properties := []; schema_required := [] |}) as [Hreq Hprop].
  split; [ exact Hreq | ].
  apply forallb_forall. intros p Hp. apply Hprop. right. apply in_map. exact Hp.
Qed.
End SchemaFacts.

End RegistryExtras.

(** ** Validation and execution *)

Module ValidationExtras.
Import PyStr Py BaseToolM BaseToolProps.
Local Open Scope string_scope.
Local Open Scope nat_scope.
Local Unset Implicit Arguments.

Lemma first_violation_true (cs : list (res (option string))) (o : option string) :
  first_violation cs = Ok (true, o) ->
  o = None /\ Forall (fun c => c = Ok None) cs.
Proof.
  induction cs as [ | [[msg | ] | e] cs IH]; simpl; intros H.
  - inversion H. auto.
  - discriminate H.
  - destruct (IH H) as [Ho Hall]. auto.
  - discriminate H.
Qed.


Lemma validate_true_none (h : Host) (p : ToolParameter) (v : pyval) (o : option string) :
  validate h p v = Ok (true, o) -> o = None.
Proof.
  unfold validate. destruct v;
    try (intros H; apply first_violation_true in H; tauto).
  destruct (required p); intros H; inversion H; reflexivity.
Qed.

Section Accepting.
Variable W : Type.
Variable h : Host.

Lemma validate_each_true (kwargs : dict) (ps : list ToolParameter) (o : option string) :
  validate_each h ps kwargs = Ok (true, o) ->
  o = None /\
  Forall (fun p => validate h p (kwargs_get kwargs (name p)) = Ok (true, None)) ps.
Proof.
  induction ps as [ | p ps IH]; simpl.
  - intros H. inversion H. auto.
  - destruct (validate h p (kwargs_get kwargs (name p))) as [[[ | ] o'] | e] eqn:E;
      simpl; try discriminate.
    intros H. destruct (IH H) as [Ho Hall]. split; [ exact Ho | ].
    constructor; [ | exact Hall ].
    rewrite (validate_true_none h p _ o' E) in E. exact E.
Qed.

Lemma validate_each_all (kwargs : dict) (ps : list ToolParameter) :
  Forall (fun p => validate h p (kwargs_get kwargs (name p)) = Ok (true, None)) ps ->
  validate_each h ps kwargs = Ok (true, None).
Proof.
  induction 1 as [ | p ps Hp Hps IH]; simpl; [ reflexivity | ].
  rewrite Hp. simpl. exact IH.
Qed.

Lemma no_unexpected (names keys : list string) :
  filter (fun k => negb (str_mem k names)) keys = [] <-> Forall (fun k => In k names) keys.
Proof.
  induction keys as [ | k keys IH]; simpl.
  - split; [ constructor | reflexivity ].
  - destruct (str_mem k names) eqn:E; simpl.
    + rewrite IH. split.
      * intros H. constructor; [ apply RegistryProps.str_mem_In; exact E | exact H ].
      * intros H. inversion H. assumption.
    + split; [ discriminate | ].
      intros H. inversion H as [ | x l Hin Hrest]; subst.
      apply RegistryProps.str_mem_In in Hin. congruence.
Qed.

(** X7.  [validate_parameters] accepts a set of keyword arguments exactly
    when every declared parameter validates against the value passed for
    it ([None] when absent) and every key passed is a declared name. *)
Theorem accepted_arguments (t : BaseTool W) (kwargs : dict) :
  validate_parameters h t kwargs = Ok (true, None) <->
  Forall (fun p => validate h p (kwargs_get kwargs (name p)) = Ok (true, None))
         (parameters (metadata t)) /\
  Forall (fun k => In k (param_names t)) (dict_keys kwargs).
Proof.
  unfold validate_parameters. split.
  - destruct (validate_each h (parameters (metadata t)) kwargs) as [[[ | ] o] | e] eqn:E;
      simpl; try discriminate.
    destruct (validate_each_true kwargs _ o E) as [_ Hall].
    destruct (filter _ (dict_keys kwargs)) eqn:Ef; [ | discriminate ].
    intros _. split; [ exact Hall | ]. apply no_unexpected. exact Ef.
  - intros [Hall Hkeys]. rewrite (validate_each_all kwargs _ Hall). simpl.
    apply no_unexpected in Hkeys. rewrite Hkeys. reflexivity.
Qed.
End Accepting.

Lemma accepted_arguments_witness :
  validate_parameters bare_host broken_notify [("message", PStr "hi"); ("count", PInt 9)] =
    Ok (true, None) /\
  Forall (fun k => In k ["count"; "message"]) ["message"; "count"] /\
  validate_parameters bare_host broken_notify [("message", PStr "hi"); ("volume", PInt 9)] <>
    Ok (true, None).
Proof.
  assert (Hok : validate_parameters bare_host broken_notify
                                    [("message", PStr "hi"); ("count", PInt 9)] =
                Ok (true, None)) by reflexivity.
  split; [ exact Hok | ].
  destruct (accepted_arguments nat bare_host broken_notify
                               [("message", PStr "hi"); ("count", PInt 9)]) as [Hfwd _].
  destruct (Hfwd Hok) as [_ Hkeys].
  split; [ exact Hkeys | ].
  intros Hbad.
  destruct (accepted_arguments nat bare_host broken_notify
                               [("message", PStr "hi"); ("volume", PInt 9)]) as [Hfwd' _].
  destruct (Hfwd' Hbad) as [_ Hk].
  inversion Hk as [ | x l _ Hrest]; subst.
  inversion Hrest as [ | y l' Hin _]; subst.
  simpl in Hin. destruct Hin as [Hin | [Hin | []]]; discriminate Hin.
Defined.

(** The bound [b], when there is one, is a number and is at most / at
    least [x]. *)
Definition above (b : option pyval) (x : Q) : Prop :=
  match b with
  | None | Some PNone => True
  | Some mn => isinstance_number mn = true /\ (num_of mn <= x)%Q
  end.

Definition below (b : option pyval) (x : Q) : Prop :=
  match b with
  | None | Some PNone => True
  | Some mx => isinstance_number mx = true /\ (x <= num_of mx)%Q
  end.

Lemma Qltb_false (a b : Q) : Qltb a b = false <-> (b <= a)%Q.
Proof.
  unfold Qltb. rewrite negb_false_iff. apply Qle_bool_iff.
Qed.

Lemma Qltb_true (a b : Q) : Qltb a b = true -> ~ (b <= a)%Q.
Proof.
  intros E Hle. apply Qltb_false in Hle. congruence.
Qed.

Lemma only_range_check (r : res (option string)) :
  first_violation [Ok None; r; Ok None; Ok None; Ok None; Ok None; Ok None] =
    Ok (true, None) <-> r = Ok None.
Proof.
  destruct r as [[msg | ] | e]; cbn [first_violation]; split; intros H;
    try discriminate H; reflexivity.
Qed.

Lemma max_check_passes (h : Host) (p : ToolParameter) (v : pyval) :
  max_check h p v = Ok None <-> below (max_value p) (num_of v).
Proof.
  unfold max_check, below.
  destruct (max_value p) as [[ | s | z | q | b | l | d] | ];
    cbn [isinstance_number]; try tauto;
    try (split; [ intros H; discriminate H | intros [H _]; discriminate H ]);
    match goal with
    | |- context [Qltb ?a ?b] =>
        destruct (Qltb a b) eqn:E;
        [ apply Qltb_true in E;
          split; [ intros H; discriminate H | intros [_ H]; contradiction ]
        | apply Qltb_false in E; split; [ intros _; split; [ reflexivity | exact E ]
                                        | reflexivity ] ]
    end.
Qed.

Lemma range_check_passes (h : Host) (p : ToolParameter) (v : pyval) :
  numeric_type p = true -> isinstance_number v = true ->
  (range_check h p v = Ok None <->
   above (min_value p) (num_of v) /\ below (max_value p) (num_of v)).
Proof.
  intros Hn Hv. unfold range_check. rewrite Hn, Hv. cbn [andb].
  pose proof (max_check_passes h p v) as Hmax. unfold above.
  destruct (min_value p) as [[ | s | z | q | b | l | d] | ];
    cbn [isinstance_number]; try tauto;
    try (split; [ intros H; discriminate H | intros [[H _] _]; discriminate H ]);
    match goal with
    | |- context [Qltb ?a ?b] =>
        destruct (Qltb a b) eqn:E;
        [ apply Qltb_true in E;
          split; [ intros H; discriminate H | intros [[_ H] _]; contradiction ]
        | apply Qltb_false in E; rewrite Hmax; tauto ]
    end.
Qed.

(** X8.  The range of an [INTEGER] parameter is inclusive at both ends,
    and a [bool] counts as the integer 1 or 0: with no choice list, an
    [int] or [bool] value is accepted exactly when it is not below
    [min_value] and not above [max_value].  (A bound that is not a number
    is never met: the comparison with it raises [TypeError].) *)
Theorem integer_range_inclusive (h : Host) (p : ToolParameter) (v : pyval) :
  type p = INTEGER ->
  choices p = None ->
  isinstance_int v = true ->
  (validate h p v = Ok (true, None) <->
   above (min_value p) (num_of v) /\ below (max_value p) (num_of v)).
Proof.
  intros Ht Hc Hv.
  assert (Hnum : isinstance_number v = true) by (destruct v; try discriminate; reflexivity).
  assert (Hval : validate h p v =
                 first_violation [Ok None; range_check h p v; Ok None; Ok None;
                                  Ok None; Ok None; Ok None]).
  { unfold validate, type_check, choice_check, pattern_check, path_check, url_check,
      email_check. rewrite Ht, Hc, Hv.
    destruct v; try discriminate; reflexivity. }
  rewrite Hval, only_range_check.
  apply range_check_passes; [ unfold numeric_type; rewrite Ht; reflexivity | exact Hnum ].
Qed.

Definition small_count : ToolParameter :=
  {| name := "count"; type := INTEGER; description := "How many times";
     required := true; default := PNone; choices := None;
     min_value := Some (PInt 1); max_value := Some (PInt 9); pattern := None |}.

(** The same parameter with its lower bound written as a string. *)
Definition quoted_bound : ToolParameter :=
  {| name := "count"; type := INTEGER; description := "How many times";
     required := true; default := PNone; choices := None;
     min_value := Some (PStr "1"); max_value := Some (PInt 9); pattern := None |}.

Lemma integer_range_inclusive_witness :
  validate bare_host small_count (PInt 1) = Ok (true, None) /\
  validate bare_host small_count (PInt 9) = Ok (true, None) /\
  validate bare_host small_count (PBool true) = Ok (true, None) /\
  validate bare_host small_count (PInt 10) = Ok (false, Some "Parameter 'count' must be <= ?") /\
  (above (Some (PInt 1)) (num_of (PInt 1)) /\ below (Some (PInt 9)) (num_of (PInt 1))) /\
  validate bare_host quoted_bound (PInt 3) =
    Raise "'<' not supported between instances of 'int' and 'str'" /\
  ~ above (min_value quoted_bound) (num_of (PInt 3)).
Proof.
  destruct (integer_range_inclusive bare_host small_count (PInt 1)
                                    eq_refl eq_refl eq_refl) as [Hfwd _].
  assert (Hlow : above (Some (PInt 1)) (num_of (PInt 1)) /\
                 below (Some (PInt 9)) (num_of (PInt 1))).
  { apply Hfwd. reflexivity. }
  split; [ reflexivity | split; [ reflexivity | split; [ reflexivity | ] ] ].
  split; [ reflexivity | split; [ exact Hlow | split; [ reflexivity | ] ] ].
  intros [Hnum _]. discriminate Hnum.
Defined.


















Section Running.
Variable W : Type.
Variable h : Host.

(** X10.  [safe_execute] starts [execute] at most once.  When the
    arguments validate and [execute] returns a result, that result comes
    back with every field the tool set except [execution_time], which is
    overwritten with the time that passed since the call began. *)
Theorem safe_execute_runs_once (t : BaseTool W) (kwargs : dict) (st : State W) :
  length (invoked (snd (safe_execute h t kwargs st))) <= S (length (invoked st)) /\
  forall o r w n,
    validate_parameters h t kwargs = Ok (true, o) ->
    execute t kwargs (world st) (now st) = (Ok r, w, n) ->
    safe_execute h t kwargs st =
    (Ok {| success := success r; message := message r; data := data r;
           error := error r; execution_time := (n - now st)%Z;
           timestamp := timestamp r |},
     {| world := w; now := n;
        invoked := (invoked st ++ [(md_name (metadata t), kwargs)])%list |}).
Proof.
  split.
  - unfold safe_execute, safe_execute_try, call_execute.
    destruct (validate_parameters h t kwargs) as [[[ | ] o] | e]; simpl; try lia.
    destruct (execute t kwargs (world st) (now st)) as [[[r | e] w] n]; simpl;
      rewrite length_app; simpl; lia.
  - intros o r w n Hv He.
    unfold safe_execute, safe_execute_try, call_execute. rewrite Hv, He. reflexivity.
Qed.
End Running.

(** A tool that takes three ticks and reports success. *)
Definition working_notify : BaseTool nat :=
  {| metadata := notify_metadata; tool_module := "desktop_mcp_plugin_notify_1";
     execute := fun kwargs w t =>
                  (Ok {| success := true; message := "shown"; data := Some kwargs;
                         error := None; execution_time := 0%Z; timestamp := t |},
                   S w, (t + 3)%Z) |}.

Lemma safe_execute_runs_once_witness :
  validate_parameters bare_host working_notify [("message", PStr "hi")] = Ok (true, None) /\
  safe_execute bare_host working_notify [("message", PStr "hi")] idle =
    (Ok {| success := true; message := "shown"; data := Some [("message", PStr "hi")];
           error := None; execution_time := 3%Z; timestamp := 100%Z |},
     {| world := 1; now := 103%Z; invoked := [("notify", [("message", PStr "hi")])] |}).
Proof.
  assert (Hv : validate_parameters bare_host working_notify [("message", PStr "hi")] =
               Ok (true, None)) by reflexivity.
  split; [ exact Hv | ].
  destruct (safe_execute_runs_once nat bare_host working_notify
                                   [("message", PStr "hi")] idle) as [_ Hrun].
  exact (Hrun None _ 1 103%Z Hv eq_refl).
Defined.

End ValidationExtras.

(** ** The parser *)

Module ParserExtras.
Import PyStr Py BaseToolM CommandParserM StrProps ParserProps RegistryExtras.
Local Open Scope string_scope.
Local Open Scope nat_scope.
Local Unset Implicit Arguments.

Lemma normalize_blank (s : string) : blank s = true -> normalize s = EmptyString.
Proof.
  intros H. unfold normalize, strip. rewrite (lstrip_blank s H). reflexivity.
Qed.

(** A command pattern whose text has an unclosed group. *)
Definition unclosed : CommandPattern :=
  {| pattern := "say ({text}"; cp_intent := "speech"; cp_action := "say";
     cp_tool_name := "say_text"; parameter_mapping := [("text", "text")];
     cp_examples := [] |}.

Section Confidence.
Variable W : Type.
Variable libs : Libs.
Variable reg : ToolRegistry W.

Lemma selected_levels (pr : ParsedCommand) (command : string) :
  confidence pr = 0 \/ 80 < confidence pr ->
  let pc := selected libs reg pr command in
  (confidence pc = 0 /\ intent pc = "unknown" /\ tool_name pc = None) \/
  60 <= confidence pc.
Proof.
  intros Hpr. unfold selected.
  destruct (Nat.ltb_spec 70 (confidence pr)) as [Hhigh | Hlow]; [ right; lia | ].
  destruct (nlp_available libs && (confidence pr <? confidence (_parse_with_nlp libs reg command)))
    eqn:En.
  - apply andb_true_iff in En. destruct En as [_ En]. apply Nat.ltb_lt in En.
    right. destruct (@parse_with_nlp_range W libs reg command); lia.
  - destruct (Nat.ltb_spec (confidence pr) (confidence (_match_tool_names libs reg command)))
      as [Ht | Ht].
    + right. destruct (@match_tool_names_range W libs reg command); lia.
    + left. repeat split.
Qed.

Lemma parse_command_cases (ps : list CommandPattern) (s : string) (pc : ParsedCommand) :
  parse_command libs reg ps s = Ok pc ->
  pc = unknown_none \/
  exists pr, (confidence pr = 0 \/ 80 < confidence pr) /\
             pc = selected libs reg pr (normalize s).
Proof.
  intros H.
  destruct (string_dec (normalize s) EmptyString) as [He | Hne].
  - unfold parse_command in H. rewrite He in H. inversion H. left. reflexivity.
  - rewrite (@parse_command_resolve W libs reg ps s Hne) in H.
    destruct (_match_patterns libs ps (normalize s)) as [pr | e] eqn:Ep.
    + rewrite (@resolve_selection W libs reg ps (normalize s) pr Ep) in H.
      inversion H. right. exists pr. split; [ | reflexivity ].
      exact (@match_patterns_range libs ps (normalize s) pr Ep).
    + rewrite (@resolve_raises W libs reg ps (normalize s) e Ep) in H. discriminate H.
Qed.

(** X11.  The confidence of a parsed command is 0 or at least 0.6, and a
    command comes back at confidence 0 only as an [unknown] one without a
    tool.  So the threshold 0.3 that [execute_command] applies separates
    the unresolved commands from all the others. *)
Theorem parse_command_levels (ps : list CommandPattern) (s : string) (pc : ParsedCommand) :
  parse_command libs reg ps s = Ok pc ->
  (confidence pc = 0 /\ intent pc = "unknown" /\ tool_name pc = None) \/
  60 <= confidence pc.
Proof.
  intros H.
  destruct (parse_command_cases ps s pc H) as [Hblank | (pr & Hpr & Hsel)].
  - left. rewrite Hblank. repeat split.
  - rewrite Hsel. exact (selected_levels pr (normalize s) Hpr).
Qed.

(** X12.  A command of white space only is answered without looking at the
    patterns, the libraries or the registry: the result is the [unknown]
    command with no alternatives, also when a pattern is malformed. *)
Theorem blank_command (ps : list CommandPattern) (s : string) :
  blank s = true -> parse_command libs reg ps s = Ok unknown_none.
Proof.
  intros H. unfold parse_command. rewrite (normalize_blank s H). reflexivity.
Qed.
End Confidence.

Lemma parse_command_levels_witness :
  parse_command scoring file_tools builtin_patterns "copy_files now" =
    Ok (_match_tool_names scoring file_tools "copy_files now") /\
  confidence (_match_tool_names scoring file_tools "copy_files now") = 100 /\
  parse_command nolibs no_tools builtin_patterns "zzz" = Ok (help nolibs no_tools "zzz") /\
  ((confidence (help nolibs no_tools "zzz") = 0 /\
    intent (help nolibs no_tools "zzz") = "unknown" /\
    tool_name (help nolibs no_tools "zzz") = None) \/
   60 <= confidence (help nolibs no_tools "zzz")).
Proof.
  assert (Hz : parse_command nolibs no_tools builtin_patterns "zzz" =
               Ok (help nolibs no_tools "zzz")) by (vm_compute; reflexivity).
  split; [ vm_compute; reflexivity | split; [ vm_compute; reflexivity | ] ].
  split; [ exact Hz | ].
  exact (parse_command_levels unit nolibs no_tools builtin_patterns "zzz" _ Hz).
Defined.

Lemma blank_command_witness :
  blank "  " = true /\
  parse_command nolibs no_tools [unclosed] "  " = Ok unknown_none /\
  parse_command nolibs no_tools [unclosed] "say hello" = Raise "re.error".
Proof.
  split; [ reflexivity | split ].
  - apply (blank_command unit nolibs no_tools [unclosed] "  "). reflexivity.
  - vm_compute. reflexivity.
Defined.


(** The regular expression a pattern stands for, when it compiles. *)
Definition regex_of (p : CommandPattern) : option Re.compiled :=
  Re.compile (_convert_pattern_to_regex (pattern p)).


(** What [re.search] finds for the pattern in the command. *)
Definition hit (command : string) (p : CommandPattern) : option ReMatch.span :=
  match regex_of p with
  | Some rx => ReMatch.search true rx command
  | None => None
  end.


Section Patterns.
Variable libs : Libs.








End Patterns.





Lemma sget_sset (V : Type) (d : list (string * V)) (k k' : string) (v : V) :
  sget (sset d k v) k' = if String.eqb k k' then Some v else sget d k'.
Proof.
  destruct (String.eqb_spec k k') as [<- | Hne].
  - apply sget_set_same.
  - apply sget_set_other. exact Hne.
Qed.

Lemma keys_sset_in (V : Type) (d : list (string * V)) (k x : string) (v : V) :
  In x (dict_keys (sset d k v)) -> In x (dict_keys d) \/ x = k.
Proof.
  rewrite keys_sset. destruct (str_mem k (dict_keys d)); [ tauto | ].
  intros H. apply in_app_or in H. destruct H as [H | [H | []]]; auto.
Qed.

(** What the keys of a match can be, and the one value they all have. *)
Lemma match_entities_source (groups : list (option string)) (p : CommandPattern)
      (e : string) (v : pyval) :
  sget (_extract_entities_from_match groups p) e = Some v ->
  v = group0 groups /\ (e = "file" \/ e = "app" \/ e = "text").
Proof.
  unfold _extract_entities_from_match.
  destruct (contains "{file}" (pattern p)), (contains "{app}" (pattern p)),
    (contains "{text}" (pattern p));
    repeat rewrite sget_sset;
    repeat match goal with
           | |- context [String.eqb ?a e] => destruct (String.eqb_spec a e) as [<- | ?]
           end;
    intros H; try discriminate H; inversion H; auto.
Qed.

Lemma map_parameters_source (entities : dict) (mapping : list (string * string))
      (k : string) (v : pyval) :
  sget (_map_parameters entities mapping) k = Some v ->
  exists e, In (e, k) mapping /\ sget entities e = Some v.
Proof.
  unfold _map_parameters.
  assert (H : forall l acc,
             (forall km, In km l -> In km mapping) ->
             (sget acc k = Some v -> exists e, In (e, k) mapping /\ sget entities e = Some v) ->
             sget (fold_left (fun parameters km =>
                                match sget entities (fst km) with
                                | Some v => sset parameters (snd km) v
                                | None => parameters
                                end) l acc) k = Some v ->
             exists e, In (e, k) mapping /\ sget entities e = Some v).
  { induction l as [ | [e' k'] l IH]; intros acc Hsub Hacc; cbn [fold_left fst snd].
    - exact Hacc.
    - apply IH; [ intros km Hkm; apply Hsub; right; exact Hkm | ].
      destruct (sget entities e') as [v' | ] eqn:Ee; [ | exact Hacc ].
      rewrite sget_sset. destruct (String.eqb_spec k' k) as [<- | Hne]; [ | exact Hacc ].
      intros Hv. inversion Hv; subst v'. exists e'. split; [ | exact Ee ].
      apply Hsub. left. reflexivity. }
  apply (H mapping []); [ auto | discriminate ].
Qed.

(** X14.  The parameters of a pattern matched by its regular expression
    all carry one value, the first group of the match, and only the
    placeholders [{file}], [{app}] and [{text}] give an entity: a
    parameter mapped from [{path}] or [{number}] is never set. *)
Theorem regex_parameters_share_group (groups : list (option string)) (p : CommandPattern)
        (k : string) (v : pyval) :
  sget (_map_parameters (_extract_entities_from_match groups p) (parameter_mapping p)) k =
    Some v ->
  v = group0 groups /\
  exists e, In (e, k) (parameter_mapping p) /\ (e = "file" \/ e = "app" \/ e = "text").
Proof.
  intros H. apply map_parameters_source in H. destruct H as (e & Hin & He).
  apply match_entities_source in He. destruct He as [Hv He].
  split; [ exact Hv | ]. exists e. split; [ exact Hin | exact He ].
Qed.

Definition copy_to : CommandPattern :=
  {| pattern := "copy {file} to {path}"; cp_intent := "file"; cp_action := "copy";
     cp_tool_name := "copy_files";
     parameter_mapping := [("file", "source_path"); ("path", "destination_path")];
     cp_examples := ["copy document.txt to backup folder"] |}.

Lemma regex_parameters_share_group_witness :
  In copy_to builtin_patterns /\
  (exists pc,
      parse_command nolibs no_tools builtin_patterns "copy notes.txt to backup" = Ok pc /\
      tool_name pc = Some "copy_files" /\
      parameters pc = Some [("source_path", PStr "notes.txt")]) /\
  PStr "notes.txt" = group0 [Some "notes.txt"; Some "backup"] /\
  sget (_map_parameters (_extract_entities_from_match [Some "notes.txt"; Some "backup"]
                                                      copy_to)
                        (parameter_mapping copy_to)) "destination_path" = None.
Proof.
  split; [ right; right; left; reflexivity | ].
  split; [ eexists; split; [ vm_compute; reflexivity | split; reflexivity ] | ].
  assert (Hs : sget (_map_parameters
                       (_extract_entities_from_match [Some "notes.txt"; Some "backup"] copy_to)
                       (parameter_mapping copy_to)) "source_path" = Some (PStr "notes.txt"))
    by reflexivity.
  destruct (regex_parameters_share_group [Some "notes.txt"; Some "backup"] copy_to
                                         "source_path" (PStr "notes.txt") Hs) as [Hv _].
  split; [ exact Hv | reflexivity ].
Defined.

Section Inference.
Variable W : Type.
Variable reg : ToolRegistry W.

Lemma infer_one_keys (entities : dict) (prm : ToolParameter) (ps : dict) (k : string) :
  In k (dict_keys (infer_one entities prm ps)) -> In k (dict_keys ps) \/ k = name prm.
Proof.
  unfold infer_one. cbv zeta.
  repeat match goal with
         | |- context [if ?c then _ else _] => destruct c
         | |- context [match present ?a ?b with _ => _ end] => destruct (present a b)
         | |- context [match sget ?a ?b with _ => _ end] => destruct (sget a b)
         end;
    intros Hk; solve [ apply keys_sset_in in Hk; exact Hk | left; exact Hk ].
Qed.

Lemma infer_fold_keys (entities : dict) (l : list ToolParameter) (k : string) :
  forall acc,
    In k (dict_keys (fold_left (fun ps prm => infer_one entities prm ps) l acc)) ->
    In k (dict_keys acc) \/ In k (map name l).
Proof.
  induction l as [ | prm l IH]; intros acc Hk; cbn [fold_left] in Hk.
  - left. exact Hk.
  - destruct (IH _ Hk) as [H | H].
    + apply infer_one_keys in H. destruct H as [H | H]; [ left; exact H | ].
      right. left. symmetry. exact H.
    + right. right. exact H.
Qed.

(** X15.  [_infer_parameters] only fills parameters the tool declares:
    every key of its result is the name of a parameter of the registered
    tool [tool_name]; without a tool name, or for a name that is not
    registered, the result is empty.  So inferred parameters never fail
    the check for unexpected parameters. *)
Theorem inferred_parameters_are_declared (entities : dict) (tn : option string) :
  (forall k,
      In k (dict_keys (_infer_parameters reg entities tn)) ->
      exists n tool, tn = Some n /\ get_tool reg n = Some tool /\ In k (param_names tool)) /\
  (forall n tool,
      tn = Some n -> get_tool reg n = Some tool ->
      filter (fun k => negb (str_mem k (param_names tool)))
             (dict_keys (_infer_parameters reg entities tn)) = []).
Proof.
  assert (Hkeys : forall k,
             In k (dict_keys (_infer_parameters reg entities tn)) ->
             exists n tool, tn = Some n /\ get_tool reg n = Some tool /\
                            In k (param_names tool)).
  { intros k. unfold _infer_parameters.
    destruct tn as [[ | a n] | ]; [ intros [] | | intros [] ].
    destruct (get_tool reg (String a n)) as [tool | ] eqn:Eg; [ | intros [] ].
    intros Hk. apply infer_fold_keys in Hk. destruct Hk as [[] | Hk].
    exists (String a n), tool. split; [ reflexivity | split; [ exact Eg | exact Hk ] ]. }
  split; [ exact Hkeys | ].
  intros n tool Htn Hg. apply ValidationExtras.no_unexpected.
  apply Forall_forall. intros k Hk.
  destruct (Hkeys k Hk) as (n' & tool' & Htn' & Hg' & Hin).
  rewrite Htn in Htn'. inversion Htn'; subst n'. rewrite Hg in Hg'.
  inversion Hg'; subst tool'. exact Hin.
Qed.
End Inference.

Definition notify_only : ToolRegistry nat :=
  register (empty_registry nat) BaseToolProps.broken_notify.

Definition said_twice : dict :=
  [("quoted_strings", PList [PStr "hi"]); ("numbers", PList [PInt 2])].

Lemma inferred_parameters_are_declared_witness :
  get_tool notify_only "notify" = Some BaseToolProps.broken_notify /\
  _infer_parameters notify_only said_twice (Some "notify") =
    [("count", PInt 2); ("message", PStr "hi")] /\
  filter (fun k => negb (str_mem k (param_names BaseToolProps.broken_notify)))
         (dict_keys (_infer_parameters notify_only said_twice (Some "notify"))) = [] /\
  _infer_parameters notify_only said_twice (Some "notify_all") = [].
Proof.
  assert (Hg : get_tool notify_only "notify" = Some BaseToolProps.broken_notify)
    by reflexivity.
  split; [ exact Hg | split; [ reflexivity | split; [ | reflexivity ] ] ].
  destruct (inferred_parameters_are_declared nat notify_only said_twice (Some "notify"))
    as [_ Hclean].
  exact (Hclean "notify" BaseToolProps.broken_notify eq_refl Hg).
Defined.

Section ToolNames.
Variable W : Type.
Variable libs : Libs.
Variable reg : ToolRegistry W.

(** The registered name occurs in the command. *)
Definition name_hit (command : string) (kt : string * BaseTool W) : bool :=
  contains (lower (fst kt)) command.

(** A keyword of the tool occurs in the command. *)
Definition keyword_hit (command : string) (kt : string * BaseTool W) : bool :=
  existsb (fun keyword => contains (lower keyword) command) (keywords (metadata (snd kt))).

Lemma keyword_fold (command : string) (tool : BaseTool W) (kws : list string) :
  forall b : best_tool W,
    fold_left (fun b keyword =>
                 if contains (lower keyword) command then raise_to 60 tool b else b) kws b =
    if existsb (fun keyword => contains (lower keyword) command) kws && (snd b <? 60)
    then (Some tool, 60) else b.
Proof.
  induction kws as [ | kw kws IH]; intros b; cbn [fold_left existsb]; [ reflexivity | ].
  rewrite IH. unfold raise_to.
  destruct (contains (lower kw) command); cbn [orb].
  - destruct (snd b <? 60) eqn:E; cbn [snd].
    + change (60 <? 60) with false. rewrite andb_false_r. rewrite andb_true_r. reflexivity.
    + rewrite E. rewrite !andb_false_r. reflexivity.
  - reflexivity.
Qed.

Lemma tool_step_plain (command : string) (b : best_tool W) (kt : string * BaseTool W) :
  fuzzy libs = None ->
  tool_step libs command b kt =
  if name_hit command kt && (snd b <? 80) then (Some (snd kt), 80)
  else if keyword_hit command kt && (snd b <? 60) then (Some (snd kt), 60)
  else b.
Proof.
  intros Hf. destruct kt as [n tool]. unfold tool_step, name_hit, keyword_hit.
  rewrite Hf. cbn [fst snd]. rewrite keyword_fold. unfold raise_to.
  destruct (contains (lower n) command); cbn [andb].
  - destruct (Nat.ltb_spec (snd b) 80) as [H80 | H80]; cbn [snd].
    + change (80 <? 60) with false. rewrite andb_false_r. reflexivity.
    + replace (snd b <? 60) with false by (symmetry; apply Nat.ltb_ge; lia).
      rewrite andb_false_r. reflexivity.
  - reflexivity.
Qed.

(** The tool the loop settles on from the start. *)
Definition settle_on (command : string) (ts : list (string * BaseTool W)) : best_tool W :=
  match find (name_hit command) ts with
  | Some kt => (Some (snd kt), 80)
  | None =>
      match find (keyword_hit command) ts with
      | Some kt => (Some (snd kt), 60)
      | None => (None, 0)
      end
  end.

Lemma fold_from_80 (command : string) (ts : list (string * BaseTool W)) :
  fuzzy libs = None ->
  forall b, 80 <= snd b -> fold_left (tool_step libs command) ts b = b.
Proof.
  intros Hf. induction ts as [ | kt ts IH]; intros b Hb; cbn [fold_left]; [ reflexivity | ].
  rewrite (tool_step_plain command b kt Hf).
  replace (snd b <? 80) with false by (symmetry; apply Nat.ltb_ge; lia).
  replace (snd b <? 60) with false by (symmetry; apply Nat.ltb_ge; lia).
  rewrite !andb_false_r. exact (IH b Hb).
Qed.

Lemma fold_from_60 (command : string) (ts : list (string * BaseTool W)) :
  fuzzy libs = None ->
  forall b, snd b = 60 ->
            fold_left (tool_step libs command) ts b =
            match find (name_hit command) ts with
            | Some kt => (Some (snd kt), 80)
            | None => b
            end.
Proof.
  intros Hf. induction ts as [ | kt ts IH]; intros b Hb; cbn [fold_left find];
    [ reflexivity | ].
  rewrite (tool_step_plain command b kt Hf). rewrite Hb.
  change (60 <? 80) with true. change (60 <? 60) with false.
  rewrite andb_true_r, andb_false_r.
  destruct (name_hit command kt).
  - apply (fold_from_80 command ts Hf). apply le_n.
  - exact (IH b Hb).
Qed.

Lemma fold_from_0 (command : string) (ts : list (string * BaseTool W)) :
  fuzzy libs = None ->
  fold_left (tool_step libs command) ts (None, 0) = settle_on command ts.
Proof.
  intros Hf. unfold settle_on.
  induction ts as [ | kt ts IH]; cbn [fold_left find]; [ reflexivity | ].
  rewrite (tool_step_plain command (None, 0) kt Hf). cbn [snd].
  change (0 <? 80) with true. change (0 <? 60) with true. rewrite !andb_true_r.
  destruct (name_hit command kt).
  - apply (fold_from_80 command ts Hf). apply le_n.
  - destruct (keyword_hit command kt).
    + apply (fold_from_60 command ts Hf). reflexivity.
    + exact IH.
Qed.

(** X16.  Without the similarity library the tool-name stage has three
    levels.  If the name of a registered tool occurs in the command, the
    first such tool in registry order is chosen at confidence 0.8;
    otherwise the first tool with a keyword occurring in the command, at
    0.6; otherwise the stage answers [unknown] at 0.  A name match of a
    later tool beats a keyword match of an earlier one. *)
Theorem tool_name_stage_levels (command : string) :
  fuzzy libs = None ->
  let chosen (kt : string * BaseTool W) (level : nat) : ParsedCommand :=
    {| intent := "execute_tool"; action := "run";
       entities := _extract_common_entities command;
       confidence := level;
       tool_name := Some (md_name (metadata (snd kt)));
       parameters := Some (_infer_parameters reg (_extract_common_entities command)
                                             (Some (md_name (metadata (snd kt)))));
       alternatives := None |} in
  _match_tool_names libs reg command =
  match find (name_hit command) (tools reg) with
  | Some kt => chosen kt 80
  | None =>
      match find (keyword_hit command) (tools reg) with
      | Some kt => chosen kt 60
      | None => unknown_none
      end
  end.
Proof.
  intros Hf chosen. unfold _match_tool_names.
  rewrite (fold_from_0 command (tools reg) Hf). unfold settle_on.
  destruct (find (name_hit command) (tools reg)) as [kt | ]; [ reflexivity | ].
  destruct (find (keyword_hit command) (tools reg)) as [kt | ]; reflexivity.
Qed.
End ToolNames.

Definition tagged_tool (n d : string) (kws : list string) : BaseTool unit :=
  {| metadata :=
       {| md_name := n; md_description := d; category := UTILITIES; version := "1.0.0";
          author := "Desktop MCP"; keywords := kws; BaseToolM.parameters := [];
          requirements := []; platforms := ["linux"];
          min_python_version := "3.10"; icon := None; documentation_url := None;
          examples := [] |};
     tool_module := "desktop_mcp_plugin_archive_1";
     execute := LoaderProps.done |}.

Definition archive_tools : ToolRegistry unit :=
  register (register no_tools (tagged_tool "archive_files" "Pack files" ["zip"; "tar"]))
           (tagged_tool "zip" "Compress a folder" []).

Lemma tool_name_stage_levels_witness :
  fuzzy nolibs = None /\
  tool_name (_match_tool_names nolibs archive_tools "zip photos") = Some "zip" /\
  confidence (_match_tool_names nolibs archive_tools "zip photos") = 80 /\
  tool_name (_match_tool_names nolibs archive_tools "tar photos") = Some "archive_files" /\
  confidence (_match_tool_names nolibs archive_tools "tar photos") = 60.
Proof.
  split; [ reflexivity | ].
  rewrite (tool_name_stage_levels unit nolibs archive_tools "zip photos" eq_refl).
  rewrite (tool_name_stage_levels unit nolibs archive_tools "tar photos" eq_refl).
  repeat split; reflexivity.
Defined.

Lemma replace_absent (rest new s : string) :
  contains "{" s = false -> replace (String "{" rest) new s = s.
Proof.
  unfold replace. induction s as [ | c s IH]; [ reflexivity | ].
  cbn [contains startswith replace_from]. intros H.
  apply orb_false_iff in H. destruct H as [Hc Hs].
  rewrite andb_true_r in Hc. rewrite Hc. cbn [andb].
  rewrite (IH Hs). reflexivity.
Qed.

(** X25.  A pattern without a brace is used as a regular expression
    exactly as it is written: [_convert_pattern_to_regex] rewrites the
    five placeholders and nothing else, and escapes nothing. *)
Theorem plain_pattern_is_verbatim (p : string) :
  contains "{" p = false -> _convert_pattern_to_regex p = p.
Proof.
  intros H. unfold _convert_pattern_to_regex. cbv zeta.
  rewrite (replace_absent _ _ p H), (replace_absent _ _ p H), (replace_absent _ _ p H),
    (replace_absent _ _ p H), (replace_absent _ _ p H).
  reflexivity.
Qed.

(** A pattern whose dot and question mark keep their meaning in a regular
    expression. *)
Definition whats_up : CommandPattern :=
  {| pattern := "status.?"; cp_intent := "system"; cp_action := "status";
     cp_tool_name := "get_system_information"; parameter_mapping := [];
     cp_examples := [] |}.

Lemma plain_pattern_is_verbatim_witness :
  contains "{" (pattern whats_up) = false /\
  _convert_pattern_to_regex (pattern whats_up) = "status.?" /\
  hit "statusx" whats_up <> None /\
  hit "status" whats_up <> None.
Proof.
  assert (H : contains "{" (pattern whats_up) = false) by reflexivity.
  split; [ exact H | split ].
  - exact (plain_pattern_is_verbatim (pattern whats_up) H).
  - split; vm_compute; discriminate.
Defined.

End ParserExtras.

(** ** Running a command *)

Module AppExtras.
Import PyStr Py BaseToolM CommandParserM AppM HistoryProps BaseToolProps ParserProps.
Local Open Scope string_scope.
Local Open Scope nat_scope.
Local Unset Implicit Arguments.

Lemma remember_appends (cp : CommandParser) (c : ParsedCommand) :
  exists older, command_history (remember_command cp c) = (older ++ [c])%list.
Proof.
  rewrite remember_history.
  destruct (Nat.ltb_spec 100 (length (command_history cp ++ [c]))) as [Hgt | Hle].
  - rewrite length_app in *. cbn [length] in *.
    exists (skipn (length (command_history cp) + 1 - 50) (command_history cp)).
    apply skipn_snoc. lia.
  - exists (command_history cp). reflexivity.
Qed.

Section Commands.
Variable W : Type.
Variable h : Host.
Variable libs : Libs.
Variable reg : ToolRegistry W.
Variable stamp : Z -> string.

(** X17.  A command that is refused (the reply carries no result) has no
    effect: the application and the state around the tools are as they
    were, so no tool was started and nothing was recorded or remembered;
    the reply is a failure with an error text. *)
Theorem refused_command_changes_nothing (app app' : App) (command source : string)
        (st st' : State W) (reply : Reply) :
  execute_command h libs reg stamp app command source st = (reply, app', st') ->
  rp_result reply = None ->
  app' = app /\ st' = st /\ rp_success reply = false /\
  exists msg, rp_error reply = Some msg.
Proof.
  unfold execute_command.
  destruct (parse_command libs reg (patterns (command_parser app)) command) as [pc | e].
  2:{ intros H _. inversion H; subst. cbn. eauto. }
  destruct (confidence pc <? 30).
  { intros H _. inversion H; subst. cbn. eauto. }
  destruct (tool_name pc) as [[ | a n] | ].
  1,3: intros H _; inversion H; subst; cbn; eauto.
  destruct (get_tool reg (String a n)) as [tool | ].
  2:{ intros H _. inversion H; subst. cbn. eauto. }
  destruct (@safe_execute_returns W h tool (or_empty (CommandParserM.parameters pc)) st)
    as (r & st1 & Hs).
  rewrite Hs. intros H Hnone. inversion H; subst. discriminate Hnone.
Qed.

(** X18.  A command that ran a tool: the reply reports the success flag of
    the result; exactly one record is appended to the execution history,
    with the text of the command as it was typed; the patterns of the
    parser are untouched; the parsed command goes last in the command
    history when the tool succeeded, and the parser is left as it was
    when the tool failed; at most one [execute] was started. *)
Theorem run_is_recorded (app app' : App) (command source : string)
        (st st' : State W) (reply : Reply) (r : ToolResult) :
  execute_command h libs reg stamp app command source st = (reply, app', st') ->
  rp_result reply = Some r ->
  rp_success reply = success r /\
  (exists record,
      execution_history app' = (execution_history app ++ [record])%list /\
      er_result record = r /\ er_success record = success r /\
      er_original_command record = command /\ er_source record = source /\
      rp_parsed_command reply = Some (er_parsed_command record) /\
      (success r = true ->
       exists older,
         command_history (command_parser app') =
         (older ++ [er_parsed_command record])%list)) /\
  patterns (command_parser app') = patterns (command_parser app) /\
  (success r = false -> command_parser app' = command_parser app) /\
  length (invoked st') <= S (length (invoked st)).
Proof.
  unfold execute_command.
  destruct (parse_command libs reg (patterns (command_parser app)) command) as [pc | e].
  2:{ intros H Hr. inversion H; subst. discriminate Hr. }
  destruct (confidence pc <? 30).
  { intros H Hr. inversion H; subst. discriminate Hr. }
  destruct (tool_name pc) as [[ | a n] | ].
  1,3: intros H Hr; inversion H; subst; discriminate Hr.
  destruct (get_tool reg (String a n)) as [tool | ].
  2:{ intros H Hr. inversion H; subst. discriminate Hr. }
  assert (Hone : length (invoked (snd (safe_execute h tool
                                         (or_empty (CommandParserM.parameters pc)) st))) <=
                 S (length (invoked st))).
  { unfold safe_execute, safe_execute_try, call_execute.
    destruct (validate_parameters h tool (or_empty (CommandParserM.parameters pc)))
      as [[[ | ] o] | e]; cbn; try lia.
    destruct (execute tool (or_empty (CommandParserM.parameters pc)) (world st) (now st))
      as [[[r0 | e] w] n0]; cbn; rewrite length_app; cbn; lia. }
  destruct (safe_execute h tool (or_empty (CommandParserM.parameters pc)) st)
    as [[r0 | e] st1].
  2:{ intros H Hr. inversion H; subst. discriminate Hr. }
  intros H Hr. inversion H; subst. cbn in Hr. inversion Hr; subst r0. cbn.
  split; [ reflexivity | split; [ | split; [ | split ] ] ].
  - eexists. split; [ reflexivity | ]. cbn.
    repeat (split; [ reflexivity | ]).
    intros Hok. rewrite Hok. apply remember_appends.
  - destruct (success r); reflexivity.
  - intros Hbad. rewrite Hbad. reflexivity.
  - exact Hone.
Qed.

(** X19.  The reply ["Could not understand command"] is given exactly for
    the commands the parser returns at confidence 0, and those are
    [unknown] commands without a tool; the suggestions of the reply are
    the alternatives of the parsed command ([[]] when it has none). *)
Theorem not_understood_iff_unresolved (app : App) (command source : string) (st : State W) :
  let reply := fst (fst (execute_command h libs reg stamp app command source st)) in
  (rp_error reply = Some "Could not understand command" <->
   exists pc,
     parse_command libs reg (patterns (command_parser app)) command = Ok pc /\
     confidence pc = 0) /\
  (forall pc,
      parse_command libs reg (patterns (command_parser app)) command = Ok pc ->
      confidence pc = 0 ->
      intent pc = "unknown" /\ tool_name pc = None /\
      rp_suggestions reply = Some (or_empty (alternatives pc)) /\
      rp_parsed_command reply = Some pc).
Proof.
  cbv zeta.
  assert (Hrange : forall pc,
             parse_command libs reg (patterns (command_parser app)) command = Ok pc ->
             (confidence pc = 0 /\ intent pc = "unknown" /\ tool_name pc = None) \/
             60 <= confidence pc).
  { intros pc Hpc.
    destruct (@ParserExtras.parse_command_cases W libs reg _ _ pc Hpc)
      as [Hblank | (pr & Hpr & Hsel)].
    - left. rewrite Hblank. repeat split.
    - rewrite Hsel. exact (@ParserExtras.selected_levels W libs reg pr _ Hpr). }
  unfold execute_command.
  destruct (parse_command libs reg (patterns (command_parser app)) command) as [pc | e].
  2:{ cbn. split; [ split | ].
      - intros H. inversion H.
      - intros (pc & Hpc & _). discriminate Hpc.
      - intros pc Hpc. discriminate Hpc. }
  specialize (Hrange pc eq_refl).
  destruct (Nat.ltb_spec (confidence pc) 30) as [Hlow | Hhigh].
  - assert (Hzero : confidence pc = 0) by lia.
    cbn. split; [ split | ].
    + intros _. exists pc. split; [ reflexivity | exact Hzero ].
    + reflexivity.
    + intros pc' Hpc' _. inversion Hpc'; subst pc'.
      destruct Hrange as [(_ & Hi & Ht) | Hbig]; [ | lia ].
      repeat split; assumption.
  - assert (Hno : forall pc', Ok pc = Ok pc' -> confidence pc' = 0 -> False).
    { intros pc' Hpc' Hz. inversion Hpc'; subst pc'. lia. }
    split; [ split | ].
    + intros H. exfalso.
      destruct (tool_name pc) as [[ | a n] | ]; try (cbn in H; discriminate H).
      destruct (get_tool reg (String a n)) as [tool | ]; [ | cbn in H; discriminate H ].
      destruct (safe_execute h tool (or_empty (CommandParserM.parameters pc)) st)
        as [[r0 | e] st1]; cbn in H; discriminate H.
    + intros (pc' & Hpc' & Hz). exfalso. exact (Hno pc' Hpc' Hz).
    + intros pc' Hpc' Hz. exfalso. exact (Hno pc' Hpc' Hz).
Qed.
End Commands.

Lemma triple_eta (A B C : Type) (x : A * B * C) : x = (fst (fst x), snd (fst x), snd x).
Proof. destruct x as [[a b] c]. reflexivity. Qed.

(** A tool with one optional parameter that takes three ticks. *)
Definition beep : BaseTool nat :=
  {| metadata :=
       {| md_name := "beep"; md_description := "Sound the bell";
          category := SYSTEM_CONTROL; version := "1.0.0"; author := "Desktop MCP";
          keywords := ["bell"]; BaseToolM.parameters := [count_param];
          requirements := []; platforms := ["linux"];
          min_python_version := "3.10"; icon := None; documentation_url := None;
          examples := [] |};
     tool_module := "desktop_mcp_plugin_beep_1";
     execute := fun kwargs w t =>
                  (Ok {| success := true; message := "beeped"; data := Some kwargs;
                         error := None; execution_time := 0%Z; timestamp := t |},
                   S w, (t + 3)%Z) |}.

Definition desk : ToolRegistry nat :=
  register (register (empty_registry nat) beep) broken_notify.

Definition fresh_app : App := {| command_parser := new_parser; execution_history := [] |}.

Definition clock_text (t : Z) : string := "20240101_120000_000000".

Definition typed (command : string) : Reply * App * State nat :=
  execute_command bare_host nolibs desk clock_text fresh_app command "gui" idle.

Lemma refused_command_changes_nothing_witness :
  rp_result (fst (fst (typed "ring the phone"))) = None /\
  snd (fst (typed "ring the phone")) = fresh_app /\
  snd (typed "ring the phone") = idle /\
  rp_success (fst (fst (typed "ring the phone"))) = false.
Proof.
  assert (Hn : rp_result (fst (fst (typed "ring the phone"))) = None)
    by (vm_compute; reflexivity).
  split; [ exact Hn | ].
  destruct (refused_command_changes_nothing nat bare_host nolibs desk clock_text
              fresh_app _ "ring the phone" "gui" idle _ _
              (triple_eta _ _ _ (typed "ring the phone")) Hn)
    as (Happ & Hst & Hs & _).
  split; [ exact Happ | split; [ exact Hst | exact Hs ] ].
Defined.

Definition beeped : ToolResult :=
  {| success := true; message := "beeped"; data := Some [("count", PInt 3)];
     error := None; execution_time := 3%Z; timestamp := 100%Z |}.

Lemma run_is_recorded_witness :
  rp_result (fst (fst (typed "Beep 3 times"))) = Some beeped /\
  rp_success (fst (fst (typed "Beep 3 times"))) = true /\
  length (execution_history (snd (fst (typed "Beep 3 times")))) = 1 /\
  length (command_history (command_parser (snd (fst (typed "Beep 3 times"))))) = 1 /\
  invoked (snd (typed "Beep 3 times")) = [("beep", [("count", PInt 3)])] /\
  rp_success (fst (fst (typed "notify me"))) = false /\
  length (execution_history (snd (fst (typed "notify me")))) = 1 /\
  command_parser (snd (fst (typed "notify me"))) = new_parser.
Proof.
  assert (Hr : rp_result (fst (fst (typed "Beep 3 times"))) = Some beeped)
    by (vm_compute; reflexivity).
  destruct (run_is_recorded nat bare_host nolibs desk clock_text
              fresh_app _ "Beep 3 times" "gui" idle _ _ beeped
              (triple_eta _ _ _ (typed "Beep 3 times")) Hr)
    as (Hs & (record & Hh & _ & _ & _ & _ & _ & Hrem) & _ & _ & _).
  destruct (Hrem eq_refl) as (older & Hold).
  split; [ exact Hr | split; [ exact Hs | ] ].
  split; [ rewrite Hh; reflexivity | ].
  repeat split; vm_compute; reflexivity.
Defined.

Lemma not_understood_iff_unresolved_witness :
  parse_command nolibs desk (patterns (command_parser fresh_app)) "ring the phone" =
    Ok (help nolibs desk "ring the phone") /\
  rp_error (fst (fst (typed "ring the phone"))) = Some "Could not understand command" /\
  rp_suggestions (fst (fst (typed "ring the phone"))) = Some [].
Proof.
  assert (Hp : parse_command nolibs desk (patterns (command_parser fresh_app))
                             "ring the phone" = Ok (help nolibs desk "ring the phone"))
    by (vm_compute; reflexivity).
  split; [ exact Hp | ].
  destruct (not_understood_iff_unresolved nat bare_host nolibs desk clock_text
              fresh_app "ring the phone" "gui" idle) as [[_ Hback] Hshape].
  split.
  - apply Hback. exists (help nolibs desk "ring the phone"). split; [ exact Hp | reflexivity ].
  - destruct (Hshape _ Hp eq_refl) as (_ & _ & Hsug & _). exact Hsug.
Defined.

(** X24.  [get_execution_history] returns a suffix of the history: the
    last [limit] records for [limit >= 1] (all of them when there are
    fewer), the whole history for [limit = 0], and for a negative
    [limit] the history without its first [-limit] records. *)
Theorem execution_history_window (app : App) :
  (forall limit : Z,
      (1 <= limit)%Z ->
      get_execution_history app limit =
      skipn (length (execution_history app) - Z.to_nat limit) (execution_history app)) /\
  get_execution_history app 0 = execution_history app /\
  (forall limit : Z,
      (limit < 0)%Z ->
      get_execution_history app limit =
      skipn (Z.to_nat (- limit)) (execution_history app)).
Proof.
  unfold get_execution_history. split; [ | split ].
  - intros limit Hl.
    replace (- limit)%Z with (- Z.of_nat (Z.to_nat limit))%Z by lia.
    apply slice_from_last. lia.
  - apply slice_from_zero.
  - intros limit Hl. unfold slice_from.
    destruct (Z.ltb_spec (- limit) 0) as [Hneg | _]; [ lia | ].
    destruct (Z.le_ge_cases (- limit) (Z.of_nat (length (execution_history app))))
      as [Hin | Hout].
    + rewrite Z.min_l by exact Hin. reflexivity.
    + rewrite Z.min_r by exact Hout. rewrite Nat2Z.id.
      rewrite skipn_all. symmetry. apply skipn_all2. lia.
Qed.

Definition sample_record (n : Z) : ExecutionRecord :=
  {| er_execution_id := "cmd_20240101_120000_000000"; er_timestamp := n;
     er_source := "gui"; er_original_command := "beep";
     er_parsed_command := unknown_none; er_tool_name := "beep"; er_parameters := [];
     er_result := beeped; er_success := true |}.

Definition used_app : App :=
  {| command_parser := new_parser;
     execution_history := [sample_record 1; sample_record 2; sample_record 3] |}.

Lemma execution_history_window_witness :
  get_execution_history used_app 2 = [sample_record 2; sample_record 3] /\
  get_execution_history used_app 7 = execution_history used_app /\
  get_execution_history used_app 0 = execution_history used_app /\
  get_execution_history used_app (-1) = [sample_record 2; sample_record 3].
Proof.
  destruct (execution_history_window used_app) as (Hpos & Hzero & Hneg).
  split; [ | split; [ | split ] ].
  - rewrite (Hpos 2%Z); [ reflexivity | lia ].
  - rewrite (Hpos 7%Z); [ reflexivity | lia ].
  - exact Hzero.
  - rewrite (Hneg (-1)%Z); [ reflexivity | lia ].
Defined.

End AppExtras.

(** ** Loading and reloading *)

Module LoaderExtras.
Import PyStr Py BaseToolM PluginManagerM LoaderProps RegistryProps RegistryExtras.
Local Open Scope string_scope.
Local Open Scope nat_scope.
Local Unset Implicit Arguments.

Lemma unique_nodup (l : list string) : unique l = true -> NoDup l.
Proof.
  induction l as [ | x l IH]; cbn [unique]; intros H; [ constructor | ].
  apply andb_true_iff in H. destruct H as [Hx Hl].
  constructor; [ | exact (IH Hl) ].
  intros Hin. apply str_mem_In in Hin. rewrite Hin in Hx. discriminate Hx.
Qed.

Section Loading.
Variable W : Type.

(** What [_validate_metadata] has checked. *)
Definition validated (t : BaseTool W) : Prop :=
  md_name (metadata t) <> EmptyString /\
  md_description (metadata t) <> EmptyString /\
  NoDup (param_names t).

Lemma instantiate_validated (m : string) (c : ToolClass W) (t : BaseTool W) :
  instantiate m c = Ok t -> validated t /\ get_metadata c = Ok (metadata t).
Proof.
  unfold instantiate, _validate_metadata, validated, param_names.
  destruct (get_metadata c) as [md | e]; cbn [bind]; [ | discriminate ].
  destruct (md_name md) as [ | a n] eqn:En; [ discriminate | ].
  destruct (md_description md) as [ | b d] eqn:Ed; [ discriminate | ].
  destruct (unique (map name (parameters md))) eqn:Eu; [ | discriminate ].
  cbn [bind]. intros H. inversion H; subst t. cbn [metadata].
  rewrite En, Ed. repeat split; try discriminate.
  apply unique_nodup. exact Eu.
Qed.

Lemma built_validated (f : PyFile W) (cs : list (ToolClass W)) :
  Forall validated (built f cs).
Proof.
  apply Forall_forall. intros t Ht. unfold built in Ht.
  apply in_flat_map in Ht. destruct Ht as (c & _ & Ht).
  destruct (instantiate (module_name_of f) c) as [t' | e] eqn:Ei; [ | destruct Ht ].
  destruct Ht as [<- | []]. exact (proj1 (instantiate_validated _ c t' Ei)).
Qed.

Lemma get_tool_register (reg : ToolRegistry W) (t : BaseTool W) (n : string) :
  get_tool (register reg t) n =
  if String.eqb (md_name (metadata t)) n then Some t else get_tool reg n.
Proof.
  unfold get_tool.
  change (tools (register reg t)) with (sset (tools reg) (md_name (metadata t)) t).
  apply ParserExtras.sget_sset.
Qed.

Lemma register_all_holds (P : BaseTool W -> Prop) (ts : list (BaseTool W)) :
  Forall P ts ->
  forall (reg : ToolRegistry W) (n : string),
    In n (names_of ts) \/
    (exists t0, get_tool reg n = Some t0 /\ P t0 /\ md_name (metadata t0) = n) ->
    exists t, get_tool (register_all reg ts) n = Some t /\ P t /\ md_name (metadata t) = n.
Proof.
  induction 1 as [ | t1 ts Ht1 Hts IH]; intros reg n Hn.
  - destruct Hn as [[] | Hn]. exact Hn.
  - change (register_all reg (t1 :: ts)) with (register_all (register reg t1) ts).
    apply IH. rewrite get_tool_register.
    destruct (String.eqb_spec (md_name (metadata t1)) n) as [E | Hne].
    + right. exists t1. auto.
    + destruct Hn as [[Hn | Hn] | Hn]; [ contradiction | left; exact Hn | right; exact Hn ].
Qed.

(** X20.  After a file has been loaded, its path maps to the module that
    was created for it, and every name the loader returns is registered:
    the name is not empty and maps to a tool of that name with a
    non-empty description and pairwise different parameter names.  A
    class whose metadata fails these checks is not among the names. *)
Theorem loaded_tools_are_validated (pm pm' : PluginManager W) (f : PyFile W)
        (names : list string) :
  _load_tools_from_file pm f = (Ok names, pm') ->
  sget (loaded_modules pm') (file_path f) = Some (module_name_of f) /\
  forall n, In n names ->
            n <> EmptyString /\
            exists t, get_tool (registry pm') n = Some t /\
                      md_name (metadata t) = n /\
                      md_description (metadata t) <> EmptyString /\
                      NoDup (param_names t).
Proof.
  unfold _load_tools_from_file.
  destruct (exec_module f) as [cs | e]; [ | discriminate ].
  set (pm1 := {| registry := registry pm;
                 loaded_modules := sset (loaded_modules pm) (file_path f) (module_name_of f);
                 error_log := error_log pm |}).
  destruct (load_classes f cs pm1 []) as (Hr & Hm & _ & Hn).
  destruct (fold_left (load_class f) cs (pm1, [])) as [pm2 names2].
  cbn [fst snd app] in *. intros H. injection H as Hnames Hpm.
  rewrite <- Hnames, <- Hpm. clear Hnames Hpm.
  split.
  - rewrite Hm. subst pm1. cbn [loaded_modules]. apply sget_set_same.
  - intros n Hin. rewrite Hn in Hin.
    destruct (register_all_holds validated (built f cs) (built_validated f cs)
                                 (registry pm1) n (or_introl Hin))
      as (t & Hg & (Hname & Hdesc & Hparams) & Hn').
    rewrite Hr. split; [ rewrite <- Hn'; exact Hname | ].
    exists t. auto.
Qed.

Lemma filter_absent (d : list (string * BaseTool W)) (f : string * BaseTool W -> bool)
      (n : string) :
  ~ In n (dict_keys d) -> sget (filter f d) n = None.
Proof.
  unfold sget, dict_keys.
  induction d as [ | [k v] d IH]; cbn [map fst filter]; intros Hnot; [ reflexivity | ].
  assert (Htail : dict_get String.eqb (filter f d) n = None).
  { apply IH. intros Hx. apply Hnot. right. exact Hx. }
  destruct (f (k, v)); [ | exact Htail ].
  cbn [dict_get]. destruct (String.eqb_spec k n) as [E | _]; [ | exact Htail ].
  exfalso. apply Hnot. left. exact E.
Qed.

Lemma filter_drops (d : list (string * BaseTool W)) (f : string * BaseTool W -> bool)
      (n : string) (t : BaseTool W) :
  NoDup (dict_keys d) -> In (n, t) d ->
  sget (filter f d) n = if f (n, t) then Some t else None.
Proof.
  induction d as [ | [k v] d IH]; intros Hn Hin; [ destruct Hin | ].
  unfold dict_keys in Hn. cbn [map fst] in Hn.
  inversion Hn as [ | x l Hnot Hrest]; subst.
  cbn [filter]. destruct Hin as [Heq | Hin].
  - inversion Heq; subst k v. destruct (f (n, t)).
    + unfold sget. cbn [dict_get]. rewrite String.eqb_refl. reflexivity.
    + apply filter_absent. exact Hnot.
  - assert (Hk : k <> n).
    { intros ->. apply Hnot. apply in_map_iff. exists (n, t). auto. }
    destruct (f (k, v)); [ | exact (IH Hrest Hin) ].
    unfold sget. cbn [dict_get]. destruct (String.eqb_spec k n) as [E | _];
      [ contradiction | ].
    exact (IH Hrest Hin).
Qed.

(** X21.  Reloading a path that is no longer a file or a directory, in
    any reachable state in which the path is loaded: the reload reports
    failure and no tools, but the tools of the module loaded from the
    path are already gone from the registry; every other tool stays. *)
Theorem failed_reload_unloads (ops : list (op W)) (fs : FS W) (path old_module : string) :
  sget (loaded_modules (run ops)) path = Some old_module ->
  file_at fs path = None ->
  dir_at fs path = None ->
  let out := reload_plugin (run ops) fs path in
  r_success (fst out) = false /\
  tools_reloaded (fst out) = 0 /\
  r_error (fst out) =
    Some ("Failed to reload plugin " ++ path ++ ": Plugin path not found: " ++ path) /\
  forall n t,
    In (n, t) (tools (registry (run ops))) ->
    get_tool (registry (snd out)) n =
    if String.eqb (tool_module t) old_module then None else Some t.
Proof.
  intros Hl Hf Hd. cbv zeta. unfold reload_plugin. rewrite Hf, Hd. cbn [fst snd].
  repeat (split; [ reflexivity | ]).
  intros n t Hin. cbn [log_error registry].
  unfold remove_old_tools. rewrite Hl. cbn [registry]. unfold get_tool. cbn [tools].
  unfold tools_to_remove.
  rewrite (delete_all_filter _ (fun kt => String.eqb (tool_module (snd kt)) old_module)
                             (tools (registry (run ops))) (run_nodup W ops)).
  rewrite (filter_drops _ _ n t (run_nodup W ops) Hin). cbn [snd].
  destruct (String.eqb (tool_module t) old_module); reflexivity.
Qed.

Lemma keys_register_all (ts : list (BaseTool W)) :
  forall reg : ToolRegistry W,
    (forall n, In n (list_tools reg) -> In n (list_tools (register_all reg ts))) /\
    (forall n, In n (names_of ts) -> In n (list_tools (register_all reg ts))).
Proof.
  induction ts as [ | t ts IH]; intros reg.
  - split; [ auto | intros n [] ].
  - change (register_all reg (t :: ts)) with (register_all (register reg t) ts).
    destruct (IH (register reg t)) as [Hold Hnew].
    assert (Hstep : forall n, In n (list_tools reg) \/ n = md_name (metadata t) ->
                              In n (list_tools (register reg t))).
    { intros n Hn. unfold list_tools.
      change (tools (register reg t)) with (sset (tools reg) (md_name (metadata t)) t).
      rewrite keys_sset.
      destruct (str_mem (md_name (metadata t)) (dict_keys (tools reg))) eqn:E.
      - destruct Hn as [Hn | ->]; [ exact Hn | apply str_mem_In; exact E ].
      - apply in_or_app. destruct Hn as [Hn | ->]; [ left; exact Hn | right; left; reflexivity ]. }
    split.
    + intros n Hn. apply Hold, Hstep. left. exact Hn.
    + intros n [Hn | Hn]; [ apply Hold, Hstep; right; symmetry; exact Hn | apply Hnew, Hn ].
Qed.

Lemma register_all_known (ts : list (BaseTool W)) :
  forall reg : ToolRegistry W,
    (forall n, In n (names_of ts) -> In n (list_tools reg)) ->
    list_tools (register_all reg ts) = list_tools reg.
Proof.
  induction ts as [ | t ts IH]; intros reg Hknown; [ reflexivity | ].
  change (register_all reg (t :: ts)) with (register_all (register reg t) ts).
  assert (Hsame : list_tools (register reg t) = list_tools reg).
  { unfold list_tools.
    change (tools (register reg t)) with (sset (tools reg) (md_name (metadata t)) t).
    rewrite keys_sset.
    replace (str_mem (md_name (metadata t)) (dict_keys (tools reg))) with true;
      [ reflexivity | ].
    symmetry. apply str_mem_In. apply Hknown. left. reflexivity. }
  rewrite IH; [ exact Hsame | ].
  intros n Hn. rewrite Hsame. apply Hknown. right. exact Hn.
Qed.

(** X22.  A second discovery pass over the same directories registers no
    new name and drops none: [list_tools] is what it was after the first
    pass.  The pass still reports every tool as loaded again, with the
    same names, counts and errors as the first. *)
Theorem second_discovery_adds_no_names (pm : PluginManager W) (fs : FS W) :
  let first := discover_and_load_all pm fs in
  let second := discover_and_load_all (snd first) fs in
  list_tools (registry (snd second)) = list_tools (registry (snd first)) /\
  d_tools (fst second) = d_tools (fst first) /\
  tools_loaded (fst second) + plugins_loaded (fst second) =
    tools_loaded (fst first) + plugins_loaded (fst first) /\
  errors (fst second) = errors (fst first).
Proof.
  cbv zeta.
  destruct (@discover_outcome W pm fs) as (Hr1 & Ht1 & Hc1 & He1).
  destruct (@discover_outcome W (snd (discover_and_load_all pm fs)) fs)
    as (Hr2 & Ht2 & Hc2 & He2).
  cbv zeta in *.
  split; [ | split; [ | split ] ].
  - rewrite Hr2. apply register_all_known.
    intros n Hn. rewrite Hr1.
    exact (proj2 (keys_register_all _ (registry pm)) n Hn).
  - rewrite Ht2, Ht1. reflexivity.
  - rewrite Hc2, Hc1. reflexivity.
  - rewrite He2, He1. reflexivity.
Qed.
End Loading.

(** A class that declares the same parameter twice. *)
Definition twice_class : ToolClass unit :=
  {| cls_name := "CropImageTool"; cls_module := None;
     get_metadata :=
       Ok {| md_name := "crop_image"; md_description := "Crop an image";
             category := MEDIA_PROCESSING; version := "1.0.0"; author := "Desktop MCP";
             keywords := [];
             parameters := [BaseToolProps.count_param; BaseToolProps.count_param];
             requirements := []; platforms := ["linux"];
             min_python_version := "3.10"; icon := None; documentation_url := None;
             examples := [] |};
     cls_execute := done |}.

Definition images_py : PyFile unit :=
  {| file_path := "tools/images.py"; file_name := "images.py"; stem := "images";
     path_id := "140055"; exec_module := Ok [twice_class; resize_class] |}.

Lemma loaded_tools_are_validated_witness :
  instantiate (module_name_of images_py) twice_class =
    Raise "Parameter names must be unique" /\
  fst (_load_tools_from_file (new_manager unit) images_py) = Ok ["resize_image"] /\
  sget (loaded_modules (snd (_load_tools_from_file (new_manager unit) images_py)))
       "tools/images.py" = Some "desktop_mcp_plugin_images_140055" /\
  exists t,
    get_tool (registry (snd (_load_tools_from_file (new_manager unit) images_py)))
             "resize_image" = Some t /\
    md_name (metadata t) = "resize_image".
Proof.
  split; [ reflexivity | split; [ reflexivity | ] ].
  destruct (loaded_tools_are_validated unit (new_manager unit)
              (snd (_load_tools_from_file (new_manager unit) images_py)) images_py
              ["resize_image"] eq_refl) as [Hmod Hnames].
  split; [ exact Hmod | ].
  destruct (Hnames "resize_image" (or_introl eq_refl)) as (_ & t & Hg & Hn & _).
  exists t. split; [ exact Hg | exact Hn ].
Defined.

Definition empty_disk : FS unit :=
  {| tools_dir := None; plugins_dir := None;
     file_at := fun _ => None; dir_at := fun _ => None |}.

Lemma failed_reload_unloads_witness :
  sget (loaded_modules (run two_sources)) "plugins/notes.py" =
    Some "desktop_mcp_plugin_notes_140101" /\
  list_tools (registry (run two_sources)) = ["notes_add"; "take_screenshot"] /\
  r_success (fst (reload_plugin (run two_sources) empty_disk "plugins/notes.py")) = false /\
  get_tool (registry (snd (reload_plugin (run two_sources) empty_disk "plugins/notes.py")))
           "notes_add" = None /\
  get_tool (registry (snd (reload_plugin (run two_sources) empty_disk "plugins/notes.py")))
           "take_screenshot" = Some screenshot_tool.
Proof.
  assert (Hl : sget (loaded_modules (run two_sources)) "plugins/notes.py" =
               Some "desktop_mcp_plugin_notes_140101") by reflexivity.
  split; [ exact Hl | split; [ reflexivity | ] ].
  destruct (failed_reload_unloads unit two_sources empty_disk "plugins/notes.py"
                                  "desktop_mcp_plugin_notes_140101" Hl eq_refl eq_refl)
    as (Hs & _ & _ & Hget).
  split; [ exact Hs | split ].
  - destruct (get_tool (registry (run two_sources)) "notes_add") as [t | ] eqn:Et;
      [ | vm_compute in Et; discriminate Et ].
    assert (Hin : In ("notes_add", t) (tools (registry (run two_sources)))).
    { left. vm_compute in Et. inversion Et. reflexivity. }
    rewrite (Hget "notes_add" t Hin).
    vm_compute in Et. inversion Et. reflexivity.
  - rewrite (Hget "take_screenshot" screenshot_tool (or_intror (or_introl eq_refl))).
    reflexivity.
Defined.

End LoaderExtras.

(** ** Merging configurations *)

Module ConfigExtras.
Import Py ConfigM RegistryExtras.
Local Open Scope string_scope.
Local Open Scope nat_scope.
Local Unset Implicit Arguments.

(** The value a key gets when the user supplies [value] for it and the
    merged dictionary holds [old]: two dictionaries are merged, anything
    else is replaced. *)
Definition merged_entry (old : option pyval) (value : pyval) : pyval :=
  match old, value with
  | Some (PDict inner), PDict user => PDict (_merge_configs inner user)
  | _, _ => value
  end.

(** One turn of the loop of [_merge_configs]. *)
Definition merge_step (merged : dict) (kv : string * pyval) : dict :=
  sset merged (fst kv) (merged_entry (sget merged (fst kv)) (snd kv)).

Lemma merge_fold (user : dict) :
  forall default : dict, _merge_configs default user = fold_left merge_step user default.
Proof.
  unfold _merge_configs. cbn [merge_value].
  induction user as [ | [k v] user IH]; intros default; [ reflexivity | ].
  cbn [fold_left]. rewrite <- IH. f_equal.
  unfold merge_step, merged_entry, _merge_configs. cbn [fst snd].
  destruct (sget default k) as [[ | | | | | | inner] | ]; destruct v; reflexivity.
Qed.

Lemma sget_absent (d : dict) (k : string) : ~ In k (dict_keys d) -> sget d k = None.
Proof.
  unfold sget, dict_keys.
  induction d as [ | [k' v'] d IH]; cbn [map fst dict_get]; intros Hnot; [ reflexivity | ].
  destruct (String.eqb_spec k' k) as [E | _].
  - exfalso. apply Hnot. left. exact E.
  - apply IH. intros Hin. apply Hnot. right. exact Hin.
Qed.

Lemma sget_cons (d : dict) (k1 k : string) (v1 : pyval) :
  sget ((k1, v1) :: d) k = if String.eqb k1 k then Some v1 else sget d k.
Proof. reflexivity. Qed.

Lemma merge_fold_lookup (k : string) (user : dict) :
  forall merged : dict,
    NoDup (dict_keys user) ->
    sget (fold_left merge_step user merged) k =
    match sget user k with
    | Some v => Some (merged_entry (sget merged k) v)
    | None => sget merged k
    end.
Proof.
  induction user as [ | [k1 v1] user IH]; intros merged Hn; [ reflexivity | ].
  unfold dict_keys in Hn. cbn [map fst] in Hn.
  inversion Hn as [ | x l Hnot Hrest]; subst.
  cbn [fold_left]. rewrite (IH _ Hrest). rewrite sget_cons.
  unfold merge_step. cbn [fst snd].
  destruct (String.eqb_spec k1 k) as [E | Hne].
  - subst k1. rewrite (sget_absent user k Hnot). apply sget_set_same.
  - rewrite (sget_set_other _ merged k1 k _ Hne). reflexivity.
Qed.

(** X23.  What a key maps to after [_merge_configs]: a key the user
    configuration does not mention keeps its default; a key it mentions
    gets the user's value, except that when both the default and the
    user's value are dictionaries the two are merged in the same way, so
    the defaults the user did not override survive at every level. *)
Theorem merge_lookup (default user : dict) (k : string) :
  NoDup (dict_keys user) ->
  sget (_merge_configs default user) k =
  match sget user k with
  | Some v =>
      Some match sget default k, v with
           | Some (PDict inner), PDict u => PDict (_merge_configs inner u)
           | _, _ => v
           end
  | None => sget default k
  end.
Proof.
  intros Hn. rewrite merge_fold. exact (merge_fold_lookup k user default Hn).
Qed.

Definition default_config : dict :=
  [("gui", PDict [("theme", PStr "dark"); ("width", PInt 800)]);
   ("voice", PBool false);
   ("log_level", PStr "INFO")].

Definition user_config : dict :=
  [("gui", PDict [("theme", PStr "light")]);
   ("log_level", PDict [("file", PStr "DEBUG")]);
   ("api", PDict [("port", PInt 8080)])].

Lemma merge_lookup_witness :
  NoDup (dict_keys user_config) /\
  sget (_merge_configs default_config user_config) "gui" =
    Some (PDict [("theme", PStr "light"); ("width", PInt 800)]) /\
  sget (_merge_configs default_config user_config) "voice" = Some (PBool false) /\
  sget (_merge_configs default_config user_config) "log_level" =
    Some (PDict [("file", PStr "DEBUG")]) /\
  dict_keys (_merge_configs default_config user_config) =
    ["gui"; "voice"; "log_level"; "api"].
Proof.
  assert (Hn : NoDup (dict_keys user_config)).
  { repeat constructor; cbn; intuition discriminate. }
  split; [ exact Hn | ].
  rewrite (merge_lookup default_config user_config "gui" Hn).
  rewrite (merge_lookup default_config user_config "voice" Hn).
  rewrite (merge_lookup default_config user_config "log_level" Hn).
  split; [ reflexivity | split; [ reflexivity | split; reflexivity ] ].
Defined.

End ConfigExtras.
